(** * Credibility analyzer (ml-service/app/analyzer.py)

    A shallow embedding of the heuristic analysis pipeline: the two pattern
    detectors, the keyword extractor, the score aggregator, the overview
    generator and [analyze_content], followed by the properties of the
    specification that were checked against them.  The device selection of
    the same module and the text utilities of [utils/text_processor.py]
    follow, with properties of their own.

    Modelling conventions.
    - A Python [str] is a list of Unicode code points ([list N]).  The
      Unicode character database of the interpreter ([str.lower], the class
      [\w], case-insensitive comparison in [re]) is not part of the
      repository; it is a parameter ([unicode_db]) of every function that
      consults it, and [ascii_db] is its restriction to ASCII, used to run
      the functions on concrete ASCII texts.
    - A Python [float] is an IEEE 754 binary64 number, taken from the
      Standard Library's [SpecFloat] ([prec = 53], [emax = 1024]); an [int]
      is a [Z].
    - A raised exception is [None].
    - [uuid.uuid4] is an oracle [nat -> string] giving the successive draws,
      threaded through the detectors together with the number of draws
      already made. *)

From Stdlib Require Import ZArith NArith List String Ascii Lia.
From Stdlib Require Import Floats.SpecFloat.
From stdpp Require Import gmap strings list pretty.

Local Open Scope Z_scope.

(** ** Python numbers *)

Abbreviation float := spec_float.

Definition prec : Z := 53.
Definition emax : Z := 1024.

Definition fadd : float -> float -> float := SFadd prec emax.
Definition fsub : float -> float -> float := SFsub prec emax.
Definition fmul : float -> float -> float := SFmul prec emax.
Definition fdiv : float -> float -> float := SFdiv prec emax.
Definition flt : float -> float -> bool := SFltb.

(** [float(z)] for an [int]: the nearest double (exact below [2^53]).
    CPython raises [OverflowError] from [2^1024] on, a magnitude that no
    count or length of this program reaches; the model rounds to infinity
    there. *)
Definition float_of_int (z : Z) : float := binary_normalize prec emax z 0 false.

(** The decimal literal [n * 10^-k], e.g. [dec 3 1] for [0.3]: the double
    nearest to the decimal, a correctly rounded quotient of two exact
    doubles. *)
Definition dec (n : Z) (k : nat) : float :=
  fdiv (float_of_int n) (float_of_int (10 ^ Z.of_nat k)).

(** [min(a, b)] on two floats: the first argument unless the second is
    strictly smaller. *)
Definition py_min (a b : float) : float := if flt b a then b else a.

(** Nearest integer to [m * 2^e] ([0 <= m]), ties to even. *)
Definition round_half_even (m e : Z) : Z :=
  if 0 <=? e then m * 2 ^ e
  else
    let d := 2 ^ (- e) in
    let q := m / d in
    match 2 * (m mod d) ?= d with
    | Lt => q
    | Gt => q + 1
    | Eq => if Z.even q then q else q + 1
    end.

(** [round(x, ndigits)] on a float: the exact value of [x] is rounded, ties
    to even, to [ndigits] decimal places and the decimal obtained is
    converted back to the nearest double ([float.__round__] goes through a
    correctly rounded decimal string); infinities and NaN are returned
    unchanged. *)
Definition py_round (x : float) (ndigits : nat) : float :=
  match x with
  | S754_finite s m e =>
      let p := 10 ^ Z.of_nat ndigits in
      match round_half_even (Z.pos m * p) e with
      | Z.pos n => fdiv (S754_finite s n 0) (float_of_int p)
      | _ => S754_zero s
      end
  | _ => x
  end.

(** [int(x)] on a float truncates toward zero; it raises on infinities
    ([OverflowError]) and NaN ([ValueError]). *)
Definition py_int (x : float) : option Z :=
  match x with
  | S754_zero _ => Some 0
  | S754_finite s m e => Some (cond_Zopp s (Z.shiftl (Z.pos m) e))
  | S754_infinity _ | S754_nan => None
  end.

(** A value of the accumulator [base_score]: an [int] until a keyword
    contribution, a [float], is added to it. *)
Inductive number :=
  | Int (z : Z)
  | Float (f : float).

Definition to_float (x : number) : float :=
  match x with
  | Int z => float_of_int z
  | Float f => f
  end.

Definition num_add (x y : number) : number :=
  match x, y with
  | Int a, Int b => Int (a + b)
  | _, _ => Float (fadd (to_float x) (to_float y))
  end.

Definition num_sub (x y : number) : number :=
  match x, y with
  | Int a, Int b => Int (a - b)
  | _, _ => Float (fsub (to_float x) (to_float y))
  end.

Definition num_mul (x y : number) : number :=
  match x, y with
  | Int a, Int b => Int (a * b)
  | _, _ => Float (fmul (to_float x) (to_float y))
  end.

(** [int(x)] *)
Definition num_int (x : number) : option Z :=
  match x with
  | Int z => Some z
  | Float f => py_int f
  end.

(** ** Data model *)

(** A Python string as its code points. *)
Abbreviation pystr := (list N).

Definition codes (s : string) : pystr :=
  map (fun c => N_of_ascii c) (list_ascii_of_string s).

Record RedFlag := {
  rf_id : string;
  rf_description : string;
  rf_severity : string
}.

Record PositiveIndicator := {
  pi_id : string;
  pi_description : string;
  pi_icon : string
}.

Record Keyword := {
  kw_term : pystr;
  kw_impact : string;
  kw_weight : float
}.

Record AnalysisResult := {
  score : Z;
  overview : string;
  red_flags : list RedFlag;
  positive_indicators : list PositiveIndicator;
  keywords : list Keyword
}.

(** ** Score aggregation *)

Definition severity_weights : gmap string Z :=
  {[ "low"%string := 5; "medium"%string := 10; "high"%string := 15 ]}.

(** [_calculate_score]: the three adjustments update [base_score] in turn;
    the result is [max(0, min(100, int(base_score)))]. *)
Definition _calculate_score (red_flags : list RedFlag)
    (positive_indicators : list PositiveIndicator)
    (keywords : list Keyword) : option Z :=
  let base_score := Int 50 in
  let base_score :=
    fold_left
      (fun base_score flag =>
         num_sub base_score
           (Int (default 5 (severity_weights !! rf_severity flag))))
      red_flags base_score in
  let base_score :=
    num_add base_score (Int (Z.of_nat (length positive_indicators) * 8)) in
  let base_score :=
    fold_left
      (fun base_score keyword =>
         if String.eqb (kw_impact keyword) "positive"
         then num_add base_score (num_mul (Float (kw_weight keyword)) (Int 5))
         else num_sub base_score (num_mul (Float (kw_weight keyword)) (Int 5)))
      keywords base_score in
  z ← num_int base_score;
  Some (Z.max 0 (Z.min 100 z)).

(** ** The fragment of [re] used by the pattern tables *)

(** What the analyzer takes from the interpreter's Unicode database. *)
Record unicode_db := {
  (** [str.lower()] *)
  u_lower : pystr -> pystr;
  (** membership of a code point in the class [\w] *)
  u_word : N -> bool;
  (** under [re.IGNORECASE], the pattern literal [p] matches the text
      character [c] *)
  u_ci_eq : forall (p c : N), bool;
  (** under [re.IGNORECASE], the class range [[lo-hi]] matches [c] *)
  u_ci_range : forall (lo hi c : N), bool
}.

Definition in_range (lo hi c : N) : bool := ((lo <=? c) && (c <=? hi))%N.

Definition ascii_lower (c : N) : N :=
  if in_range 65 90 c then (c + 32)%N else c.

Definition ascii_upper (c : N) : N :=
  if in_range 97 122 c then (c - 32)%N else c.

Definition ascii_word (c : N) : bool :=
  in_range 48 57 c || in_range 65 90 c || in_range 97 122 c || (c =? 95)%N.

(** The database restricted to ASCII: no code point from 128 on is a word
    character or has a case. *)
Definition ascii_db : unicode_db := {|
  u_lower := map ascii_lower;
  u_word := ascii_word;
  u_ci_eq p c := (ascii_lower p =? ascii_lower c)%N;
  u_ci_range lo hi c :=
    in_range lo hi (ascii_lower c) || in_range lo hi (ascii_upper c)
|}.

(** One-character items. *)
Inductive atom :=
  | Chr (p : N)              (** a literal character *)
  | Range (lo hi : N)        (** [[lo-hi]] *)
  | OneOf (ps : list N).     (** [[...]], a class of literals *)

Inductive regex :=
  | Eps
  | Atom (a : atom)
  | Boundary                       (** [\b] *)
  | Cat (r1 r2 : regex)
  | Alt (r1 r2 : regex)            (** [r1|r2] *)
  | AtLeast (n : nat) (a : atom).  (** [a{n,}], greedy; [a+] is [a{1,}] *)

(** A literal piece of pattern text. *)
Definition lit (s : string) : regex :=
  foldr (fun p r => Cat (Atom (Chr p)) r) Eps (codes s).

Definition chr (s : string) : N :=
  match codes s with
  | p :: _ => p
  | [] => 0%N
  end.

(** [\b(r1|...|rn)\b] *)
Fixpoint alt (rs : list regex) : regex :=
  match rs with
  | [] => Eps
  | [r] => r
  | r :: rs' => Alt r (alt rs')
  end.

Definition word_group (rs : list regex) : regex :=
  Cat Boundary (Cat (alt rs) Boundary).

Section Matching.
Context (db : unicode_db) (ignorecase : bool).

Definition chr_matches (p c : N) : bool :=
  if ignorecase then u_ci_eq db p c else (p =? c)%N.

Definition atom_matches (a : atom) (c : N) : bool :=
  match a with
  | Chr p => chr_matches p c
  | Range lo hi =>
      if ignorecase then u_ci_range db lo hi c else in_range lo hi c
  | OneOf ps => existsb (fun p => chr_matches p c) ps
  end.

Definition is_word (o : option N) : bool :=
  match o with
  | Some c => u_word db c
  | None => false
  end.

(** A position in the subject: the character before it, if any, and the
    text from it on. *)
Definition position : Type := option N * pystr.

(** The positions reached from [(prev, s)] by reading 0, 1, 2, ...
    characters that all match [a]. *)
Fixpoint run (a : atom) (prev : option N) (s : pystr) : list position :=
  (prev, s) ::
  match s with
  | c :: s' => if atom_matches a c then run a (Some c) s' else []
  | [] => []
  end.

(** The positions at which a match of [r] started at [(prev, s)] can end,
    in the order in which a backtracking matcher finds them. *)
Fixpoint rmatch (r : regex) (prev : option N) (s : pystr) : list position :=
  match r with
  | Eps => [(prev, s)]
  | Atom a =>
      match s with
      | c :: s' => if atom_matches a c then [(Some c, s')] else []
      | [] => []
      end
  | Boundary =>
      if xorb (is_word prev) (is_word (head s)) then [(prev, s)] else []
  | Cat r1 r2 =>
      flat_map (fun q => rmatch r2 (fst q) (snd q)) (rmatch r1 prev s)
  | Alt r1 r2 => rmatch r1 prev s ++ rmatch r2 prev s
  | AtLeast n a => rev (drop n (run a prev s))
  end.

Fixpoint search_from (r : regex) (prev : option N) (s : pystr) : bool :=
  match rmatch r prev s with
  | _ :: _ => true
  | [] =>
      match s with
      | c :: s' => search_from r (Some c) s'
      | [] => false
      end
  end.

(** [re.search(r, text, flags)] as a truth value. *)
Definition re_search (r : regex) (text : pystr) : bool :=
  search_from r None text.

(** Scan for [re.findall]: [skip] characters still belong to the match
    found last. *)
Fixpoint findall_from (r : regex) (prev : option N) (s : pystr)
    (skip : nat) : list pystr :=
  match s with
  | [] =>
      match skip, rmatch r prev [] with
      | O, _ :: _ => [[]]
      | _, _ => []
      end
  | c :: s' =>
      match skip with
      | S k => findall_from r (Some c) s' k
      | O =>
          match rmatch r prev s with
          | q :: _ =>
              let n := (length s - length (snd q))%nat in
              take n s :: findall_from r (Some c) s' (n - 1)
          | [] => findall_from r (Some c) s' 0
          end
      end
  end.

(** [re.findall(r, text, flags)] for a pattern without groups: the
    matched substrings, leftmost first, not overlapping. *)
Definition re_findall (r : regex) (text : pystr) : list pystr :=
  findall_from r None text 0.
End Matching.

(** ** Pattern tables *)

Record indicator_pattern := {
  ip_pattern : regex;
  ip_description : string;
  ip_icon : string
}.

Record red_flag_pattern := {
  fp_pattern : regex;
  fp_description : string;
  fp_severity : string
}.

Definition POSITIVE_INDICATORS_PATTERNS : list indicator_pattern := [
  (* \b(study|studies|research)\b *)
  {| ip_pattern := word_group [lit "study"; lit "studies"; lit "research"];
     ip_description := "References scientific research";
     ip_icon := "science" |};
  (* \b(according to|cited|source)\b *)
  {| ip_pattern := word_group [lit "according to"; lit "cited"; lit "source"];
     ip_description := "Cites sources";
     ip_icon := "verified" |};
  (* \b(expert|professor|doctor|dr\.)\b *)
  {| ip_pattern :=
       word_group [lit "expert"; lit "professor"; lit "doctor"; lit "dr."];
     ip_description := "References expert opinions";
     ip_icon := "expert" |};
  (* \b(peer[- ]reviewed|journal|published)\b *)
  {| ip_pattern :=
       word_group
         [Cat (lit "peer") (Cat (Atom (OneOf (codes "- "))) (lit "reviewed"));
          lit "journal"; lit "published"];
     ip_description := "References peer-reviewed content";
     ip_icon := "academic" |};
  (* \b(data|statistics|percent|%)\b *)
  {| ip_pattern :=
       word_group [lit "data"; lit "statistics"; lit "percent"; lit "%"];
     ip_description := "Uses data and statistics";
     ip_icon := "chart" |};
  (* \b(university|institution|organization)\b *)
  {| ip_pattern :=
       word_group [lit "university"; lit "institution"; lit "organization"];
     ip_description := "References institutions";
     ip_icon := "institution" |}
]%string.

Definition RED_FLAG_PATTERNS : list red_flag_pattern := [
  (* \b(shocking|unbelievable|you won't believe)\b *)
  {| fp_pattern :=
       word_group [lit "shocking"; lit "unbelievable"; lit "you won't believe"];
     fp_description := "Uses sensationalist language";
     fp_severity := "medium" |};
  (* \b(they don't want you to know|secret|hidden truth)\b *)
  {| fp_pattern :=
       word_group
         [lit "they don't want you to know"; lit "secret"; lit "hidden truth"];
     fp_description := "Conspiracy-style language";
     fp_severity := "high" |};
  (* \b(miracle|cure[- ]all|guaranteed)\b *)
  {| fp_pattern :=
       word_group
         [lit "miracle";
          Cat (lit "cure") (Cat (Atom (OneOf (codes "- "))) (lit "all"));
          lit "guaranteed"];
     fp_description := "Makes unrealistic claims";
     fp_severity := "high" |};
  (* \b(click here|share now|act fast)\b *)
  {| fp_pattern :=
       word_group [lit "click here"; lit "share now"; lit "act fast"];
     fp_description := "Uses urgency tactics";
     fp_severity := "low" |};
  (* [A-Z]{5,} *)
  {| fp_pattern := AtLeast 5 (Range (chr "A") (chr "Z"));
     fp_description := "Excessive use of capital letters";
     fp_severity := "low" |};
  (* !{2,} *)
  {| fp_pattern := AtLeast 2 (Chr (chr "!"));
     fp_description := "Excessive exclamation marks";
     fp_severity := "low" |};
  (* \b(fake news|mainstream media lies)\b *)
  {| fp_pattern := word_group [lit "fake news"; lit "mainstream media lies"];
     fp_description := "Attacks credible sources";
     fp_severity := "medium" |};
  (* \b(100% proven|absolutely certain)\b *)
  {| fp_pattern := word_group [lit "100% proven"; lit "absolutely certain"];
     fp_description := "Uses absolute claims";
     fp_severity := "medium" |}
]%string.

Definition POSITIVE_KEYWORDS : list pystr := map codes [
  "research"; "study"; "evidence"; "analysis"; "data"; "report";
  "expert"; "scientist"; "professor"; "peer-reviewed"; "journal";
  "verified"; "confirmed"; "documented"; "official"; "factual"
]%string.

Definition NEGATIVE_KEYWORDS : list pystr := map codes [
  "shocking"; "unbelievable"; "secret"; "conspiracy"; "hoax";
  "miracle"; "guaranteed"; "exclusive"; "urgent"; "breaking";
  "viral"; "exposed"; "banned"; "censored"; "suppressed"
]%string.

(** The pattern of the tokenizer, [\b[a-z]+\b]. *)
Definition WORD_PATTERN : regex :=
  Cat Boundary (Cat (AtLeast 1 (Range (chr "a") (chr "z"))) Boundary).

(** ** The analyzer *)

Section Analyzer.
Context (db : unicode_db).

(** The successive values of [str(uuid.uuid4())]. *)
Context (uuid4 : nat -> string).

(** [_generate_id]: the first 8 characters of the next draw. *)
Definition _generate_id (k : nat) : string * nat :=
  (substring 0 8 (uuid4 k), S k).

(** [_find_red_flags]: one flag per rule of the table that is found in
    [text]; every rule is searched with [re.IGNORECASE]. *)
Definition _find_red_flags (text : pystr) (k : nat) : list RedFlag * nat :=
  let text_lower := u_lower db text in
  fold_left
    (fun st pattern_info =>
       let '(red_flags, k) := st in
       if re_search db true (fp_pattern pattern_info) text
       then
         let '(id, k) := _generate_id k in
         (red_flags ++
            [{| rf_id := "rf-" +:+ id;
                rf_description := fp_description pattern_info;
                rf_severity := fp_severity pattern_info |}], k)
       else (red_flags, k))
    RED_FLAG_PATTERNS ([], k).

(** [_find_positive_indicators] *)
Definition _find_positive_indicators (text : pystr) (k : nat)
    : list PositiveIndicator * nat :=
  fold_left
    (fun st pattern_info =>
       let '(indicators, k) := st in
       if re_search db true (ip_pattern pattern_info) text
       then
         let '(id, k) := _generate_id k in
         (indicators ++
            [{| pi_id := "pi-" +:+ id;
                pi_description := ip_description pattern_info;
                pi_icon := ip_icon pattern_info |}], k)
       else (indicators, k))
    POSITIVE_INDICATORS_PATTERNS ([], k).

(** The dictionary [word_freq] built by the first loop of
    [_extract_keywords]. *)
Definition word_frequencies (words : list pystr) : gmap pystr Z :=
  fold_left
    (fun word_freq word =>
       if (3 <? length word)%nat
       then <[word := default 0 (word_freq !! word) + 1]> word_freq
       else word_freq)
    words ∅.

(** [round(min(1.0, 0.3 + (freq * 0.1)), 2)] *)
Definition keyword_weight (freq : Z) : float :=
  let weight :=
    py_min (dec 10 1) (fadd (dec 3 1) (fmul (float_of_int freq) (dec 1 1))) in
  py_round weight 2.

(** One of the two loops over a keyword list. *)
Definition collect_keywords (word_freq : gmap pystr Z) (impact : string)
    (table : list pystr) (keywords : list Keyword) : list Keyword :=
  fold_left
    (fun keywords keyword =>
       match word_freq !! keyword with
       | Some freq =>
           keywords ++
             [{| kw_term := keyword;
                 kw_impact := impact;
                 kw_weight := keyword_weight freq |}]
       | None => keywords
       end)
    table keywords.

(** [_extract_keywords] *)
Definition _extract_keywords (text : pystr) : list Keyword :=
  let keywords := [] in
  let text_lower := u_lower db text in
  let words := re_findall db false WORD_PATTERN text_lower in
  let word_freq := word_frequencies words in
  let keywords := collect_keywords word_freq "positive" POSITIVE_KEYWORDS keywords in
  let keywords := collect_keywords word_freq "negative" NEGATIVE_KEYWORDS keywords in
  take 10 keywords.

(** [str.capitalize()] on the ASCII strings that the overview is made
    of: the first character in upper case, the others in lower case. *)
Definition capitalize (s : string) : string :=
  match s with
  | EmptyString => EmptyString
  | String c s' =>
      String (ascii_of_N (ascii_upper (N_of_ascii c)))
        (string_of_list_ascii
           (map (fun c => ascii_of_N (ascii_lower (N_of_ascii c)))
              (list_ascii_of_string s')))
  end.

(** [sep.join(parts)] *)
Fixpoint join (sep : string) (parts : list string) : string :=
  match parts with
  | [] => ""
  | [p] => p
  | p :: parts' => p +:+ sep +:+ join sep parts'
  end.

(** [_generate_overview] *)
Definition _generate_overview (score : Z) (red_flags : list RedFlag)
    (positive_indicators : list PositiveIndicator) : string :=
  let assessment :=
    if 80 <=? score then "This content appears to be highly credible."
    else if 60 <=? score then "This content shows moderate credibility."
    else if 40 <=? score then "This content has mixed credibility signals."
    else if 20 <=? score then "This content shows low credibility."
    else "This content appears to have very low credibility." in
  let details := [] in
  let details :=
    match positive_indicators with
    | _ :: _ =>
        details ++
          ["Found " +:+ pretty (length positive_indicators) +:+
           " positive indicator(s)"]
    | [] => details
    end in
  let details :=
    match red_flags with
    | _ :: _ =>
        details ++
          ["identified " +:+ pretty (length red_flags) +:+ " red flag(s)"]
    | [] => details
    end in
  match details with
  | _ :: _ =>
      let detail_str := join " and " details in
      assessment +:+ " " +:+ capitalize detail_str +:+ "."
  | [] => assessment
  end.

(** [analyze_content].  The device looked up first is not used by the
    analysis; [source_url] is not used either. *)
Definition analyze_content (text : pystr) (k : nat)
    : option (AnalysisResult * nat) :=
  let '(red_flags, k) := _find_red_flags text k in
  let '(positive_indicators, k) := _find_positive_indicators text k in
  let keywords := _extract_keywords text in
  score ← _calculate_score red_flags positive_indicators keywords;
  let overview := _generate_overview score red_flags positive_indicators in
  Some ({| score := score;
           overview := overview;
           red_flags := red_flags;
           positive_indicators := positive_indicators;
           keywords := keywords |}, k).
End Analyzer.

(** ** Device selection *)

(** What [detect_gpu] observes of PyTorch inside its [try] block. *)
Inductive torch_state :=
  (** [import torch] raises [ImportError] *)
  | TorchMissing
  (** another exception is raised *)
  | TorchFails
  (** [torch.cuda.is_available()] is false *)
  | TorchCpuOnly
  (** CUDA is available: [get_device_name(0)] and [torch.version.cuda] *)
  | TorchCuda (name : string) (version : option string).

(** The dictionary returned by [detect_gpu]. *)
Record gpu_info := {
  available : bool;
  device : string;
  device_name : option string;
  cuda_version : option string
}.

(** What the device selection reads: the process environment and the
    state of PyTorch. *)
Record world := {
  environ : gmap string pystr;
  torch : torch_state
}.

(** The dictionary returned by [get_gpu_status]. *)
Record gpu_status := {
  gpu_available : bool;
  using_device : string;
  status_device_name : option string;
  status_cuda_version : option string;
  use_gpu_env : pystr
}.

Definition cpu_info : gpu_info :=
  {| available := false; device := "cpu";
     device_name := None; cuda_version := None |}.

(** [detect_gpu] *)
Definition detect_gpu (w : world) : gpu_info :=
  match torch w with
  | TorchCuda name version =>
      {| available := true; device := "cuda";
         device_name := Some name; cuda_version := version |}
  | TorchCpuOnly => cpu_info
  | TorchMissing => cpu_info
  | TorchFails => cpu_info
  end.

Section Device.
Context (db : unicode_db).

(** [get_device] *)
Definition get_device (w : world) : string :=
  let use_gpu_env :=
    u_lower db (default (codes "false") (environ w !! "USE_GPU"%string)) in
  if bool_decide (use_gpu_env ∈ [codes "false"; codes "0"; codes "no"])
  then "cpu"
  else
    let gpu_info := detect_gpu w in
    device gpu_info.

(** [_get_cached_device]; the global [_DEVICE] is passed and returned. *)
Definition _get_cached_device (w : world) (_DEVICE : option string)
    : string * option string :=
  match _DEVICE with
  | None =>
      let _DEVICE := get_device w in
      (_DEVICE, Some _DEVICE)
  | Some cached => (cached, Some cached)
  end.

(** [get_gpu_status] *)
Definition get_gpu_status (w : world) (_DEVICE : option string)
    : gpu_status * option string :=
  let gpu_info := detect_gpu w in
  let '(device, _DEVICE) := _get_cached_device w _DEVICE in
  ({| gpu_available := available gpu_info;
      using_device := device;
      status_device_name := device_name gpu_info;
      status_cuda_version := cuda_version gpu_info;
      use_gpu_env := default (codes "false") (environ w !! "USE_GPU"%string) |},
   _DEVICE).
End Device.

(** ** Text utilities (utils/text_processor.py) *)

(** [s.startswith(p)] *)
Fixpoint starts_with (p s : pystr) : bool :=
  match p, s with
  | [], _ => true
  | a :: p', b :: s' => (a =? b)%N && starts_with p' s'
  | _ :: _, [] => false
  end.

(** Scan for [str.replace(old, new)] with [old] not empty: [skip]
    characters still belong to the occurrence found last. *)
Fixpoint replace_from (old new s : pystr) (skip : nat) : pystr :=
  match s with
  | [] => []
  | c :: s' =>
      match skip with
      | S k => replace_from old new s' k
      | O =>
          if starts_with old s
          then new ++ replace_from old new s' (length old - 1)
          else c :: replace_from old new s' 0
      end
  end.

(** [text.replace(old, new)], the occurrences taken leftmost first, not
    overlapping. *)
Definition str_replace (old new text : pystr) : pystr :=
  replace_from old new text 0.

Section Substitution.
Context (db : unicode_db) (ignorecase : bool).

(** Scan for [re.sub]: [skip] characters still belong to the match found
    last. *)
Fixpoint sub_from (r : regex) (repl : pystr) (prev : option N) (s : pystr)
    (skip : nat) : pystr :=
  match s with
  | [] =>
      match skip, rmatch db ignorecase r prev [] with
      | O, _ :: _ => repl
      | _, _ => []
      end
  | c :: s' =>
      match skip with
      | S k => sub_from r repl (Some c) s' k
      | O =>
          match rmatch db ignorecase r prev s with
          | q :: _ =>
              match (length s - length (snd q))%nat with
              | O => repl ++ c :: sub_from r repl (Some c) s' 0
              | S k => repl ++ sub_from r repl (Some c) s' k
              end
          | [] => c :: sub_from r repl (Some c) s' 0
          end
      end
  end.

(** [re.sub(r, repl, text)] for a replacement without group references. *)
Definition re_sub (r : regex) (repl : pystr) (text : pystr) : pystr :=
  sub_from r repl None text 0.
End Substitution.

Section TextProcessor.
Context (db : unicode_db).

(** [str.isspace] on a character, which is also the class [\s] of [re]
    on a [str]. *)
Context (isspace : N -> bool).

Fixpoint lstrip (s : pystr) : pystr :=
  match s with
  | c :: s' => if isspace c then lstrip s' else s
  | [] => []
  end.

Definition rstrip (s : pystr) : pystr := rev (lstrip (rev s)).

(** [s.strip()] *)
Definition strip (s : pystr) : pystr := rstrip (lstrip s).

(** [preprocess_text] *)
Definition preprocess_text (text : pystr) : pystr :=
  let text := str_replace [13; 10]%N [10]%N text in
  let text := str_replace [13]%N [10]%N text in
  let text := re_sub db false (AtLeast 1 (Chr 32)) [32]%N text in
  let text := re_sub db false (AtLeast 3 (Chr 10)) [10; 10]%N text in
  strip text.

(** The character before a position is one of [.!?]. *)
Definition after_terminator (prev : option N) : bool :=
  match prev with
  | Some c => bool_decide (c ∈ [46; 33; 63]%N)
  | None => false
  end.

(** Scan for [re.split(r'(?<=[.!?])\s+', text)]: [piece] is the text read
    since the last separator, and [gap] tells that the character before
    belongs to a separator. *)
Fixpoint split_from (prev : option N) (s : pystr) (piece : pystr) (gap : bool)
    : list pystr :=
  match s with
  | [] => [piece]
  | c :: s' =>
      if isspace c && (gap || after_terminator prev)
      then
        if gap then split_from (Some c) s' piece true
        else piece :: split_from (Some c) s' [] true
      else split_from (Some c) s' (piece ++ [c]) false
  end.

(** [extract_sentences] *)
Definition extract_sentences (text : pystr) : list pystr :=
  let sentences := split_from None text [] false in
  map strip (filter (fun s => strip s <> []) sentences).
End TextProcessor.

(** The whitespace of ASCII. *)
Definition ascii_space (c : N) : bool :=
  in_range 9 13 c || in_range 28 32 c.

(** * Specification-side definitions *)

(** The penalty of a red flag as the specification words it: 5 (low),
    10 (medium), 15 (high), and 5 for any other severity. *)
Definition penalty (severity : string) : Z :=
  if String.eqb severity "low" then 5
  else if String.eqb severity "medium" then 10
  else if String.eqb severity "high" then 15
  else 5.

(** Clamping to the inclusive range [0, 100]. *)
Definition clamp (z : Z) : Z := Z.max 0 (Z.min 100 z).

(** The contribution of one keyword as the specification words it. *)
Definition spec_contribution (acc : number) (keyword : Keyword) : number :=
  if String.eqb (kw_impact keyword) "positive"
  then num_add acc (num_mul (Float (kw_weight keyword)) (Int 5))
  else if String.eqb (kw_impact keyword) "negative"
  then num_sub acc (num_mul (Float (kw_weight keyword)) (Int 5))
  else acc.

(** The aggregate as the specification words it: start at 50, subtract
    the penalties, add 8 per indicator, add the keyword contributions,
    truncate, then clamp. *)
Definition spec_score (red_flags : list RedFlag)
    (positive_indicators : list PositiveIndicator)
    (keywords : list Keyword) : option Z :=
  let start :=
    50 - foldr Z.add 0 (map (fun flag => penalty (rf_severity flag)) red_flags)
    + 8 * Z.of_nat (length positive_indicators) in
  let accumulated := fold_left spec_contribution keywords (Int start) in
  truncated ← num_int accumulated;
  Some (clamp truncated).

(** * Auxiliary definitions of the proofs *)

(** A float that is at least [2^(lo+52)]: positive infinity, or a positive
    normal number whose exponent is at least [lo]. *)
Definition at_least (lo : Z) (f : float) : Prop :=
  f = S754_infinity false \/
  exists m e, f = S754_finite false m e /\ 2 ^ 52 <= Z.pos m < 2 ^ 53 /\ lo <= e.

(** A shift record without lost bits. *)
Definition lossless (m : Z) : shr_record :=
  {| shr_m := m; shr_r := false; shr_s := false |}.

(** The double that is exactly [k / 2]. *)
Definition of_halves (k : Z) : float := binary_normalize prec emax k (-1) false.

(** The weight of [keyword] is the double nearest to [n / 10], one of the
    weights that [keyword_weight] produces. *)
Definition tenths_of (keyword : Keyword) (n : Z) : Prop :=
  4 <= n <= 10 /\ kw_weight keyword = dec n 1.

(** Twice the contribution of a keyword of weight [n / 10] to the score. *)
Definition signed (keyword : Keyword) (n : Z) : Z :=
  if String.eqb (kw_impact keyword) "positive" then n else - n.

Fixpoint keyword_total (keywords : list Keyword) (ns : list Z) : Z :=
  match keywords, ns with
  | keyword :: keywords', n :: ns' => signed keyword n + keyword_total keywords' ns'
  | _, _ => 0
  end.

(** The accumulator [x] holds exactly [k / 2]. *)
Definition represents (x : number) (k : Z) : Prop :=
  (exists z, x = Int z /\ k = 2 * z) \/ x = Float (of_halves k).

(** The body of the keyword loop of [_calculate_score]. *)
Definition keyword_step (base_score : number) (keyword : Keyword) : number :=
  if String.eqb (kw_impact keyword) "positive"
  then num_add base_score (num_mul (Float (kw_weight keyword)) (Int 5))
  else num_sub base_score (num_mul (Float (kw_weight keyword)) (Int 5)).

(** ** Definitions used by the statements *)

Definition penalties (red_flags : list RedFlag) : Z :=
  foldr Z.add 0 (map (fun flag => penalty (rf_severity flag)) red_flags).

(** Twice the value that [_calculate_score] accumulates. *)
Definition doubled (red_flags : list RedFlag)
    (positive_indicators : list PositiveIndicator)
    (keywords : list Keyword) (ns : list Z) : Z :=
  2 * (50 - penalties red_flags + 8 * Z.of_nat (length positive_indicators))
  + keyword_total keywords ns.

Definition small (n : nat) : Prop := Z.of_nat n <= 2 ^ 40.

Definition sample_flag (severity : string) : RedFlag :=
  {| rf_id := "rf-00000000"; rf_description := "sample"; rf_severity := severity |}.

Definition sample_indicator : PositiveIndicator :=
  {| pi_id := "pi-00000000"; pi_description := "sample"; pi_icon := "sample" |}.

Definition sample_keyword (impact : string) (n : Z) : Keyword :=
  {| kw_term := codes "sample"; kw_impact := impact; kw_weight := dec n 1 |}.

(** The rules of the red-flag table that are found in [text]. *)
Definition matching_flag_rules (db : unicode_db) (text : pystr)
    : list red_flag_pattern :=
  filter (fun rule => re_search db true (fp_pattern rule) text = true)
    RED_FLAG_PATTERNS.

Definition matching_indicator_rules (db : unicode_db) (text : pystr)
    : list indicator_pattern :=
  filter (fun rule => re_search db true (ip_pattern rule) text = true)
    POSITIVE_INDICATORS_PATTERNS.

(** The flags of a list of rules, with the identifiers drawn from the
    [k]-th draw on. *)
Fixpoint flags_of (uuid4 : nat -> string) (rules : list red_flag_pattern)
    (k : nat) : list RedFlag :=
  match rules with
  | [] => []
  | rule :: rules' =>
      {| rf_id := "rf-" +:+ fst (_generate_id uuid4 k);
         rf_description := fp_description rule;
         rf_severity := fp_severity rule |} :: flags_of uuid4 rules' (S k)
  end.

Fixpoint indicators_of (uuid4 : nat -> string) (rules : list indicator_pattern)
    (k : nat) : list PositiveIndicator :=
  match rules with
  | [] => []
  | rule :: rules' =>
      {| pi_id := "pi-" +:+ fst (_generate_id uuid4 k);
         pi_description := ip_description rule;
         pi_icon := ip_icon rule |} :: indicators_of uuid4 rules' (S k)
  end.

(** The keyword emitted for [term], if it is a key of [word_freq]. *)
Definition keyword_entry (word_freq : gmap pystr Z) (impact : string)
    (term : pystr) : option Keyword :=
  freq ← word_freq !! term;
  Some {| kw_term := term; kw_impact := impact; kw_weight := keyword_weight freq |}.

(** The number of occurrences of [w] in [words]. *)
Definition occurrences (w : pystr) (words : list pystr) : Z :=
  Z.of_nat (length (filter (fun x => x = w) words)).

(** A code point in [a-z]. *)
Definition lower_letter (c : N) : bool := in_range 97 122 c.

(** The terms of a table that are keys of the frequency map. *)
Definition present_terms (word_freq : gmap pystr Z) (table : list pystr)
    : list pystr :=
  filter (fun term => is_Some (word_freq !! term)) table.

(** The frequency map of a text. *)
Definition text_frequencies (db : unicode_db) (text : pystr) : gmap pystr Z :=
  word_frequencies (re_findall db false WORD_PATTERN (u_lower db text)).

Definition research5 : pystr :=
  codes "research research research research research".

Definition eleven_terms : pystr :=
  codes "research study evidence analysis data report expert scientist professor journal verified".

Definition simple_article : pystr := codes "This is a simple test article.".

(** A keyword whose impact is not "positive", read as the aggregator reads
    it. *)
Definition as_negative (keyword : Keyword) : Keyword :=
  if String.eqb (kw_impact keyword) "positive" then keyword
  else {| kw_term := kw_term keyword; kw_impact := "negative";
          kw_weight := kw_weight keyword |}.

(** [text] contains [n] consecutive characters that satisfy [P]. *)
Definition has_run (P : N -> bool) (n : nat) (text : pystr) : Prop :=
  exists before middle after,
    text = before ++ middle ++ after /\ length middle = n /\
    Forall (fun c => P c = true) middle.

(** A letter of the ASCII alphabet, of either case. *)
Definition ascii_letter (c : N) : bool := in_range 65 90 c || in_range 97 122 c.

(** The first 8 characters of the draws [k], ..., [k + n - 1]. *)
Definition draws (uuid4 : nat -> string) (k n : nat) : list string :=
  map (fun i => substring 0 8 (uuid4 i)) (seq k n).

Definition sample_uuid4 (i : nat) : string :=
  pretty i +:+ "f81d4fae-7dec-41d0-a765-00a0c91e6bf6".

Definition shocking_study : pystr := codes "Shocking!! A new study shows it.".

Definition shocking_study_result : AnalysisResult :=
  {| score := 38;
     overview :=
       "This content shows low credibility. Found 1 positive indicator(s) and identified 3 red flag(s).";
     red_flags :=
       [{| rf_id := "rf-3f81d4fa";
           rf_description := "Uses sensationalist language";
           rf_severity := "medium" |};
        {| rf_id := "rf-4f81d4fa";
           rf_description := "Excessive use of capital letters";
           rf_severity := "low" |};
        {| rf_id := "rf-5f81d4fa";
           rf_description := "Excessive exclamation marks";
           rf_severity := "low" |}];
     positive_indicators :=
       [{| pi_id := "pi-6f81d4fa";
           pi_description := "References scientific research";
           pi_icon := "science" |}];
     keywords :=
       [{| kw_term := codes "study"; kw_impact := "positive";
           kw_weight := dec 4 1 |};
        {| kw_term := codes "shocking"; kw_impact := "negative";
           kw_weight := dec 4 1 |}] |}.

(** The sentence that opens the overview. *)
Definition assessment_of (score : Z) : string :=
  if 80 <=? score then "This content appears to be highly credible."
  else if 60 <=? score then "This content shows moderate credibility."
  else if 40 <=? score then "This content has mixed credibility signals."
  else if 20 <=? score then "This content shows low credibility."
  else "This content appears to have very low credibility.".

(** The sentence that closes the overview, for [n] indicators and [m]
    flags. *)
Definition findings_of (n m : nat) : string :=
  match n, m with
  | O, O => ""
  | S _, O => " Found " +:+ pretty n +:+ " positive indicator(s)."
  | O, S _ => " Identified " +:+ pretty m +:+ " red flag(s)."
  | S _, S _ =>
      " Found " +:+ pretty n +:+ " positive indicator(s) and identified "
      +:+ pretty m +:+ " red flag(s)."
  end.

(** The rest of a capitalized string. *)
Definition lower_string (s : string) : string :=
  string_of_list_ascii
    (map (fun c => ascii_of_N (ascii_lower (N_of_ascii c))) (list_ascii_of_string s)).

Definition is_digit (c : ascii) : bool := in_range 48 57 (N_of_ascii c).

Fixpoint all_digits (s : string) : bool :=
  match s with
  | EmptyString => true
  | String c s' => is_digit c && all_digits s'
  end.

Definition starts_without_digit (s : string) : bool :=
  match s with
  | EmptyString => false
  | String c _ => negb (is_digit c)
  end.

(** A position of the lowercased subject. *)
Definition lower_position (q : option N * pystr) : option N * pystr :=
  (option_map ascii_lower (fst q), map ascii_lower (snd q)).

Definition sample_world (use_gpu : option string) (t : torch_state) : world :=
  {| environ :=
       match use_gpu with
       | Some v => {[ "USE_GPU"%string := codes v ]}
       | None => ∅
       end;
     torch := t |}.

(** What is emitted for a run of [cnt] characters [p] by the substitution
    of [repl] for [p{n,}]. *)
Definition flush (p : N) (n : nat) (repl : pystr) (cnt : nat) : pystr :=
  if (n <=? cnt)%nat then repl else replicate cnt p.

(** The substitution of [repl] for every maximal run of at least [n]
    characters [p]; [cnt] characters [p] have just been read. *)
Fixpoint collapse (p : N) (n : nat) (repl : pystr) (s : pystr) (cnt : nat)
    : pystr :=
  match s with
  | [] => flush p n repl cnt
  | c :: s' =>
      if (p =? c)%N then collapse p n repl s' (S cnt)
      else flush p n repl cnt ++ c :: collapse p n repl s' 0
  end.

(** No run of [bound] characters [p] or more in [s], [cnt] characters [p]
    standing before [s]. *)
Fixpoint runs_below (p : N) (bound : nat) (s : pystr) (cnt : nat) : bool :=
  match s with
  | [] => true
  | c :: s' =>
      if (p =? c)%N then (S cnt <? bound)%nat && runs_below p bound s' (S cnt)
      else runs_below p bound s' 0
  end.

(** The characters of a text that are not whitespace. *)
Definition visible (isspace : N -> bool) (s : pystr) : pystr :=
  List.filter (fun c => negb (isspace c)) s.

Definition sample_page : pystr :=
  [32; 32; 72; 105; 33; 13; 10; 13; 10; 13; 10; 32; 32; 79; 107; 46; 32; 10]%N.

(** A pattern made of characters, classes, concatenation and alternation
    only. *)
Fixpoint plain (r : regex) : bool :=
  match r with
  | Eps => true
  | Atom _ => true
  | Boundary => false
  | Cat r1 r2 => plain r1 && plain r2
  | Alt r1 r2 => plain r1 && plain r2
  | AtLeast _ _ => false
  end.

(** The texts that a plain pattern reads under [re.IGNORECASE]. *)
Fixpoint reads (db : unicode_db) (r : regex) (w : pystr) : Prop :=
  match r with
  | Eps => w = []
  | Atom a => exists c, w = [c] /\ atom_matches db true a c = true
  | Cat r1 r2 => exists w1 w2, w = w1 ++ w2 /\ reads db r1 w1 /\ reads db r2 w2
  | Alt r1 r2 => reads db r1 w \/ reads db r2 w
  | Boundary => False
  | AtLeast _ _ => False
  end.

(** [\b] between two neighbouring characters. *)
Definition boundary (db : unicode_db) (left right : option N) : bool :=
  xorb (is_word db left) (is_word db right).

(** [text] holds a piece that [r] reads, between two word boundaries. *)
Definition has_word (db : unicode_db) (r : regex) (text : pystr) : Prop :=
  exists before w after,
    text = before ++ w ++ after /\ reads db r w /\
    boundary db (last before) (head (w ++ after)) = true /\
    boundary db (last (before ++ w)) (head after) = true.

(** The character before the position reached by reading [w]. *)
Definition last_read (prev : option N) (w : pystr) : option N :=
  match last w with
  | Some c => Some c
  | None => prev
  end.

(** [w] is a run of letters that stands in [s] between two characters
    that are not word characters, [prev] being the character before [s]. *)
Definition delimited (db : unicode_db) (prev : option N) (w s : pystr) : Prop :=
  exists before after,
    s = before ++ w ++ after /\ w <> [] /\
    Forall (fun c => lower_letter c = true) w /\
    is_word db (last_read prev before) = false /\
    is_word db (head after) = false.

Definition urgency_rule : red_flag_pattern :=
  {| fp_pattern := word_group [lit "click here"; lit "share now"; lit "act fast"];
     fp_description := "Uses urgency tactics";
     fp_severity := "low" |}.

(** * Binary64 arithmetic *)

Lemma digits2_pos_bounds (p : positive) :
  2 ^ (Z.pos (digits2_pos p) - 1) <= Z.pos p < 2 ^ Z.pos (digits2_pos p).
Proof.
  induction p as [p IH | p IH |]; cbn [digits2_pos].
  - rewrite Pos2Z.inj_succ.
    replace (Z.succ (Z.pos (digits2_pos p)) - 1) with (Z.succ (Z.pos (digits2_pos p) - 1)) by lia.
    rewrite !Z.pow_succ_r by lia. lia.
  - rewrite Pos2Z.inj_succ.
    replace (Z.succ (Z.pos (digits2_pos p)) - 1) with (Z.succ (Z.pos (digits2_pos p) - 1)) by lia.
    rewrite !Z.pow_succ_r by lia. lia.
  - cbn. lia.
Qed.

Lemma digits2_pos_unique (p : positive) (k : Z) :
  2 ^ (k - 1) <= Z.pos p < 2 ^ k -> Z.pos (digits2_pos p) = k.
Proof.
  intros [Hlo Hhi]. pose proof (digits2_pos_bounds p) as [Blo Bhi].
  destruct (Z.lt_trichotomy (Z.pos (digits2_pos p)) k) as [Hlt | [Heq | Hgt]]; [| exact Heq |].
  - assert (2 ^ Z.pos (digits2_pos p) <= 2 ^ (k - 1)) by (apply Z.pow_le_mono_r; lia). lia.
  - assert (0 <= k \/ k < 0) as [Hk | Hk] by lia.
    + assert (2 ^ k <= 2 ^ (Z.pos (digits2_pos p) - 1)) by (apply Z.pow_le_mono_r; lia). lia.
    + rewrite (Z.pow_neg_r 2 k) in Hhi by lia. lia.
Qed.

Lemma shr_1_m (mrs : shr_record) :
  0 <= shr_m mrs -> shr_m (shr_1 mrs) = shr_m mrs / 2.
Proof.
  destruct mrs as [m r s]. cbn [shr_m]. intros Hm.
  destruct m as [| [p | p |] |]; cbn [shr_1 shr_m]; try lia.
  - reflexivity.
  - apply Z.div_unique with (r := 1); lia.
  - apply Z.div_unique with (r := 0); lia.
  - reflexivity.
Qed.

Lemma pow2_xO (p : positive) : 2 ^ Z.pos p~0 = 2 ^ Z.pos p * 2 ^ Z.pos p.
Proof. rewrite <- Z.pow_add_r by lia. f_equal. lia. Qed.

Lemma pow2_xI (p : positive) : 2 ^ Z.pos p~1 = 2 * (2 ^ Z.pos p * 2 ^ Z.pos p).
Proof.
  rewrite <- Z.pow_add_r by lia.
  replace (Z.pos p~1) with (Z.succ (Z.pos p + Z.pos p)) by lia.
  apply Z.pow_succ_r. lia.
Qed.

Lemma iter_shr_m (p : positive) (mrs : shr_record) :
  0 <= shr_m mrs ->
  shr_m (SpecFloat.iter_pos shr_1 p mrs) = shr_m mrs / 2 ^ Z.pos p.
Proof.
  revert mrs. induction p as [p IH | p IH |]; intros mrs Hm;
    cbn [SpecFloat.iter_pos].
  - assert (H1 : 0 <= shr_m (shr_1 mrs)) by (rewrite shr_1_m by lia; apply Z.div_pos; lia).
    assert (H2 : 0 <= shr_m (SpecFloat.iter_pos shr_1 p (shr_1 mrs))).
    { rewrite IH by lia. apply Z.div_pos; lia. }
    rewrite IH, IH, shr_1_m by lia.
    rewrite !Z.div_div by lia.
    rewrite pow2_xI. reflexivity.
  - assert (H2 : 0 <= shr_m (SpecFloat.iter_pos shr_1 p mrs)).
    { rewrite IH by lia. apply Z.div_pos; lia. }
    rewrite IH, IH by lia.
    rewrite !Z.div_div by lia.
    rewrite pow2_xO. reflexivity.
  - rewrite shr_1_m by lia. reflexivity.
Qed.

Lemma round_nearest_even_cases (m : Z) (l : location) :
  round_nearest_even m l = m \/ round_nearest_even m l = m + 1.
Proof.
  destruct l as [| []]; cbn [round_nearest_even]; auto.
  destruct (Z.even m); auto.
Qed.

Lemma fexp_normal (k : Z) : -1074 <= k - 53 -> fexp prec emax k = k - 53.
Proof. unfold fexp, emin, prec, emax. lia. Qed.

Lemma shr_fexp_m (m : positive) (e : Z) (l : location) :
  53 <= Z.pos (digits2_pos m) ->
  -1074 <= e + Z.pos (digits2_pos m) - 53 ->
  exists mrs,
    shr_fexp prec emax (Z.pos m) e l = (mrs, e + Z.pos (digits2_pos m) - 53) /\
    shr_m mrs = Z.pos m / 2 ^ (Z.pos (digits2_pos m) - 53) /\
    (Z.pos (digits2_pos m) = 53 -> loc_of_shr_record mrs = l).
Proof.
  intros Hd Hn. unfold shr_fexp. cbn [Zdigits2].
  rewrite fexp_normal by lia.
  replace (Z.pos (digits2_pos m) + e - 53 - e) with (Z.pos (digits2_pos m) - 53) by lia.
  destruct (Z.pos (digits2_pos m) - 53) as [| s | s] eqn:Es; try lia.
  - cbn [shr]. eexists. split; [f_equal; lia |]. split.
    + destruct l as [| []]; cbn; rewrite Z.div_1_r; reflexivity.
    + intros _. destruct l as [| []]; reflexivity.
  - cbn [shr]. eexists. split; [f_equal; lia |]. split.
    + rewrite iter_shr_m; destruct l as [| []]; cbn; try lia; reflexivity.
    + lia.
Qed.

Lemma div_pow2_bounds (m : positive) :
  53 <= Z.pos (digits2_pos m) ->
  2 ^ 52 <= Z.pos m / 2 ^ (Z.pos (digits2_pos m) - 53) < 2 ^ 53.
Proof.
  intros Hd. pose proof (digits2_pos_bounds m) as [Blo Bhi].
  set (d := Z.pos (digits2_pos m)) in *.
  assert (Hp : 0 < 2 ^ (d - 53)) by (apply Z.pow_pos_nonneg; lia).
  assert (E1 : 2 ^ (d - 1) = 2 ^ (d - 53) * 2 ^ 52).
  { rewrite <- Z.pow_add_r by lia. f_equal. lia. }
  assert (E2 : 2 ^ d = 2 ^ (d - 53) * 2 ^ 53).
  { rewrite <- Z.pow_add_r by lia. f_equal. lia. }
  split.
  - apply Z.div_le_lower_bound; lia.
  - apply Z.div_lt_upper_bound; lia.
Qed.

Lemma binary_round_aux_at_least (mx : positive) (ex : Z) (lx : location) :
  53 <= Z.pos (digits2_pos mx) ->
  -1074 <= ex + Z.pos (digits2_pos mx) - 53 ->
  at_least (ex + Z.pos (digits2_pos mx) - 53)
    (binary_round_aux prec emax false (Z.pos mx) ex lx).
Proof.
  intros Hd Hn. unfold binary_round_aux.
  destruct (shr_fexp_m mx ex lx Hd Hn) as (mrs & -> & Hm & _).
  pose proof (div_pow2_bounds mx Hd) as Hb. rewrite <- Hm in Hb.
  set (e1 := ex + Z.pos (digits2_pos mx) - 53) in *.
  destruct (round_nearest_even_cases (shr_m mrs) (loc_of_shr_record mrs)) as [-> | ->].
  - destruct (shr_m mrs) as [| m1 |] eqn:Em1; try lia.
    assert (D1 : Z.pos (digits2_pos m1) = 53) by (apply digits2_pos_unique; lia).
    destruct (shr_fexp_m m1 e1 loc_Exact) as (mrs2 & -> & Hm2 & _); try lia.
    rewrite D1 in Hm2 |- *. rewrite Z.sub_diag, Z.pow_0_r, Z.div_1_r in Hm2.
    rewrite Hm2. replace (e1 + 53 - 53) with e1 by lia.
    destruct (e1 <=? emax - prec); [right | left; reflexivity].
    exists m1, e1. split; [reflexivity | lia].
  - destruct (shr_m mrs + 1) as [| m1 |] eqn:Em1; try lia.
    assert (Hc : Z.pos m1 < 2 ^ 53 \/ Z.pos m1 = 2 ^ 53) by lia.
    destruct Hc as [Hc | Hc].
    + assert (D1 : Z.pos (digits2_pos m1) = 53) by (apply digits2_pos_unique; lia).
      destruct (shr_fexp_m m1 e1 loc_Exact) as (mrs2 & -> & Hm2 & _); try lia.
      rewrite D1 in Hm2 |- *. rewrite Z.sub_diag, Z.pow_0_r, Z.div_1_r in Hm2.
      rewrite Hm2. replace (e1 + 53 - 53) with e1 by lia.
      destruct (e1 <=? emax - prec); [right | left; reflexivity].
      exists m1, e1. split; [reflexivity | lia].
    + assert (D1 : Z.pos (digits2_pos m1) = 54) by (apply digits2_pos_unique; lia).
      destruct (shr_fexp_m m1 e1 loc_Exact) as (mrs2 & -> & Hm2 & _); try lia.
      rewrite D1 in Hm2 |- *. rewrite Hc in Hm2.
      change (2 ^ 53 / 2 ^ (54 - 53)) with (Z.pos (Z.to_pos (2 ^ 52))) in Hm2.
      rewrite Hm2.
      destruct (e1 + 54 - 53 <=? emax - prec); [right | left; reflexivity].
      eexists _, _. split; [reflexivity |]. split; [| lia].
      vm_compute. split; [discriminate | reflexivity].
Qed.

Lemma at_least_weaken (lo lo' : Z) (f : float) :
  lo' <= lo -> at_least lo f -> at_least lo' f.
Proof.
  intros Hle [-> | (m & e & -> & Hm & He)]; [left; reflexivity | right].
  exists m, e. split; [reflexivity | lia].
Qed.

Lemma iter_xO_spec (m k : positive) :
  Z.pos (Pos.iter xO m k) = Z.pos m * 2 ^ Z.pos k /\
  Z.pos (digits2_pos (Pos.iter xO m k)) = Z.pos (digits2_pos m) + Z.pos k.
Proof.
  induction k as [| k [IH1 IH2]] using Pos.peano_ind.
  - cbn [Pos.iter digits2_pos]. split; lia.
  - rewrite Pos.iter_succ. cbn [digits2_pos].
    rewrite Pos2Z.inj_xO, !Pos2Z.inj_succ, IH1, IH2.
    rewrite Z.pow_succ_r by lia. split; lia.
Qed.

Lemma shl_align_spec (mx : positive) (ex ex' : Z) :
  exists m', shl_align mx ex ex' = (m', Z.min ex ex') /\
    Z.pos m' = Z.pos mx * 2 ^ (ex - Z.min ex ex') /\
    Z.pos (digits2_pos m') = Z.pos (digits2_pos mx) + (ex - Z.min ex ex').
Proof.
  unfold shl_align. destruct (ex' - ex) as [| d | d] eqn:Ed.
  - exists mx. replace (Z.min ex ex') with ex by lia.
    rewrite Z.sub_diag, Z.pow_0_r. repeat split; lia.
  - exists mx. replace (Z.min ex ex') with ex by lia.
    rewrite Z.sub_diag, Z.pow_0_r. repeat split; lia.
  - exists (Pos.iter xO mx d). replace (Z.min ex ex') with ex' by lia.
    replace (ex - ex') with (Z.pos d) by lia.
    destruct (iter_xO_spec mx d) as [H1 H2]. repeat split; assumption.
Qed.

Lemma digits2_pos_mono (a b : positive) :
  Z.pos a <= Z.pos b -> Z.pos (digits2_pos a) <= Z.pos (digits2_pos b).
Proof.
  intros Hab. pose proof (digits2_pos_bounds a) as [Alo _].
  pose proof (digits2_pos_bounds b) as [_ Bhi].
  destruct (Z.le_gt_cases (Z.pos (digits2_pos a)) (Z.pos (digits2_pos b))) as [H | H];
    [exact H |].
  assert (2 ^ Z.pos (digits2_pos b) <= 2 ^ (Z.pos (digits2_pos a) - 1))
    by (apply Z.pow_le_mono_r; lia).
  lia.
Qed.

(** [float(n)] of a positive [int]. *)
Lemma float_of_int_at_least (n : positive) :
  at_least (Z.pos (digits2_pos n) - 53) (float_of_int (Z.pos n)).
Proof.
  unfold float_of_int. cbn [binary_normalize]. unfold binary_round.
  destruct (shl_align_spec n 0 (fexp prec emax (Z.pos (digits2_pos n) + 0)))
    as (m' & -> & _ & Hd).
  rewrite Z.add_0_r in *. rewrite fexp_normal in * by lia.
  eapply at_least_weaken; [| apply binary_round_aux_at_least]; lia.
Qed.

Lemma fmul_at_least (lo : Z) (x : float) (my : positive) (ey : Z) :
  at_least lo x ->
  2 ^ 52 <= Z.pos my ->
  -1074 <= lo + ey + 52 ->
  at_least (lo + ey + 52) (fmul x (S754_finite false my ey)).
Proof.
  intros [-> | (m & e & -> & Hm & He)] Hy Hn; [left; reflexivity |].
  unfold fmul. cbn [SFmul xorb].
  assert (Hd : 105 <= Z.pos (digits2_pos (m * my))).
  { assert (Hle : Z.pos (Z.to_pos (2 ^ 104)) <= Z.pos (m * my)).
    { rewrite Pos2Z.inj_mul.
      change (Z.pos (Z.to_pos (2 ^ 104))) with (2 ^ 52 * 2 ^ 52). nia. }
    apply digits2_pos_mono in Hle. exact Hle. }
  eapply at_least_weaken; [| apply binary_round_aux_at_least]; lia.
Qed.

Lemma fadd_at_least (lo : Z) (mx : positive) (ex : Z) (y : float) :
  at_least lo y ->
  -1074 <= lo ->
  at_least lo (fadd (S754_finite false mx ex) y).
Proof.
  intros [-> | (m & e & -> & Hm & He)] Hn; [left; reflexivity |].
  unfold fadd. cbn [SFadd cond_Zopp].
  destruct (shl_align_spec mx ex (Z.min ex e)) as (m1 & -> & _ & _).
  destruct (shl_align_spec m e (Z.min ex e)) as (m2 & -> & _ & Hd2).
  cbn [fst].
  assert (D : Z.pos (digits2_pos m) = 53) by (apply digits2_pos_unique; lia).
  assert (Hd : Z.pos (digits2_pos m2) <= Z.pos (digits2_pos (m1 + m2)))
    by (apply digits2_pos_mono; lia).
  set (ez := Z.min ex e) in *.
  replace (Z.min e ez) with ez in * by lia.
  change (Z.pos m1 + Z.pos m2) with (Z.pos (m1 + m2)).
  cbn [binary_normalize]. unfold binary_round.
  destruct (shl_align_spec (m1 + m2) ez
              (fexp prec emax (Z.pos (digits2_pos (m1 + m2)) + ez)))
    as (m' & -> & _ & Hd').
  rewrite fexp_normal in * by lia.
  replace (Z.min ez (Z.pos (digits2_pos (m1 + m2)) + ez - 53)) with ez in * by lia.
  eapply at_least_weaken; [| apply binary_round_aux_at_least]; lia.
Qed.

Lemma dec_10_1 : dec 10 1 = S754_finite false 4503599627370496 (-52).
Proof. vm_compute. reflexivity. Qed.

Lemma dec_3_1 : dec 3 1 = S754_finite false 5404319552844595 (-54).
Proof. vm_compute. reflexivity. Qed.

Lemma dec_1_1 : dec 1 1 = S754_finite false 7205759403792794 (-56).
Proof. vm_compute. reflexivity. Qed.

Lemma py_round_one : py_round (dec 10 1) 2 = dec 10 1.
Proof. vm_compute. reflexivity. Qed.

Lemma compare_cont_not_lt (m c : positive) :
  Z.pos c <= Z.pos m -> Pos.compare_cont Eq m c <> Lt.
Proof.
  intros H Hc. apply (proj1 (Pos.compare_lt_iff m c)) in Hc. lia.
Qed.

Lemma flt_at_least (f : float) :
  at_least (-52) f -> flt f (dec 10 1) = false.
Proof.
  rewrite dec_10_1.
  intros [-> | (m & e & -> & Hm & He)]; [reflexivity |].
  unfold flt, SFltb. cbn [SFcompare].
  assert (Hm' : Z.pos 4503599627370496 <= Z.pos m).
  { destruct Hm as [Hm _]. revert Hm.
    replace (2 ^ 52) with 4503599627370496 by (vm_compute; reflexivity).
    exact (fun H => H). }
  apply compare_cont_not_lt in Hm'.
  destruct (Z.compare_spec e (-52)) as [Ec | Ec | Ec]; try reflexivity; [| lia].
  destruct (Pos.compare_cont Eq m 4503599627370496); try reflexivity.
  contradiction.
Qed.

Lemma keyword_weight_saturated (n : Z) :
  16 <= n -> keyword_weight n = dec 10 1.
Proof.
  intros Hn. destruct n as [| n |]; try lia.
  unfold keyword_weight.
  assert (H : at_least (-52)
                (fadd (dec 3 1) (fmul (float_of_int (Z.pos n)) (dec 1 1)))).
  { assert (D : 5 <= Z.pos (digits2_pos n)).
    { change 5 with (Z.pos (digits2_pos 16)). apply digits2_pos_mono. lia. }
    rewrite dec_3_1, dec_1_1.
    apply fadd_at_least; [| lia].
    apply (at_least_weaken (Z.pos (digits2_pos n) - 53 + -56 + 52)); [lia |].
    apply fmul_at_least; [apply float_of_int_at_least | | lia].
    vm_compute. discriminate. }
  unfold py_min. rewrite (flt_at_least _ H). apply py_round_one.
Qed.

Lemma keyword_weight_spec (n : Z) :
  1 <= n -> keyword_weight n = dec (Z.min 10 (3 + n)) 1.
Proof.
  intros Hn. destruct (Z.le_gt_cases 16 n) as [H | H].
  - rewrite keyword_weight_saturated by lia.
    replace (Z.min 10 (3 + n)) with 10 by lia. reflexivity.
  - assert (Hc : n = 1 \/ n = 2 \/ n = 3 \/ n = 4 \/ n = 5 \/ n = 6 \/ n = 7 \/
                 n = 8 \/ n = 9 \/ n = 10 \/ n = 11 \/ n = 12 \/ n = 13 \/
                 n = 14 \/ n = 15) by lia.
    repeat (destruct Hc as [-> | Hc]; [vm_compute; reflexivity |]).
    subst n. vm_compute. reflexivity.
Qed.

Lemma shr_1_exact (x : Z) : 0 <= x -> shr_1 (lossless (2 * x)) = lossless x.
Proof. destruct x as [| p | p]; intros H; try lia; reflexivity. Qed.

Lemma iter_shr_exact (p : positive) (m : Z) :
  0 <= m -> SpecFloat.iter_pos shr_1 p (lossless (m * 2 ^ Z.pos p)) = lossless m.
Proof.
  revert m. induction p as [p IH | p IH |]; intros m Hm;
    cbn [SpecFloat.iter_pos].
  - rewrite pow2_xI.
    replace (m * (2 * (2 ^ Z.pos p * 2 ^ Z.pos p)))
      with (2 * (m * 2 ^ Z.pos p * 2 ^ Z.pos p)) by lia.
    rewrite shr_1_exact by (apply Z.mul_nonneg_nonneg; [apply Z.mul_nonneg_nonneg |]; lia).
    rewrite IH by (apply Z.mul_nonneg_nonneg; lia).
    apply IH; lia.
  - rewrite pow2_xO.
    replace (m * (2 ^ Z.pos p * 2 ^ Z.pos p))
      with (m * 2 ^ Z.pos p * 2 ^ Z.pos p) by lia.
    rewrite IH by (apply Z.mul_nonneg_nonneg; lia).
    apply IH; lia.
  - replace (m * 2 ^ 1) with (2 * m) by lia. apply shr_1_exact; lia.
Qed.

Lemma digits2_pos_scaled (M m : positive) (j : Z) :
  0 <= j -> Z.pos M = Z.pos m * 2 ^ j ->
  Z.pos (digits2_pos M) = Z.pos (digits2_pos m) + j.
Proof.
  intros Hj HM. pose proof (digits2_pos_bounds m) as [Lo Hi].
  apply digits2_pos_unique. rewrite HM.
  replace (Z.pos (digits2_pos m) + j - 1) with (Z.pos (digits2_pos m) - 1 + j) by lia.
  rewrite !Z.pow_add_r by lia.
  assert (0 < 2 ^ j) by (apply Z.pow_pos_nonneg; lia).
  split; [apply Z.mul_le_mono_nonneg_r | apply Z.mul_lt_mono_pos_r]; lia.
Qed.

(** Rounding a mantissa that is a canonical one shifted left is exact. *)
Lemma binary_round_aux_exact (s : bool) (M m : positive) (E j : Z) :
  0 <= j -> Z.pos M = Z.pos m * 2 ^ j ->
  Z.pos (digits2_pos m) = 53 ->
  -1074 <= E + j <= 971 ->
  binary_round_aux prec emax s (Z.pos M) E loc_Exact = S754_finite s m (E + j).
Proof.
  intros Hj HM Hd Hr.
  pose proof (digits2_pos_scaled M m j Hj HM) as HdM.
  unfold binary_round_aux, shr_fexp. cbn [Zdigits2 shr_record_of_loc].
  rewrite fexp_normal by lia. rewrite HdM, Hd.
  replace (53 + j + E - 53 - E) with j by lia.
  assert (Hstep : shr (lossless (Z.pos M)) E j = (lossless (Z.pos m), E + j)).
  { destruct j as [| p | p]; try lia; cbn [shr].
    - rewrite Z.pow_0_r, Z.mul_1_r in HM. rewrite HM. f_equal. lia.
    - rewrite HM, iter_shr_exact by lia. reflexivity. }
  change {| shr_m := Z.pos M; shr_r := false; shr_s := false |} with (lossless (Z.pos M)).
  rewrite Hstep. cbn [lossless shr_m loc_of_shr_record round_nearest_even Zdigits2].
  rewrite fexp_normal by lia. rewrite Hd.
  replace (53 + (E + j) - 53 - (E + j)) with 0 by lia. cbn [shr shr_m].
  unfold emax, prec. destruct (Z.leb_spec (E + j) (1024 - 53)); [reflexivity | lia].
Qed.

Lemma binary_round_down (s : bool) (M m : positive) (E j : Z) :
  0 <= j -> Z.pos M = Z.pos m * 2 ^ j ->
  Z.pos (digits2_pos m) = 53 ->
  -1074 <= E + j <= 971 ->
  binary_round prec emax s M E = S754_finite s m (E + j).
Proof.
  intros Hj HM Hd Hr.
  pose proof (digits2_pos_scaled M m j Hj HM) as HdM.
  unfold binary_round. rewrite fexp_normal by lia.
  unfold shl_align. rewrite HdM, Hd.
  replace (53 + j + E - 53 - E) with j by lia.
  destruct j as [| p | p]; try lia; apply binary_round_aux_exact; assumption.
Qed.

Lemma binary_round_up (s : bool) (M m : positive) (E j : Z) :
  0 <= j -> Z.pos m = Z.pos M * 2 ^ j ->
  Z.pos (digits2_pos m) = 53 ->
  -1074 <= E - j <= 971 ->
  binary_round prec emax s M E = S754_finite s m (E - j).
Proof.
  intros Hj Hm Hd Hr.
  pose proof (digits2_pos_scaled m M j Hj Hm) as HdM.
  unfold binary_round. rewrite fexp_normal by lia.
  destruct (shl_align_spec M E (Z.pos (digits2_pos M) + E - 53)) as (m' & -> & Hm' & _).
  replace (Z.min E (Z.pos (digits2_pos M) + E - 53)) with (E - j) in * by lia.
  replace (E - (E - j)) with j in Hm' by lia.
  assert (m' = m) as -> by lia.
  replace (E - j) with (E - j + 0) at 2 by lia.
  apply binary_round_aux_exact; try lia.
Qed.

Lemma pos_scaled_ex (p : positive) (j : Z) :
  0 <= j -> exists q, Z.pos q = Z.pos p * 2 ^ j.
Proof.
  intros Hj. assert (0 < Z.pos p * 2 ^ j).
  { apply Z.mul_pos_pos; [lia | apply Z.pow_pos_nonneg; lia]. }
  exists (Z.to_pos (Z.pos p * 2 ^ j)). rewrite Z2Pos.id; lia.
Qed.

Lemma digits2_pos_le_53 (p : positive) :
  Z.pos p < 2 ^ 53 -> Z.pos (digits2_pos p) <= 53.
Proof.
  intros Hp. pose proof (digits2_pos_bounds p) as [Lo _].
  destruct (Z.le_gt_cases (Z.pos (digits2_pos p)) 53) as [H | H]; [exact H |].
  assert (2 ^ 53 <= 2 ^ (Z.pos (digits2_pos p) - 1)) by (apply Z.pow_le_mono_r; lia).
  lia.
Qed.

(** The canonical form of a small positive mantissa at exponent [e]. *)
Lemma binary_round_canonical (s : bool) (p : positive) (e : Z) :
  Z.pos p < 2 ^ 53 ->
  -1074 <= e + Z.pos (digits2_pos p) - 53 <= 971 ->
  exists m, binary_round prec emax s p e =
              S754_finite s m (e + Z.pos (digits2_pos p) - 53) /\
            Z.pos m = Z.pos p * 2 ^ (53 - Z.pos (digits2_pos p)) /\
            Z.pos (digits2_pos m) = 53.
Proof.
  intros Hp Hr. pose proof (digits2_pos_le_53 p Hp) as Hd.
  destruct (pos_scaled_ex p (53 - Z.pos (digits2_pos p))) as [m Hm]; [lia |].
  assert (Hdm : Z.pos (digits2_pos m) = 53).
  { rewrite (digits2_pos_scaled m p (53 - Z.pos (digits2_pos p))); lia. }
  exists m. split; [| split; assumption].
  replace (e + Z.pos (digits2_pos p) - 53) with (e - (53 - Z.pos (digits2_pos p))) by lia.
  apply binary_round_up; try assumption; lia.
Qed.

(** Rounding depends on the value only: a mantissa shifted left by [j] at
    an exponent lowered by [j] rounds to the same float. *)
Lemma binary_round_scale (s : bool) (p q : positive) (e j : Z) :
  0 <= j -> Z.pos q = Z.pos p * 2 ^ j ->
  Z.pos p < 2 ^ 53 ->
  -1074 <= e + Z.pos (digits2_pos p) - 53 <= 971 ->
  binary_round prec emax s q (e - j) = binary_round prec emax s p e.
Proof.
  intros Hj Hq Hp Hr.
  destruct (binary_round_canonical s p e Hp Hr) as (m & -> & Hm & Hdm).
  pose proof (digits2_pos_le_53 p Hp) as Hd.
  set (d := Z.pos (digits2_pos p)) in *.
  destruct (Z.le_gt_cases j (53 - d)) as [Hc | Hc].
  - replace (e + d - 53) with (e - j - (53 - d - j)) by lia.
    apply binary_round_up; try assumption; try lia.
    rewrite Hm, Hq, <- Z.mul_assoc, <- Z.pow_add_r by lia.
    do 2 f_equal. lia.
  - replace (e + d - 53) with (e - j + (j - (53 - d))) by lia.
    apply binary_round_down; try assumption; try lia.
    rewrite Hm, Hq, <- Z.mul_assoc, <- Z.pow_add_r by lia.
    do 2 f_equal. lia.
Qed.

Lemma binary_normalize_scale (k j e : Z) :
  0 <= j -> Z.abs k < 2 ^ 53 -> -1021 <= e <= 918 ->
  binary_normalize prec emax (k * 2 ^ j) (e - j) false =
  binary_normalize prec emax k e false.
Proof.
  intros Hj Hk He.
  assert (H2 : 0 < 2 ^ j) by (apply Z.pow_pos_nonneg; lia).
  destruct k as [| p | p].
  - reflexivity.
  - destruct (pos_scaled_ex p j Hj) as [q Hq]. rewrite <- Hq. cbn [binary_normalize].
    pose proof (digits2_pos_le_53 p ltac:(lia)).
    apply binary_round_scale; try assumption; lia.
  - destruct (pos_scaled_ex p j Hj) as [q Hq].
    replace (Z.neg p * 2 ^ j) with (Z.neg q) by lia. cbn [binary_normalize].
    pose proof (digits2_pos_le_53 p ltac:(lia)).
    apply binary_round_scale; try assumption; lia.
Qed.

(** [float(z) = z] exactly on the integers below [2^52]. *)
Lemma float_of_int_half (z : Z) :
  Z.abs z < 2 ^ 52 -> float_of_int z = of_halves (2 * z).
Proof.
  intros Hz. unfold float_of_int, of_halves.
  replace (2 * z) with (z * 2 ^ 1) by lia.
  change (-1) with (0 - 1).
  symmetry. apply binary_normalize_scale; lia.
Qed.

(** How a nonzero [of_halves k] is stored. *)
Lemma half_finite (k : Z) :
  k <> 0 -> Z.abs k < 2 ^ 53 ->
  exists m e, of_halves k = S754_finite (k <? 0) m e /\
              -54 <= e <= -1 /\ Z.pos m = Z.abs k * 2 ^ (-1 - e).
Proof.
  intros Hk Hb. unfold of_halves.
  destruct k as [| p | p]; [congruence | |]; cbn [binary_normalize Z.ltb Z.compare];
    pose proof (digits2_pos_le_53 p ltac:(lia)) as Hd;
    pose proof (Pos2Z.is_pos (digits2_pos p)) as Hd0.
  - destruct (binary_round_canonical false p (-1)) as (m & -> & Hm & _); try lia.
    exists m, (-1 + Z.pos (digits2_pos p) - 53). split; [reflexivity |].
    split; [lia |]. rewrite Hm. cbn [Z.abs]. do 2 f_equal. lia.
  - destruct (binary_round_canonical true p (-1)) as (m & -> & Hm & _); try lia.
    exists m, (-1 + Z.pos (digits2_pos p) - 53). split; [reflexivity |].
    split; [lia |]. rewrite Hm. cbn [Z.abs]. do 2 f_equal. lia.
Qed.

Lemma cond_Zopp_half (k : Z) : cond_Zopp (k <? 0) (Z.abs k) = k.
Proof. unfold cond_Zopp. destruct (Z.ltb_spec k 0); lia. Qed.

(** The signed mantissa of a nonzero [of_halves k], aligned to exponent [ez]. *)
Lemma half_aligned (k : Z) (m : positive) (e ez : Z) :
  ez <= e <= -1 -> Z.pos m = Z.abs k * 2 ^ (-1 - e) ->
  cond_Zopp (k <? 0) (Z.pos (fst (shl_align m e ez))) = k * 2 ^ (-1 - ez).
Proof.
  intros He Hm.
  destruct (shl_align_spec m e ez) as (m' & -> & Hm' & _). cbn [fst].
  replace (Z.min e ez) with ez in Hm' by lia.
  rewrite Hm', Hm, <- Z.mul_assoc, <- Z.pow_add_r by lia.
  replace (-1 - e + (e - ez)) with (-1 - ez) by lia.
  unfold cond_Zopp.
  destruct (Z.ltb_spec k 0); [rewrite Z.abs_neq by lia | rewrite Z.abs_eq by lia];
    ring.
Qed.

Lemma half_0 : of_halves 0 = S754_zero false.
Proof. reflexivity. Qed.

(** Sums and differences of half-integers are exact below [2^53]. *)
Lemma fadd_half (a b : Z) :
  Z.abs a < 2 ^ 53 -> Z.abs b < 2 ^ 53 -> Z.abs (a + b) < 2 ^ 53 ->
  fadd (of_halves a) (of_halves b) = of_halves (a + b).
Proof.
  intros Ha Hb Hab.
  destruct (Z.eq_dec a 0) as [-> | Na].
  { rewrite half_0, Z.add_0_l. unfold fadd.
    destruct (Z.eq_dec b 0) as [-> | Nb]; [reflexivity |].
    destruct (half_finite b Nb Hb) as (m & e & -> & _). reflexivity. }
  destruct (Z.eq_dec b 0) as [-> | Nb].
  { rewrite half_0, Z.add_0_r. unfold fadd.
    destruct (half_finite a Na Ha) as (m & e & -> & _). reflexivity. }
  destruct (half_finite a Na Ha) as (ma & ea & -> & Hea & Hma).
  destruct (half_finite b Nb Hb) as (mb & eb & -> & Heb & Hmb).
  unfold fadd. cbn [SFadd].
  rewrite (half_aligned a ma ea (Z.min ea eb)) by (try assumption; lia).
  rewrite (half_aligned b mb eb (Z.min ea eb)) by (try assumption; lia).
  rewrite <- Z.mul_add_distr_r.
  replace (Z.min ea eb) with (-1 - (-1 - Z.min ea eb)) at 2 by lia.
  apply binary_normalize_scale; lia.
Qed.

Lemma binary_round_opp (p : positive) (e : Z) :
  Z.pos p < 2 ^ 53 ->
  -1074 <= e + Z.pos (digits2_pos p) - 53 <= 971 ->
  binary_round prec emax true p e = SFopp (binary_round prec emax false p e).
Proof.
  intros Hp Hr.
  destruct (binary_round_canonical true p e Hp Hr) as (m1 & E1 & Hm1 & _).
  destruct (binary_round_canonical false p e Hp Hr) as (m2 & E2 & Hm2 & _).
  rewrite E1, E2. assert (m1 = m2) as -> by lia. reflexivity.
Qed.

Lemma half_opp (k : Z) :
  k <> 0 -> Z.abs k < 2 ^ 53 -> of_halves (- k) = SFopp (of_halves k).
Proof.
  intros Nk Hk. destruct k as [| p | p]; [congruence | |];
    pose proof (digits2_pos_le_53 p ltac:(lia)) as Hd;
    pose proof (Pos2Z.is_pos (digits2_pos p)) as Hd0.
  - change (binary_round prec emax true p (-1) =
            SFopp (binary_round prec emax false p (-1))).
    apply binary_round_opp; lia.
  - change (binary_round prec emax false p (-1) =
            SFopp (binary_round prec emax true p (-1))).
    rewrite binary_round_opp by lia.
    destruct (binary_round prec emax false p (-1)) as [s | s | | s m e];
      cbn [SFopp]; rewrite ?Bool.negb_involutive; reflexivity.
Qed.

Lemma fsub_half (a b : Z) :
  Z.abs a < 2 ^ 53 -> Z.abs b < 2 ^ 53 -> Z.abs (a - b) < 2 ^ 53 ->
  fsub (of_halves a) (of_halves b) = of_halves (a - b).
Proof.
  intros Ha Hb Hab.
  destruct (Z.eq_dec b 0) as [-> | Nb].
  { rewrite half_0, Z.sub_0_r. unfold fsub.
    destruct (Z.eq_dec a 0) as [-> | Na]; [reflexivity |].
    destruct (half_finite a Na Ha) as (m & e & -> & _). reflexivity. }
  destruct (Z.eq_dec a 0) as [-> | Na].
  { rewrite Z.sub_0_l, half_opp, half_0 by assumption.
    destruct (half_finite b Nb Hb) as (mb & eb & -> & _). reflexivity. }
  destruct (half_finite a Na Ha) as (ma & ea & -> & Hea & Hma).
  destruct (half_finite b Nb Hb) as (mb & eb & -> & Heb & Hmb).
  unfold fsub. cbn [SFsub].
  rewrite (half_aligned a ma ea (Z.min ea eb)) by (try assumption; lia).
  rewrite (half_aligned b mb eb (Z.min ea eb)) by (try assumption; lia).
  rewrite <- Z.mul_sub_distr_r.
  replace (Z.min ea eb) with (-1 - (-1 - Z.min ea eb)) at 2 by lia.
  apply binary_normalize_scale; lia.
Qed.

(** [int(k / 2)] truncates toward zero. *)
Lemma py_int_half (k : Z) :
  Z.abs k < 2 ^ 53 -> py_int (of_halves k) = Some (Z.quot k 2).
Proof.
  intros Hk. destruct (Z.eq_dec k 0) as [-> | Nk]; [reflexivity |].
  destruct (half_finite k Nk Hk) as (m & e & -> & He & Hm).
  cbn [py_int]. f_equal.
  assert (H2 : 0 < 2 ^ (-1 - e)) by (apply Z.pow_pos_nonneg; lia).
  assert (Hdiv : Z.shiftl (Z.pos m) e = Z.abs k / 2).
  { replace e with (- (1 + (-1 - e))) at 1 by lia.
    rewrite Z.shiftl_opp_r, Z.shiftr_div_pow2 by lia.
    rewrite Hm, Z.pow_add_r by lia. change (2 ^ 1) with 2.
    apply Z.div_mul_cancel_r; lia. }
  rewrite Hdiv. unfold cond_Zopp. destruct (Z.ltb_spec k 0).
  - rewrite Z.abs_neq by lia. rewrite <- (Z.opp_involutive k) at 2.
    rewrite Z.quot_opp_l by lia. rewrite Z.quot_div_nonneg by lia. reflexivity.
  - rewrite Z.abs_eq by lia. rewrite Z.quot_div_nonneg by lia. reflexivity.
Qed.

(** ** Score aggregation *)

(** * Score aggregation *)

Lemma penalty_lookup (severity : string) :
  default 5 (severity_weights !! severity) = penalty severity.
Proof.
  unfold severity_weights, penalty.
  destruct (String.eqb_spec severity "low") as [-> | Hl]; [reflexivity |].
  rewrite lookup_insert_ne by congruence.
  destruct (String.eqb_spec severity "medium") as [-> | Hm]; [reflexivity |].
  rewrite lookup_insert_ne by congruence.
  destruct (String.eqb_spec severity "high") as [-> | Hh]; [reflexivity |].
  rewrite lookup_singleton_ne by congruence. reflexivity.
Qed.

Lemma penalty_range (severity : string) : 5 <= penalty severity <= 15.
Proof.
  unfold penalty.
  repeat match goal with |- context [String.eqb ?a ?b] => destruct (String.eqb a b) end;
    lia.
Qed.

Lemma flags_loop (red_flags : list RedFlag) (z : Z) :
  fold_left
    (fun base_score flag =>
       num_sub base_score
         (Int (default 5 (severity_weights !! rf_severity flag))))
    red_flags (Int z) = Int (z - penalties red_flags).
Proof.
  revert z. induction red_flags as [| flag red_flags IH]; intros z; cbn.
  - f_equal. lia.
  - rewrite IH, penalty_lookup. f_equal. unfold penalties. cbn. lia.
Qed.

Lemma penalties_range (red_flags : list RedFlag) :
  0 <= penalties red_flags <= 15 * Z.of_nat (length red_flags).
Proof.
  induction red_flags as [| flag red_flags IH]; unfold penalties in *; cbn [map foldr length].
  - lia.
  - pose proof (penalty_range (rf_severity flag)). lia.
Qed.

Lemma penalties_app (l1 l2 : list RedFlag) :
  penalties (l1 ++ l2) = penalties l1 + penalties l2.
Proof.
  unfold penalties. induction l1 as [| f l1 IH]; cbn; [reflexivity | lia].
Qed.

Lemma fmul_tenths (n : Z) :
  4 <= n <= 10 -> fmul (dec n 1) (float_of_int 5) = of_halves n.
Proof.
  intros Hn.
  assert (Hc : n = 4 \/ n = 5 \/ n = 6 \/ n = 7 \/ n = 8 \/ n = 9 \/ n = 10) by lia.
  repeat (destruct Hc as [-> | Hc]; [vm_compute; reflexivity |]).
  subst n. vm_compute. reflexivity.
Qed.

Lemma represents_to_float (x : number) (k : Z) :
  represents x k -> Z.abs k < 2 ^ 53 -> to_float x = of_halves k.
Proof.
  intros [(z & -> & ->) | ->] Hk; [| reflexivity].
  cbn [to_float]. apply float_of_int_half. lia.
Qed.

Lemma keyword_step_represents (x : number) (k n : Z) (keyword : Keyword) :
  represents x k -> tenths_of keyword n -> Z.abs k + 10 < 2 ^ 53 ->
  represents (keyword_step x keyword) (k + signed keyword n).
Proof.
  intros Hx [Hn Hw] Hk. right.
  pose proof (represents_to_float x k Hx ltac:(lia)) as Hf.
  unfold keyword_step, signed.
  destruct (String.eqb (kw_impact keyword) "positive").
  - assert (E : num_add x (num_mul (Float (kw_weight keyword)) (Int 5)) =
                Float (fadd (to_float x)
                         (fmul (kw_weight keyword) (float_of_int 5)))).
    { destruct x; reflexivity. }
    rewrite E, Hf, Hw, fmul_tenths by assumption.
    f_equal. apply fadd_half; lia.
  - assert (E : num_sub x (num_mul (Float (kw_weight keyword)) (Int 5)) =
                Float (fsub (to_float x)
                         (fmul (kw_weight keyword) (float_of_int 5)))).
    { destruct x; reflexivity. }
    rewrite E, Hf, Hw, fmul_tenths by assumption.
    f_equal. rewrite Z.add_opp_r. apply fsub_half; lia.
Qed.

Lemma signed_range (keyword : Keyword) (n : Z) :
  4 <= n <= 10 -> Z.abs (signed keyword n) <= 10.
Proof. unfold signed. destruct (String.eqb _ _); lia. Qed.

Lemma total_range (keywords : list Keyword) (ns : list Z) :
  Forall2 tenths_of keywords ns ->
  Z.abs (keyword_total keywords ns) <= 10 * Z.of_nat (length keywords).
Proof.
  induction 1 as [| keyword n keywords ns [Hn _] _ IH]; cbn [keyword_total length].
  - lia.
  - pose proof (signed_range keyword n Hn). lia.
Qed.

Lemma keyword_loop_represents (keywords : list Keyword) (ns : list Z)
    (x : number) (k : Z) :
  Forall2 tenths_of keywords ns -> represents x k ->
  Z.abs k + 10 * Z.of_nat (length keywords) < 2 ^ 53 ->
  represents (fold_left keyword_step keywords x) (k + keyword_total keywords ns).
Proof.
  intros HF. revert x k.
  induction HF as [| keyword n keywords ns Hkn _ IH]; intros x k Hx Hk;
    cbn [fold_left keyword_total length] in *.
  - rewrite Z.add_0_r. exact Hx.
  - replace (k + (signed keyword n + keyword_total keywords ns))
      with (k + signed keyword n + keyword_total keywords ns) by lia.
    pose proof (signed_range keyword n (proj1 Hkn)).
    apply IH; [apply keyword_step_represents; [assumption .. | lia] | lia].
Qed.

Lemma num_int_represents (x : number) (k : Z) :
  represents x k -> Z.abs k < 2 ^ 53 -> num_int x = Some (Z.quot k 2).
Proof.
  intros [(z & -> & ->) | ->] Hk; cbn [num_int].
  - f_equal. rewrite Z.mul_comm, Z.quot_mul; lia.
  - apply py_int_half. exact Hk.
Qed.

Lemma _calculate_score_exact (red_flags : list RedFlag)
    (positive_indicators : list PositiveIndicator)
    (keywords : list Keyword) (ns : list Z) :
  Forall2 tenths_of keywords ns ->
  small (length red_flags) -> small (length positive_indicators) ->
  small (length keywords) ->
  _calculate_score red_flags positive_indicators keywords =
  Some (clamp (Z.quot (doubled red_flags positive_indicators keywords ns) 2)).
Proof.
  unfold small. intros HF Hr Hp Hk. unfold _calculate_score.
  rewrite flags_loop. cbn [num_add].
  change (fold_left _ keywords ?x) with (fold_left keyword_step keywords x).
  pose proof (penalties_range red_flags) as Hpen.
  pose proof (total_range keywords ns HF) as Htot.
  assert (P40 : 2 ^ 53 = 8192 * 2 ^ 40) by reflexivity.
  set (b := 50 - penalties red_flags + Z.of_nat (length positive_indicators) * 8) in *.
  assert (Hrep : represents (fold_left keyword_step keywords (Int b))
                   (2 * b + keyword_total keywords ns)).
  { apply keyword_loop_represents; [assumption | left; eauto |]. subst b. lia. }
  rewrite (num_int_represents _ _ Hrep) by (subst b; lia).
  cbn. unfold clamp, doubled. subst b. do 4 f_equal. lia.
Qed.

Lemma fold_left_ext_Forall {A B : Type} (f g : A -> B -> A) (P : B -> Prop)
    (l : list B) (a : A) :
  (forall a b, P b -> f a b = g a b) -> Forall P l ->
  fold_left f l a = fold_left g l a.
Proof.
  intros Hfg HP. revert a.
  induction HP as [| b l Hb _ IH]; intros a; cbn; [reflexivity |].
  rewrite Hfg by assumption. apply IH.
Qed.

Lemma Forall_exists_Forall2 {A B : Type} (R : A -> B -> Prop) (l : list A) :
  Forall (fun a => exists b, R a b) l -> exists l', Forall2 R l l'.
Proof.
  induction 1 as [| a l [b Hb] _ [l' IH]].
  - exists []. constructor.
  - exists (b :: l'). constructor; assumption.
Qed.

(** C1.  On keywords whose impact is "positive" or "negative",
    [_calculate_score] is the aggregate of the specification: start at 50,
    subtract 5, 10 or 15 per flag of low, medium or high severity (5 for any
    other severity), add 8 per indicator, add [weight * 5] per positive
    keyword and subtract it per negative keyword, truncate, then clamp to
    [0, 100]. *)
Theorem C1_score_aggregation (red_flags : list RedFlag)
    (positive_indicators : list PositiveIndicator) (keywords : list Keyword) :
  Forall (fun keyword => kw_impact keyword = "positive"%string \/
                         kw_impact keyword = "negative"%string) keywords ->
  _calculate_score red_flags positive_indicators keywords =
  spec_score red_flags positive_indicators keywords.
Proof.
  intros Himpact. unfold _calculate_score, spec_score.
  rewrite flags_loop. cbn [num_add]. unfold penalties, clamp.
  replace (50 - foldr Z.add 0 (map (fun flag => penalty (rf_severity flag)) red_flags)
           + Z.of_nat (length positive_indicators) * 8)
    with (50 - foldr Z.add 0 (map (fun flag => penalty (rf_severity flag)) red_flags)
          + 8 * Z.of_nat (length positive_indicators)) by lia.
  erewrite (fold_left_ext_Forall _ spec_contribution); [reflexivity | | exact Himpact].
  intros acc keyword [H | H]; unfold spec_contribution; rewrite H; reflexivity.
Qed.

(** The hypothesis of C1 holds of a list with one keyword of each impact. *)
Lemma C1_score_aggregation_witness :
  Forall (fun keyword => kw_impact keyword = "positive"%string \/
                         kw_impact keyword = "negative"%string)
    [sample_keyword "positive" 8; sample_keyword "negative" 4] /\
  _calculate_score [sample_flag "high"; sample_flag "odd"] [sample_indicator]
    [sample_keyword "positive" 8; sample_keyword "negative" 4] =
  spec_score [sample_flag "high"; sample_flag "odd"] [sample_indicator]
    [sample_keyword "positive" 8; sample_keyword "negative" 4].
Proof.
  assert (H : Forall (fun keyword => kw_impact keyword = "positive"%string \/
                                     kw_impact keyword = "negative"%string)
                [sample_keyword "positive" 8; sample_keyword "negative" 4]).
  { constructor; [left; reflexivity |].
    constructor; [right; reflexivity | constructor]. }
  split; [exact H | apply (C1_score_aggregation _ _ _ H)].
Defined.

Lemma clamp_range (z : Z) : 0 <= clamp z <= 100.
Proof. unfold clamp. lia. Qed.

Lemma quot2_spec (k : Z) :
  exists r, k = 2 * Z.quot k 2 + r /\
            (0 <= k -> 0 <= r <= 1) /\ (k <= 0 -> -1 <= r <= 0).
Proof.
  exists (Z.rem k 2). split; [apply Z.quot_rem' |]. split; intros Hk.
  - pose proof (Z.rem_bound_pos k 2 Hk ltac:(lia)). lia.
  - pose proof (Z.rem_bound_pos_neg k 2 ltac:(lia) Hk). lia.
Qed.

Lemma clamp_quot_step (k p : Z) :
  5 <= p <= 15 ->
  clamp (Z.quot k 2) - p <= clamp (Z.quot (k - 2 * p) 2) <= clamp (Z.quot k 2) /\
  (clamp (Z.quot k 2) < 100 -> 0 < clamp (Z.quot (k - 2 * p) 2) ->
   clamp (Z.quot (k - 2 * p) 2) = clamp (Z.quot k 2) - p).
Proof.
  intros Hp. unfold clamp.
  destruct (quot2_spec k) as (r & E & Hr1 & Hr2).
  destruct (quot2_spec (k - 2 * p)) as (r' & E' & Hr1' & Hr2').
  lia.
Qed.

(** C7, amended.  With the weights the extractor produces and lists of at
    most [2^40] entries, appending a flag never raises the score, lowers it
    by at most the penalty of the flag, and by exactly the penalty when the
    score before is below 100 and the score after is above 0. *)
Theorem C7_additional_red_flag (red_flags : list RedFlag)
    (positive_indicators : list PositiveIndicator) (keywords : list Keyword)
    (flag : RedFlag) :
  Forall (fun keyword => exists n, tenths_of keyword n) keywords ->
  small (S (length red_flags)) -> small (length positive_indicators) ->
  small (length keywords) ->
  exists s s',
    _calculate_score red_flags positive_indicators keywords = Some s /\
    _calculate_score (red_flags ++ [flag]) positive_indicators keywords = Some s' /\
    s - penalty (rf_severity flag) <= s' <= s /\
    (s < 100 -> 0 < s' -> s' = s - penalty (rf_severity flag)).
Proof.
  intros Hw Hr Hp Hk.
  destruct (Forall_exists_Forall2 _ _ Hw) as [ns Hns].
  assert (Hr' : small (length red_flags)) by (unfold small in *; lia).
  assert (Hr'' : small (length (red_flags ++ [flag]))).
  { rewrite length_app. cbn [length]. unfold small in *. lia. }
  rewrite (_calculate_score_exact _ _ _ ns Hns Hr' Hp Hk).
  rewrite (_calculate_score_exact _ _ _ ns Hns Hr'' Hp Hk).
  eexists _, _. split; [reflexivity |]. split; [reflexivity |].
  unfold doubled. rewrite penalties_app.
  assert (E : penalties [flag] = penalty (rf_severity flag)) by (unfold penalties; cbn; lia).
  rewrite E.
  pose proof (penalty_range (rf_severity flag)) as Hpen.
  set (k := 2 * (50 - penalties red_flags + 8 * Z.of_nat (length positive_indicators))
            + keyword_total keywords ns).
  replace (2 * (50 - (penalties red_flags + penalty (rf_severity flag))
                + 8 * Z.of_nat (length positive_indicators))
           + keyword_total keywords ns)
    with (k - 2 * penalty (rf_severity flag)) by (subst k; lia).
  apply clamp_quot_step. exact Hpen.
Qed.

(** * Pattern detectors *)

Section Detectors.
Context (db : unicode_db) (uuid4 : nat -> string).

Lemma red_flags_loop (text : pystr) (rules : list red_flag_pattern)
    (acc : list RedFlag) (k : nat) :
  fold_left
    (fun st pattern_info =>
       let '(red_flags, k) := st in
       if re_search db true (fp_pattern pattern_info) text
       then
         let '(id, k) := _generate_id uuid4 k in
         (red_flags ++
            [{| rf_id := "rf-" +:+ id;
                rf_description := fp_description pattern_info;
                rf_severity := fp_severity pattern_info |}], k)
       else (red_flags, k))
    rules (acc, k) =
  (acc ++ flags_of uuid4
            (filter (fun rule => re_search db true (fp_pattern rule) text = true) rules) k,
   (k + length (filter (fun rule => re_search db true (fp_pattern rule) text = true) rules))%nat).
Proof.
  revert acc k. induction rules as [| rule rules IH]; intros acc k; cbn [fold_left].
  - cbn. rewrite app_nil_r. f_equal. lia.
  - rewrite filter_cons.
    destruct (re_search db true (fp_pattern rule) text) eqn:E.
    + rewrite decide_True by reflexivity. cbn [_generate_id]. rewrite IH.
      cbn [flags_of length _generate_id fst]. rewrite <- app_assoc. cbn [app].
      f_equal. lia.
    + rewrite decide_False by discriminate. apply IH.
Qed.

Lemma _find_red_flags_spec (text : pystr) (k : nat) :
  _find_red_flags db uuid4 text k =
  (flags_of uuid4 (matching_flag_rules db text) k,
   (k + length (matching_flag_rules db text))%nat).
Proof. unfold _find_red_flags. cbv zeta. apply (red_flags_loop text _ [] k). Qed.

Lemma indicators_loop (text : pystr) (rules : list indicator_pattern)
    (acc : list PositiveIndicator) (k : nat) :
  fold_left
    (fun st pattern_info =>
       let '(indicators, k) := st in
       if re_search db true (ip_pattern pattern_info) text
       then
         let '(id, k) := _generate_id uuid4 k in
         (indicators ++
            [{| pi_id := "pi-" +:+ id;
                pi_description := ip_description pattern_info;
                pi_icon := ip_icon pattern_info |}], k)
       else (indicators, k))
    rules (acc, k) =
  (acc ++ indicators_of uuid4
            (filter (fun rule => re_search db true (ip_pattern rule) text = true) rules) k,
   (k + length (filter (fun rule => re_search db true (ip_pattern rule) text = true) rules))%nat).
Proof.
  revert acc k. induction rules as [| rule rules IH]; intros acc k; cbn [fold_left].
  - cbn. rewrite app_nil_r. f_equal. lia.
  - rewrite filter_cons.
    destruct (re_search db true (ip_pattern rule) text) eqn:E.
    + rewrite decide_True by reflexivity. cbn [_generate_id]. rewrite IH.
      cbn [indicators_of length _generate_id fst]. rewrite <- app_assoc. cbn [app].
      f_equal. lia.
    + rewrite decide_False by discriminate. apply IH.
Qed.

Lemma _find_positive_indicators_spec (text : pystr) (k : nat) :
  _find_positive_indicators db uuid4 text k =
  (indicators_of uuid4 (matching_indicator_rules db text) k,
   (k + length (matching_indicator_rules db text))%nat).
Proof. unfold _find_positive_indicators. apply (indicators_loop text _ [] k). Qed.

End Detectors.

Lemma flags_of_length uuid4 rules k : length (flags_of uuid4 rules k) = length rules.
Proof. revert k. induction rules as [| r rs IH]; intros k; cbn; [| rewrite IH]; reflexivity. Qed.

Lemma indicators_of_length uuid4 rules k :
  length (indicators_of uuid4 rules k) = length rules.
Proof. revert k. induction rules as [| r rs IH]; intros k; cbn; [| rewrite IH]; reflexivity. Qed.

Lemma flags_of_severity uuid4 rules k :
  map rf_severity (flags_of uuid4 rules k) = map fp_severity rules.
Proof. revert k. induction rules as [| r rs IH]; intros k; cbn; [| rewrite IH]; reflexivity. Qed.

Lemma flags_of_description uuid4 rules k :
  map rf_description (flags_of uuid4 rules k) = map fp_description rules.
Proof. revert k. induction rules as [| r rs IH]; intros k; cbn; [| rewrite IH]; reflexivity. Qed.

Lemma indicators_of_description uuid4 rules k :
  map pi_description (indicators_of uuid4 rules k) = map ip_description rules.
Proof. revert k. induction rules as [| r rs IH]; intros k; cbn; [| rewrite IH]; reflexivity. Qed.

Lemma indicators_of_icon uuid4 rules k :
  map pi_icon (indicators_of uuid4 rules k) = map ip_icon rules.
Proof. revert k. induction rules as [| r rs IH]; intros k; cbn; [| rewrite IH]; reflexivity. Qed.

Lemma matching_flag_rules_length db text :
  (length (matching_flag_rules db text) <= 8)%nat.
Proof.
  unfold matching_flag_rules.
  etransitivity; [apply length_filter |]. vm_compute. lia.
Qed.

Lemma matching_indicator_rules_length db text :
  (length (matching_indicator_rules db text) <= 6)%nat.
Proof.
  unfold matching_indicator_rules.
  etransitivity; [apply length_filter |]. vm_compute. lia.
Qed.

(** * Keyword extraction *)

Lemma collect_keywords_spec (word_freq : gmap pystr Z) (impact : string)
    (table : list pystr) (keywords : list Keyword) :
  collect_keywords word_freq impact table keywords =
  keywords ++ omap (keyword_entry word_freq impact) table.
Proof.
  unfold collect_keywords. revert keywords.
  induction table as [| term table IH]; intros keywords.
  - cbn. rewrite app_nil_r. reflexivity.
  - cbn [fold_left]. rewrite IH.
    change (omap (keyword_entry word_freq impact) (term :: table))
      with (match keyword_entry word_freq impact term with
            | Some y => y :: omap (keyword_entry word_freq impact) table
            | None => omap (keyword_entry word_freq impact) table
            end).
    destruct (word_freq !! term) as [freq |] eqn:E.
    + assert (Hk : keyword_entry word_freq impact term =
                   Some {| kw_term := term; kw_impact := impact;
                           kw_weight := keyword_weight freq |})
        by (unfold keyword_entry; rewrite E; reflexivity).
      rewrite Hk, <- app_assoc. reflexivity.
    + assert (Hk : keyword_entry word_freq impact term = None)
        by (unfold keyword_entry; rewrite E; reflexivity).
      rewrite Hk. reflexivity.
Qed.

Lemma _extract_keywords_spec (db : unicode_db) (text : pystr) :
  _extract_keywords db text =
  let word_freq :=
    word_frequencies (re_findall db false WORD_PATTERN (u_lower db text)) in
  take 10 (omap (keyword_entry word_freq "positive") POSITIVE_KEYWORDS ++
           omap (keyword_entry word_freq "negative") NEGATIVE_KEYWORDS).
Proof.
  unfold _extract_keywords. cbv zeta. rewrite !collect_keywords_spec. reflexivity.
Qed.

Lemma occurrences_cons (w x : pystr) (words : list pystr) :
  occurrences w (x :: words) =
  (if decide (x = w) then 1 else 0) + occurrences w words.
Proof.
  unfold occurrences. rewrite filter_cons.
  destruct (decide (x = w)); cbn [length]; lia.
Qed.

Lemma occurrences_absent (w : pystr) (words : list pystr) :
  w ∉ words -> occurrences w words = 0.
Proof.
  induction words as [| x words IH]; intros Hw; [reflexivity |].
  rewrite occurrences_cons, decide_False, IH.
  - reflexivity.
  - intros H. apply Hw. right. exact H.
  - intros ->. apply Hw. left.
Qed.

Lemma word_frequencies_loop (words : list pystr) (m : gmap pystr Z) (w : pystr) :
  fold_left
    (fun word_freq word =>
       if (3 <? length word)%nat
       then <[word := default 0 (word_freq !! word) + 1]> word_freq
       else word_freq)
    words m !! w =
  if decide ((3 < length w)%nat /\ w ∈ words)
  then Some (default 0 (m !! w) + occurrences w words)
  else m !! w.
Proof.
  revert m. induction words as [| x words IH]; intros m; cbn [fold_left].
  - rewrite decide_False; [reflexivity |]. intros [_ H]. inversion H.
  - rewrite IH, occurrences_cons.
    assert (Hm : (if (3 <? length x)%nat
                  then <[x := default 0 (m !! x) + 1]> m else m) !! w =
                 if decide ((3 < length x)%nat /\ x = w)
                 then Some (default 0 (m !! w) + 1) else m !! w).
    { destruct (Nat.ltb_spec 3 (length x)) as [Hx | Hx].
      - destruct (decide (x = w)) as [-> | Hne].
        + rewrite lookup_insert_eq, decide_True by auto. reflexivity.
        + rewrite lookup_insert_ne, decide_False by tauto. reflexivity.
      - rewrite decide_False by lia. reflexivity. }
    rewrite Hm. clear Hm IH.
    destruct (decide ((3 < length w)%nat /\ w ∈ words)) as [[Hl Hin] | Hn];
      destruct (decide ((3 < length w)%nat /\ w ∈ x :: words)) as [[Hl' Hin'] | Hn'].
    + destruct (decide (x = w)) as [-> | Hne].
      * rewrite (decide_True (P := (3 < length w)%nat /\ w = w)) by auto.
        cbn. f_equal; lia.
      * rewrite decide_False by tauto. f_equal; lia.
    + exfalso. apply Hn'. split; [assumption | right; assumption].
    + assert (x = w) as ->.
      { inversion Hin'; subst; [reflexivity |]. exfalso. apply Hn. auto. }
      rewrite (decide_True (P := (3 < length w)%nat /\ w = w)) by auto.
      rewrite (decide_True (P := w = w)) by reflexivity.
      cbn.
      rewrite occurrences_absent by tauto. f_equal; lia.
    + rewrite decide_False; [reflexivity |].
      intros [Hl ->]. apply Hn'. split; [assumption | left].
Qed.

(** [word_freq[w]] is the number of occurrences of [w] among the words,
    for the words longer than 3 that occur; no other word is a key. *)
Lemma word_frequencies_lookup (words : list pystr) (w : pystr) :
  word_frequencies words !! w =
  if decide ((3 < length w)%nat /\ w ∈ words)
  then Some (occurrences w words)
  else None.
Proof.
  unfold word_frequencies. rewrite word_frequencies_loop, lookup_empty.
  destruct (decide _); [f_equal; cbn; lia | reflexivity].
Qed.

Lemma occurrences_pos (w : pystr) (words : list pystr) :
  w ∈ words -> 1 <= occurrences w words.
Proof.
  induction 1 as [w words | w x words _ IH]; rewrite occurrences_cons.
  - rewrite decide_True by reflexivity. unfold occurrences. lia.
  - destruct (decide (x = w)); lia.
Qed.

Lemma word_frequencies_Some (words : list pystr) (w : pystr) (n : Z) :
  word_frequencies words !! w = Some n ->
  (3 < length w)%nat /\ w ∈ words /\ n = occurrences w words /\ 1 <= n.
Proof.
  rewrite word_frequencies_lookup. destruct (decide _) as [[H1 H2] | H]; [| discriminate].
  intros [= <-]. repeat split; try assumption. apply occurrences_pos, H2.
Qed.

(** ** Tokens *)

Section Tokens.
Context (db : unicode_db) (ignorecase : bool).

(** Every position of a run is reached by reading matching characters. *)
Lemma run_In (a : atom) (s : pystr) (prev : option N) (q : position) :
  In q (run db ignorecase a prev s) ->
  exists pre, s = pre ++ snd q /\
              Forall (fun c => atom_matches db ignorecase a c = true) pre /\
              (pre = [] -> q = (prev, s)).
Proof.
  revert prev. induction s as [| c s IH]; intros prev; cbn [run].
  - intros [<- | []]. exists []. auto.
  - intros [<- | Hq]; [exists []; auto |].
    destruct (atom_matches db ignorecase a c) eqn:Ec; [| destruct Hq].
    destruct (IH _ Hq) as (pre & -> & Hpre & _).
    exists (c :: pre). split; [reflexivity |]. split; [| discriminate].
    constructor; assumption.
Qed.

Lemma rmatch_Boundary (prev : option N) (s : pystr) (q : position) :
  In q (rmatch db ignorecase Boundary prev s) -> q = (prev, s).
Proof.
  cbn [rmatch]. destruct (xorb _ _); [intros [<- | []]; reflexivity | intros []].
Qed.

Lemma run_unfold (a : atom) (prev : option N) (s : pystr) :
  run db ignorecase a prev s =
  (prev, s) ::
  match s with
  | c :: s' =>
      if atom_matches db ignorecase a c then run db ignorecase a (Some c) s' else []
  | [] => []
  end.
Proof. destruct s; reflexivity. Qed.

(** A position of a run other than the first is reached by reading at
    least one matching character. *)
Lemma run_tail_In (a : atom) (s : pystr) (prev : option N) (q : position) :
  In q (drop 1 (run db ignorecase a prev s)) ->
  exists pre, pre <> [] /\ s = pre ++ snd q /\
              Forall (fun c => atom_matches db ignorecase a c = true) pre.
Proof.
  rewrite run_unfold. cbn [drop]. destruct s as [| c s']; [intros [] |].
  destruct (atom_matches db ignorecase a c) eqn:Ec; [| intros []].
  intros Hq. destruct (run_In _ _ _ _ Hq) as (pre & -> & Hpre & _).
  exists (c :: pre). split; [discriminate |]. split; [reflexivity |].
  constructor; assumption.
Qed.

(** A match of [\b a+ \b] reads a nonempty run of characters of [a]. *)
Lemma rmatch_word (a : atom) (prev : option N) (s : pystr) (q : position) :
  In q (rmatch db ignorecase
          (Cat Boundary (Cat (AtLeast 1 a) Boundary)) prev s) ->
  exists pre, pre <> [] /\ s = pre ++ snd q /\
              Forall (fun c => atom_matches db ignorecase a c = true) pre.
Proof.
  cbn [rmatch]. rewrite in_flat_map. intros ((p1 & s1) & H1 & H2).
  destruct (xorb (is_word db prev) (is_word db (head s))); [| destruct H1].
  destruct H1 as [[= <- <-] | []]. cbn [fst snd] in H2.
  rewrite in_flat_map in H2. destruct H2 as (q2 & Hq2 & Hb).
  apply rmatch_Boundary in Hb. rewrite <- surjective_pairing in Hb. subst q2.
  rewrite <- in_rev in Hq2. apply run_tail_In in Hq2. exact Hq2.
Qed.

End Tokens.

Lemma findall_tokens (db : unicode_db) (a : atom) (s : pystr)
    (prev : option N) (skip : nat) :
  Forall (fun t => t <> [] /\ Forall (fun c => atom_matches db false a c = true) t)
    (findall_from db false (Cat Boundary (Cat (AtLeast 1 a) Boundary)) prev s skip).
Proof.
  revert prev skip. induction s as [| c s IH]; intros prev skip; cbn [findall_from].
  - destruct skip; [| constructor].
    destruct (rmatch db false _ prev []) as [| q l] eqn:E; [constructor |].
    assert (Hq : In q (rmatch db false (Cat Boundary (Cat (AtLeast 1 a) Boundary)) prev []))
      by (rewrite E; left; reflexivity).
    destruct (rmatch_word _ _ _ _ _ _ Hq) as (pre & Hne & Hs & _).
    destruct pre; [congruence | discriminate].
  - destruct skip as [| k]; [| apply IH].
    destruct (rmatch db false _ prev (c :: s)) as [| q l] eqn:E; [apply IH |].
    assert (Hq : In q (rmatch db false (Cat Boundary (Cat (AtLeast 1 a) Boundary))
                         prev (c :: s)))
      by (rewrite E; left; reflexivity).
    destruct (rmatch_word _ _ _ _ _ _ Hq) as (pre & Hne & Hs & Hpre).
    assert (Ht : take (length (c :: s) - length (snd q)) (c :: s) = pre).
    { rewrite Hs, length_app.
      replace (length pre + length (snd q) - length (snd q))%nat
        with (length pre) by lia.
      apply take_app_length. }
    cbv zeta. rewrite Ht. constructor; [split; assumption | apply IH].
Qed.

(** The words of the tokenizer are nonempty runs of letters [a-z]. *)
Lemma words_are_lower_letters (db : unicode_db) (text : pystr) :
  Forall (fun t => t <> [] /\ Forall (fun c => lower_letter c = true) t)
    (re_findall db false WORD_PATTERN text).
Proof. apply (findall_tokens db (Range (chr "a") (chr "z")) text None 0). Qed.

Lemma keyword_entry_Some (word_freq : gmap pystr Z) (impact : string)
    (term : pystr) (keyword : Keyword) :
  keyword_entry word_freq impact term = Some keyword ->
  exists freq, word_freq !! term = Some freq /\
    keyword = {| kw_term := term; kw_impact := impact;
                 kw_weight := keyword_weight freq |}.
Proof.
  unfold keyword_entry. destruct (word_freq !! term) as [freq |]; [| discriminate].
  intros [= <-]. eauto.
Qed.

(** Every keyword of the extractor: its term is a word of the text that
    is in one of the two tables, with the weight of its frequency. *)
Lemma _extract_keywords_elem (db : unicode_db) (text : pystr) (keyword : Keyword) :
  keyword ∈ _extract_keywords db text ->
  let words := re_findall db false WORD_PATTERN (u_lower db text) in
  exists freq,
    word_frequencies words !! kw_term keyword = Some freq /\
    kw_weight keyword = keyword_weight freq /\
    ((kw_term keyword ∈ POSITIVE_KEYWORDS /\ kw_impact keyword = "positive"%string) \/
     (kw_term keyword ∈ NEGATIVE_KEYWORDS /\ kw_impact keyword = "negative"%string)).
Proof.
  rewrite _extract_keywords_spec. cbv zeta. intros Hin.
  apply elem_of_take in Hin. destruct Hin as (i & Hin & _).
  apply list_elem_of_lookup_2 in Hin.
  apply elem_of_app in Hin. destruct Hin as [Hin | Hin];
    apply list_elem_of_omap in Hin; destruct Hin as (term & Hterm & Hentry);
    apply keyword_entry_Some in Hentry; destruct Hentry as (freq & Hfreq & ->);
    exists freq; cbn; auto.
Qed.

(** * The whole analysis *)

Lemma penalties_severities (rf1 rf2 : list RedFlag) :
  map rf_severity rf1 = map rf_severity rf2 -> penalties rf1 = penalties rf2.
Proof.
  unfold penalties. revert rf2.
  induction rf1 as [| f1 rf1 IH]; intros [| f2 rf2]; cbn; try discriminate;
    [reflexivity |].
  intros [= H1 H2]. rewrite H1, (IH _ H2). reflexivity.
Qed.

(** The score depends on the severities of the flags and on the number of
    indicators only. *)
Lemma _calculate_score_severities (rf1 rf2 : list RedFlag)
    (pi1 pi2 : list PositiveIndicator) (keywords : list Keyword) :
  map rf_severity rf1 = map rf_severity rf2 -> length pi1 = length pi2 ->
  _calculate_score rf1 pi1 keywords = _calculate_score rf2 pi2 keywords.
Proof.
  intros Hs Hl. unfold _calculate_score.
  rewrite !flags_loop, (penalties_severities _ _ Hs), Hl. reflexivity.
Qed.

(** The overview depends on the numbers of flags and indicators only. *)
Lemma _generate_overview_lengths (s : Z) (rf1 rf2 : list RedFlag)
    (pi1 pi2 : list PositiveIndicator) :
  length rf1 = length rf2 -> length pi1 = length pi2 ->
  _generate_overview s rf1 pi1 = _generate_overview s rf2 pi2.
Proof.
  intros Hr Hp. unfold _generate_overview. rewrite Hr, Hp.
  destruct rf1, rf2, pi1, pi2; try discriminate; reflexivity.
Qed.

Lemma keyword_weight_tenths (freq : Z) :
  1 <= freq ->
  4 <= Z.min 10 (3 + freq) <= 10 /\
  keyword_weight freq = dec (Z.min 10 (3 + freq)) 1.
Proof. intros H. split; [lia | apply keyword_weight_spec; exact H]. Qed.

Lemma _extract_keywords_tenths (db : unicode_db) (text : pystr) :
  Forall (fun keyword => exists n, tenths_of keyword n) (_extract_keywords db text).
Proof.
  apply Forall_forall. intros keyword Hin.
  destruct (_extract_keywords_elem db text keyword Hin) as (freq & Hf & Hw & _).
  apply word_frequencies_Some in Hf. destruct Hf as (_ & _ & _ & Hpos).
  exists (Z.min 10 (3 + freq)). unfold tenths_of. rewrite Hw.
  apply keyword_weight_tenths. exact Hpos.
Qed.

Lemma _extract_keywords_length (db : unicode_db) (text : pystr) :
  (length (_extract_keywords db text) <= 10)%nat.
Proof. unfold _extract_keywords. cbv zeta. apply firstn_le_length. Qed.

(** The score of an analysis is defined and within bounds. *)
Lemma analysis_score (db : unicode_db) (uuid4 uuid4' : nat -> string)
    (text : pystr) (k k' : nat) :
  exists s,
    0 <= s <= 100 /\
    _calculate_score (flags_of uuid4 (matching_flag_rules db text) k)
      (indicators_of uuid4' (matching_indicator_rules db text) k')
      (_extract_keywords db text) = Some s.
Proof.
  destruct (Forall_exists_Forall2 _ _ (_extract_keywords_tenths db text)) as [ns Hns].
  eexists. split; [| apply (_calculate_score_exact _ _ _ ns Hns)].
  - apply clamp_range.
  - unfold small. rewrite flags_of_length.
    pose proof (matching_flag_rules_length db text). lia.
  - unfold small. rewrite indicators_of_length.
    pose proof (matching_indicator_rules_length db text). lia.
  - unfold small. pose proof (_extract_keywords_length db text). lia.
Qed.

(** [analyze_content] in closed form. *)
Lemma analyze_content_spec (db : unicode_db) (uuid4 : nat -> string)
    (text : pystr) (k : nat) :
  let flags := flags_of uuid4 (matching_flag_rules db text) k in
  let k1 := (k + length (matching_flag_rules db text))%nat in
  let indicators := indicators_of uuid4 (matching_indicator_rules db text) k1 in
  exists s,
    0 <= s <= 100 /\
    _calculate_score flags indicators (_extract_keywords db text) = Some s /\
    analyze_content db uuid4 text k =
    Some ({| score := s;
             overview := _generate_overview s flags indicators;
             red_flags := flags;
             positive_indicators := indicators;
             keywords := _extract_keywords db text |},
          (k1 + length (matching_indicator_rules db text))%nat).
Proof.
  cbv zeta. unfold analyze_content.
  rewrite _find_red_flags_spec, _find_positive_indicators_spec.
  destruct (analysis_score db uuid4 uuid4 text k
              (k + length (matching_flag_rules db text))) as (s & Hs & E).
  exists s. split; [exact Hs |]. split; [exact E |].
  rewrite E. reflexivity.
Qed.

(** C2.  For every text the analysis returns a result, and its score is an
    integer between 0 and 100. *)
Theorem C2_score_in_range (db : unicode_db) (uuid4 : nat -> string)
    (text : pystr) (k : nat) :
  exists result k',
    analyze_content db uuid4 text k = Some (result, k') /\
    0 <= score result <= 100.
Proof.
  destruct (analyze_content_spec db uuid4 text k) as (s & Hs & _ & E).
  eexists _, _. split; [exact E | exact Hs].
Qed.

(** C8.  Two runs of [analyze_content] on the same text, whatever the
    identifiers drawn, return the same score, overview, descriptions,
    severities, icons and keywords. *)
Theorem C8_identical_but_for_ids (db : unicode_db) (uuid4 uuid4' : nat -> string)
    (text : pystr) (k k' : nat) :
  exists r r' k1 k1',
    analyze_content db uuid4 text k = Some (r, k1) /\
    analyze_content db uuid4' text k' = Some (r', k1') /\
    score r = score r' /\
    overview r = overview r' /\
    map rf_description (red_flags r) = map rf_description (red_flags r') /\
    map rf_severity (red_flags r) = map rf_severity (red_flags r') /\
    map pi_description (positive_indicators r) =
      map pi_description (positive_indicators r') /\
    map pi_icon (positive_indicators r) = map pi_icon (positive_indicators r') /\
    keywords r = keywords r'.
Proof.
  destruct (analyze_content_spec db uuid4 text k) as (s & _ & Es & E).
  destruct (analyze_content_spec db uuid4' text k') as (s' & _ & Es' & E').
  assert (Hss : s = s').
  { rewrite (_calculate_score_severities _
               (flags_of uuid4' (matching_flag_rules db text) k') _
               (indicators_of uuid4' (matching_indicator_rules db text)
                  (k' + length (matching_flag_rules db text)))) in Es.
    - congruence.
    - rewrite !flags_of_severity. reflexivity.
    - rewrite !indicators_of_length. reflexivity. }
  subst s'.
  eexists _, _, _, _. split; [exact E |]. split; [exact E' |]. cbn [score overview
    red_flags positive_indicators keywords].
  repeat split.
  - apply _generate_overview_lengths;
      rewrite ?flags_of_length, ?indicators_of_length; reflexivity.
  - rewrite !flags_of_description. reflexivity.
  - rewrite !flags_of_severity. reflexivity.
  - rewrite !indicators_of_description. reflexivity.
  - rewrite !indicators_of_icon. reflexivity.
Qed.

Lemma keyword_entries_terms (word_freq : gmap pystr Z) (impact : string)
    (table : list pystr) :
  map kw_term (omap (keyword_entry word_freq impact) table) =
  present_terms word_freq table.
Proof.
  unfold present_terms. induction table as [| term table IH]; [reflexivity |].
  rewrite filter_cons.
  change (omap (keyword_entry word_freq impact) (term :: table))
    with (match keyword_entry word_freq impact term with
          | Some y => y :: omap (keyword_entry word_freq impact) table
          | None => omap (keyword_entry word_freq impact) table
          end).
  unfold keyword_entry at 1.
  destruct (word_freq !! term) as [freq |] eqn:E; cbn [mbind option_bind].
  - rewrite decide_True by eauto. cbn [map kw_term]. rewrite IH. reflexivity.
  - rewrite decide_False by (intros [? ?]; discriminate). exact IH.
Qed.

Lemma keyword_entries_impacts (word_freq : gmap pystr Z) (impact : string)
    (table : list pystr) :
  Forall (fun keyword => kw_impact keyword = impact)
    (omap (keyword_entry word_freq impact) table).
Proof.
  apply Forall_forall. intros keyword Hin.
  apply list_elem_of_omap in Hin. destruct Hin as (term & _ & Hentry).
  apply keyword_entry_Some in Hentry. destruct Hentry as (freq & _ & ->).
  reflexivity.
Qed.

(** C6.  The extractor returns at most 10 keywords; their terms are the
    first 10 of the positive terms present, in table order, followed by the
    negative terms present, in table order; the entries that come from the
    positive table are "positive" and the others "negative"; when 10
    positive terms or more are present, every keyword is positive. *)
Theorem C6_keyword_list_shape (db : unicode_db) (text : pystr) :
  let positives := present_terms (text_frequencies db text) POSITIVE_KEYWORDS in
  let negatives := present_terms (text_frequencies db text) NEGATIVE_KEYWORDS in
  (length (_extract_keywords db text) <= 10)%nat /\
  map kw_term (_extract_keywords db text) = take 10 (positives ++ negatives) /\
  (forall i keyword, _extract_keywords db text !! i = Some keyword ->
     kw_impact keyword =
       if decide (i < length positives)%nat then "positive"%string
       else "negative"%string) /\
  ((10 <= length positives)%nat ->
   Forall (fun keyword => kw_impact keyword = "positive"%string)
     (_extract_keywords db text)).
Proof.
  cbv zeta. rewrite _extract_keywords_spec. cbv zeta.
  fold (text_frequencies db text). set (wf := text_frequencies db text).
  set (ps := omap (keyword_entry wf "positive") POSITIVE_KEYWORDS).
  set (ns := omap (keyword_entry wf "negative") NEGATIVE_KEYWORDS).
  assert (Hps : map kw_term ps = present_terms wf POSITIVE_KEYWORDS)
    by apply keyword_entries_terms.
  assert (Hns : map kw_term ns = present_terms wf NEGATIVE_KEYWORDS)
    by apply keyword_entries_terms.
  assert (Hlen : length ps = length (present_terms wf POSITIVE_KEYWORDS))
    by (rewrite <- Hps, length_map; reflexivity).
  assert (Hip : Forall (fun keyword => kw_impact keyword = "positive"%string) ps)
    by apply keyword_entries_impacts.
  assert (Hin : Forall (fun keyword => kw_impact keyword = "negative"%string) ns)
    by apply keyword_entries_impacts.
  split; [apply firstn_le_length |]. split; [| split].
  - rewrite <- firstn_map, map_app, Hps, Hns. reflexivity.
  - intros i keyword Hi. rewrite lookup_take_Some in Hi. destruct Hi as [Hi _].
    rewrite <- Hlen. destruct (decide (i < length ps)%nat) as [Hlt | Hge].
    + rewrite lookup_app_l in Hi by exact Hlt.
      exact (proj1 (Forall_lookup _ _) Hip _ _ Hi).
    + rewrite lookup_app_r in Hi by lia.
      exact (proj1 (Forall_lookup _ _) Hin _ _ Hi).
  - intros H10. rewrite <- Hlen in H10. rewrite take_app_le by exact H10.
    apply Forall_take. exact Hip.
Qed.

Lemma omap_lookup_entry (word_freq : gmap pystr Z) (impact : string)
    (table : list pystr) (i : nat) (term : pystr) (freq : Z) :
  table !! i = Some term -> word_freq !! term = Some freq ->
  omap (keyword_entry word_freq impact) table
    !! length (present_terms word_freq (take i table)) =
  Some {| kw_term := term; kw_impact := impact;
          kw_weight := keyword_weight freq |}.
Proof.
  intros Hi Hf.
  assert (E : omap (keyword_entry word_freq impact) table =
              omap (keyword_entry word_freq impact)
                (take i table ++ term :: drop (S i) table))
    by (rewrite take_drop_middle by assumption; reflexivity).
  rewrite E, omap_app.
  rewrite <- (keyword_entries_terms word_freq impact), length_map.
  rewrite lookup_app_r by lia. rewrite Nat.sub_diag.
  change (omap (keyword_entry word_freq impact) (term :: drop (S i) table))
    with (match keyword_entry word_freq impact term with
          | Some y => y :: omap (keyword_entry word_freq impact) (drop (S i) table)
          | None => omap (keyword_entry word_freq impact) (drop (S i) table)
          end).
  unfold keyword_entry at 1. rewrite Hf. reflexivity.
Qed.

(** C5, amended.  A term of the positive table that is a key of the
    frequency map, with fewer than 10 terms of the table present before it,
    is emitted with impact "positive" and weight [min(1.0, 0.3 + 0.1 * freq)]
    in tenths; five occurrences of "research" give the single keyword
    research, positive, 0.8. *)
Theorem C5_positive_keyword_weight :
  (forall (db : unicode_db) (text : pystr) (i : nat) (term : pystr) (freq : Z),
     POSITIVE_KEYWORDS !! i = Some term ->
     text_frequencies db text !! term = Some freq ->
     (length (present_terms (text_frequencies db text)
                (take i POSITIVE_KEYWORDS)) < 10)%nat ->
     1 <= freq /\
     {| kw_term := term; kw_impact := "positive";
        kw_weight := dec (Z.min 10 (3 + freq)) 1 |} ∈ _extract_keywords db text) /\
  _extract_keywords ascii_db research5 =
    [{| kw_term := codes "research"; kw_impact := "positive";
        kw_weight := dec 8 1 |}].
Proof.
  split; [| vm_compute; reflexivity].
  intros db text i term freq Hi Hf Hlt.
  pose proof (word_frequencies_Some _ _ _ Hf) as (_ & _ & _ & Hpos).
  split; [exact Hpos |].
  rewrite <- keyword_weight_spec by exact Hpos.
  rewrite _extract_keywords_spec. cbv zeta. fold (text_frequencies db text).
  apply elem_of_take. eexists. split; [| exact Hlt].
  rewrite lookup_app_l.
  - apply omap_lookup_entry; assumption.
  - eapply lookup_lt_Some. apply omap_lookup_entry; eassumption.
Qed.

(** The hypotheses of C5 hold of "research" in a text with five
    occurrences of it. *)
Lemma C5_positive_keyword_weight_witness :
  POSITIVE_KEYWORDS !! 0%nat = Some (codes "research") /\
  text_frequencies ascii_db research5 !! codes "research" = Some 5 /\
  (length (present_terms (text_frequencies ascii_db research5)
             (take 0 POSITIVE_KEYWORDS)) < 10)%nat /\
  1 <= 5 /\
  {| kw_term := codes "research"; kw_impact := "positive";
     kw_weight := dec (Z.min 10 (3 + 5)) 1 |} ∈ _extract_keywords ascii_db research5.
Proof.
  assert (H1 : POSITIVE_KEYWORDS !! 0%nat = Some (codes "research")) by reflexivity.
  assert (H2 : text_frequencies ascii_db research5 !! codes "research" = Some 5)
    by (vm_compute; reflexivity).
  assert (H3 : (length (present_terms (text_frequencies ascii_db research5)
                          (take 0 POSITIVE_KEYWORDS)) < 10)%nat)
    by (vm_compute; lia).
  split; [exact H1 |]. split; [exact H2 |]. split; [exact H3 |].
  exact (proj1 C5_positive_keyword_weight ascii_db research5 0%nat
           (codes "research") 5 H1 H2 H3).
Defined.

(** C5 as stated fails: "verified" belongs to the positive table and is a
    key of the frequency map of a text in which ten other positive terms
    come first, and no keyword with that term is emitted. *)
Lemma C5_counterexample :
  codes "verified" ∈ POSITIVE_KEYWORDS /\
  text_frequencies ascii_db eleven_terms !! codes "verified" = Some 1 /\
  codes "verified" ∉ map kw_term (_extract_keywords ascii_db eleven_terms).
Proof.
  split; [| split].
  - apply (bool_decide_unpack _); vm_compute; exact I.
  - vm_compute. reflexivity.
  - apply (bool_decide_unpack _); vm_compute; exact I.
Qed.

(** C10.  The term of every emitted keyword is made of the letters a-z
    only; it is never "peer-reviewed". *)
Theorem C10_never_peer_reviewed (db : unicode_db) (text : pystr) (keyword : Keyword) :
  keyword ∈ _extract_keywords db text ->
  Forall (fun c => lower_letter c = true) (kw_term keyword) /\
  kw_term keyword <> codes "peer-reviewed".
Proof.
  intros Hin.
  destruct (_extract_keywords_elem db text keyword Hin) as (freq & Hf & _).
  apply word_frequencies_Some in Hf. destruct Hf as (_ & Hw & _).
  pose proof (words_are_lower_letters db (u_lower db text)) as Hall.
  rewrite Forall_forall in Hall. destruct (Hall _ Hw) as [_ Hletters].
  split; [exact Hletters |].
  intros E. rewrite E in Hletters.
  rewrite Forall_forall in Hletters.
  specialize (Hletters 45%N). 
  assert (H45 : 45%N ∈ codes "peer-reviewed")
    by (apply (bool_decide_unpack _); vm_compute; exact I).
  specialize (Hletters H45). vm_compute in Hletters. discriminate.
Qed.

(** The hypothesis of C10 holds of the keyword extracted from five
    occurrences of "research". *)
Lemma C10_never_peer_reviewed_witness :
  {| kw_term := codes "research"; kw_impact := "positive";
     kw_weight := dec 8 1 |} ∈ _extract_keywords ascii_db research5 /\
  Forall (fun c => lower_letter c = true) (codes "research") /\
  codes "research" <> codes "peer-reviewed".
Proof.
  assert (H : {| kw_term := codes "research"; kw_impact := "positive";
                 kw_weight := dec 8 1 |} ∈ _extract_keywords ascii_db research5).
  { replace (_extract_keywords ascii_db research5)
      with [{| kw_term := codes "research"; kw_impact := "positive";
               kw_weight := dec 8 1 |}] by (vm_compute; reflexivity).
    left. }
  split; [exact H |].
  exact (C10_never_peer_reviewed ascii_db research5 _ H).
Defined.

(** C9.  Three empty lists aggregate to 50, and the analysis of the empty
    text is complete: score 50, the mixed-credibility overview, and no
    flag, indicator or keyword; no identifier is drawn. *)
Theorem C9_empty_text (db : unicode_db) (uuid4 : nat -> string) (k : nat) :
  u_lower db [] = [] ->
  _calculate_score [] [] [] = Some 50 /\
  analyze_content db uuid4 [] k =
  Some ({| score := 50;
           overview := "This content has mixed credibility signals.";
           red_flags := [];
           positive_indicators := [];
           keywords := [] |}, k).
Proof.
  intros Hlower. split; [reflexivity |].
  unfold analyze_content, _find_red_flags, _find_positive_indicators,
    _extract_keywords.
  rewrite Hlower. vm_compute. reflexivity.
Qed.

(** The hypothesis of C9 holds of the ASCII database. *)
Lemma C9_empty_text_witness :
  u_lower ascii_db [] = [] /\
  _calculate_score [] [] [] = Some 50 /\
  analyze_content ascii_db (fun _ => "00000000-0000-4000-8000-000000000000"%string) [] 0 =
  Some ({| score := 50;
           overview := "This content has mixed credibility signals.";
           red_flags := [];
           positive_indicators := [];
           keywords := [] |}, 0%nat).
Proof.
  assert (H : u_lower ascii_db [] = []) by reflexivity.
  split; [exact H |]. exact (C9_empty_text ascii_db _ 0%nat H).
Defined.

(** C3 fails in the code: "hello" has no uppercase letter, and the detector
    emits the flag "Excessive use of capital letters" for it, because the
    pattern [[A-Z]{5,}] is searched with [re.IGNORECASE] as every other
    pattern of the table. *)
Theorem C3_capital_rule_ignores_case (uuid4 : nat -> string) (k : nat) :
  forallb (fun c => negb (in_range 65 90 c)) (codes "hello") = true /\
  _find_red_flags ascii_db uuid4 (codes "hello") k =
  ([{| rf_id := "rf-" +:+ substring 0 8 (uuid4 k);
       rf_description := "Excessive use of capital letters";
       rf_severity := "low" |}], S k).
Proof.
  split; [reflexivity |].
  rewrite _find_red_flags_spec.
  assert (E : matching_flag_rules ascii_db (codes "hello") =
              [{| fp_pattern := AtLeast 5 (Range (chr "A") (chr "Z"));
                  fp_description := "Excessive use of capital letters";
                  fp_severity := "low" |}])
    by (vm_compute; reflexivity).
  rewrite E. cbn [flags_of length _generate_id fst]. f_equal. lia.
Qed.

(** C4 fails in the code: the analysis of "This is a simple test article."
    has one red flag, "Excessive use of capital letters" (the word "simple"
    is a run of six letters), and the score 45. *)
Theorem C4_simple_article (uuid4 : nat -> string) (k : nat) :
  analyze_content ascii_db uuid4 simple_article k =
  Some ({| score := 45;
           overview :=
             "This content has mixed credibility signals. Identified 1 red flag(s).";
           red_flags :=
             [{| rf_id := "rf-" +:+ substring 0 8 (uuid4 k);
                 rf_description := "Excessive use of capital letters";
                 rf_severity := "low" |}];
           positive_indicators := [];
           keywords := [] |}, S k).
Proof.
  unfold analyze_content.
  rewrite _find_red_flags_spec, _find_positive_indicators_spec.
  assert (E1 : matching_flag_rules ascii_db simple_article =
               [{| fp_pattern := AtLeast 5 (Range (chr "A") (chr "Z"));
                   fp_description := "Excessive use of capital letters";
                   fp_severity := "low" |}])
    by (vm_compute; reflexivity).
  assert (E2 : matching_indicator_rules ascii_db simple_article = [])
    by (vm_compute; reflexivity).
  assert (E3 : _extract_keywords ascii_db simple_article = [])
    by (vm_compute; reflexivity).
  rewrite E1, E2, E3. cbn [flags_of indicators_of length _generate_id fst].
  replace (k + 1 + 0)%nat with (S k) by lia.
  reflexivity.
Qed.

(** The hypotheses of C7 hold of one flag, one indicator and one keyword. *)
Lemma C7_additional_red_flag_witness :
  Forall (fun keyword => exists n, tenths_of keyword n)
    [sample_keyword "positive" 8] /\
  small (S (length [sample_flag "high"])) /\
  small (length [sample_indicator]) /\
  small (length [sample_keyword "positive" 8]) /\
  exists s s',
    _calculate_score [sample_flag "high"] [sample_indicator]
      [sample_keyword "positive" 8] = Some s /\
    _calculate_score ([sample_flag "high"] ++ [sample_flag "medium"])
      [sample_indicator] [sample_keyword "positive" 8] = Some s' /\
    s - penalty (rf_severity (sample_flag "medium")) <= s' <= s /\
    (s < 100 -> 0 < s' -> s' = s - penalty (rf_severity (sample_flag "medium"))).
Proof.
  assert (Hw : Forall (fun keyword => exists n, tenths_of keyword n)
                 [sample_keyword "positive" 8]).
  { constructor; [| constructor]. exists 8. split; [lia | reflexivity]. }
  assert (Hr : small (S (length [sample_flag "high"])))
    by (vm_compute; discriminate).
  assert (Hp : small (length [sample_indicator])) by (vm_compute; discriminate).
  assert (Hk : small (length [sample_keyword "positive" 8]))
    by (vm_compute; discriminate).
  split; [exact Hw |]. split; [exact Hr |]. split; [exact Hp |].
  split; [exact Hk |].
  exact (C7_additional_red_flag [sample_flag "high"] [sample_indicator]
           [sample_keyword "positive" 8] (sample_flag "medium") Hw Hr Hp Hk).
Defined.

(** C7 as stated fails at both clamps: with seven indicators the score is
    100 before and after a low flag is appended; with three high flags the
    score is 5 and a medium flag lowers it by 5 only. *)
Lemma C7_counterexample :
  (_calculate_score [] (replicate 7 sample_indicator) [] = Some 100 /\
   _calculate_score ([] ++ [sample_flag "low"]) (replicate 7 sample_indicator) []
   = Some 100) /\
  (_calculate_score (replicate 3 (sample_flag "high")) [] [] = Some 5 /\
   _calculate_score (replicate 3 (sample_flag "high") ++ [sample_flag "medium"]) [] []
   = Some 0).
Proof. vm_compute. repeat split. Qed.

(** * Further properties of the score *)

Lemma penalty_sum_Permutation (l l' : list string) :
  l ≡ₚ l' -> foldr Z.add 0 (map penalty l) = foldr Z.add 0 (map penalty l').
Proof.
  induction 1 as [| x l l' _ IH | x y l | l l' l'' _ IH1 _ IH2]; cbn [map foldr].
  - reflexivity.
  - rewrite IH. reflexivity.
  - lia.
  - congruence.
Qed.

Lemma penalties_Permutation (rf rf' : list RedFlag) :
  map rf_severity rf ≡ₚ map rf_severity rf' -> penalties rf = penalties rf'.
Proof.
  intros H. apply penalty_sum_Permutation in H.
  unfold penalties. rewrite !map_map in H. exact H.
Qed.

(** X1.  The score depends on the red flags only through their severities, in any
    order, and on the indicators only through their number. *)
Theorem score_ignores_order (red_flags red_flags' : list RedFlag)
    (positive_indicators positive_indicators' : list PositiveIndicator)
    (keywords : list Keyword) :
  map rf_severity red_flags ≡ₚ map rf_severity red_flags' ->
  length positive_indicators = length positive_indicators' ->
  _calculate_score red_flags positive_indicators keywords =
  _calculate_score red_flags' positive_indicators' keywords.
Proof.
  intros Hrf Hpi. unfold _calculate_score.
  rewrite !flags_loop, (penalties_Permutation _ _ Hrf), Hpi. reflexivity.
Qed.

(** Two flags in either order. *)
Lemma score_ignores_order_witness :
  map rf_severity [sample_flag "high"; sample_flag "low"] ≡ₚ
    map rf_severity [sample_flag "low"; sample_flag "high"] /\
  length [sample_indicator] = length [sample_indicator] /\
  _calculate_score [sample_flag "high"; sample_flag "low"] [sample_indicator]
    [sample_keyword "positive" 8] =
  _calculate_score [sample_flag "low"; sample_flag "high"] [sample_indicator]
    [sample_keyword "positive" 8].
Proof.
  assert (H1 : map rf_severity [sample_flag "high"; sample_flag "low"] ≡ₚ
               map rf_severity [sample_flag "low"; sample_flag "high"])
    by apply perm_swap.
  assert (H2 : length [sample_indicator] = length [sample_indicator])
    by reflexivity.
  split; [exact H1 |]. split; [exact H2 |].
  exact (score_ignores_order _ _ _ _ [sample_keyword "positive" 8] H1 H2).
Defined.

Lemma fadd_nan_r (x : float) : fadd x S754_nan = S754_nan.
Proof. destruct x; reflexivity. Qed.

Lemma fsub_nan_r (x : float) : fsub x S754_nan = S754_nan.
Proof. destruct x; reflexivity. Qed.

Lemma keyword_step_nan_weight (x : number) (keyword : Keyword) :
  kw_weight keyword = S754_nan -> keyword_step x keyword = Float S754_nan.
Proof.
  intros H. unfold keyword_step. rewrite H.
  destruct (String.eqb _ _); destruct x; cbn [num_add num_sub num_mul to_float];
    change (fmul S754_nan (float_of_int 5)) with (S754_nan : float);
    rewrite ?fadd_nan_r, ?fsub_nan_r; reflexivity.
Qed.

Lemma keyword_step_nan_acc (keyword : Keyword) :
  keyword_step (Float S754_nan) keyword = Float S754_nan.
Proof.
  unfold keyword_step.
  destruct (String.eqb _ _); reflexivity.
Qed.

Lemma keyword_loop_nan (keywords : list Keyword) :
  fold_left keyword_step keywords (Float S754_nan) = Float S754_nan.
Proof.
  induction keywords as [| keyword keywords IH]; cbn [fold_left].
  - reflexivity.
  - rewrite keyword_step_nan_acc. exact IH.
Qed.

(** X2.  A keyword whose weight is NaN makes [_calculate_score] raise: NaN
    survives every later addition and subtraction, and [int] refuses it. *)
Theorem score_raises_on_nan_weight (red_flags : list RedFlag)
    (positive_indicators : list PositiveIndicator)
    (before after : list Keyword) (keyword : Keyword) :
  kw_weight keyword = S754_nan ->
  _calculate_score red_flags positive_indicators (before ++ keyword :: after) = None.
Proof.
  intros H. unfold _calculate_score.
  change (fold_left _ (before ++ keyword :: after) ?x)
    with (fold_left keyword_step (before ++ keyword :: after) x).
  rewrite fold_left_app. cbn [fold_left].
  rewrite (keyword_step_nan_weight _ _ H), keyword_loop_nan. reflexivity.
Qed.

(** A NaN weight between two ordinary keywords. *)
Lemma score_raises_on_nan_weight_witness :
  kw_weight {| kw_term := codes "sample"; kw_impact := "positive";
               kw_weight := S754_nan |} = S754_nan /\
  _calculate_score [sample_flag "low"] [sample_indicator]
    ([sample_keyword "positive" 8] ++
     {| kw_term := codes "sample"; kw_impact := "positive";
        kw_weight := S754_nan |} :: [sample_keyword "negative" 4]) = None.
Proof.
  assert (H : kw_weight {| kw_term := codes "sample"; kw_impact := "positive";
                           kw_weight := S754_nan |} = S754_nan) by reflexivity.
  split; [exact H |].
  exact (score_raises_on_nan_weight [sample_flag "low"] [sample_indicator]
           [sample_keyword "positive" 8] [sample_keyword "negative" 4] _ H).
Defined.

(** X3.  An impact other than "positive" is subtracted like "negative": the
    score does not change when every such keyword is relabelled "negative". *)
Theorem score_subtracts_unknown_impacts (red_flags : list RedFlag)
    (positive_indicators : list PositiveIndicator) (keywords : list Keyword) :
  _calculate_score red_flags positive_indicators keywords =
  _calculate_score red_flags positive_indicators (map as_negative keywords) /\
  Forall (fun keyword => kw_impact keyword = "positive"%string \/
                         kw_impact keyword = "negative"%string)
    (map as_negative keywords).
Proof.
  split.
  - unfold _calculate_score.
    change (fold_left _ keywords ?x) with (fold_left keyword_step keywords x).
    change (fold_left _ (map as_negative keywords) ?x)
      with (fold_left keyword_step (map as_negative keywords) x).
    generalize (num_add
      (fold_left
         (fun base_score flag =>
            num_sub base_score (Int (default 5 (severity_weights !! rf_severity flag))))
         red_flags (Int 50))
      (Int (Z.of_nat (length positive_indicators) * 8))).
    induction keywords as [| keyword keywords IH]; intros x; cbn [map fold_left].
    + reflexivity.
    + assert (E : keyword_step x (as_negative keyword) = keyword_step x keyword).
      { unfold keyword_step, as_negative.
        destruct (String.eqb (kw_impact keyword) "positive") eqn:Ei.
        - rewrite Ei. reflexivity.
        - reflexivity. }
      rewrite E. apply IH.
  - apply Forall_forall. intros keyword Hin.
    apply list_elem_of_fmap in Hin. destruct Hin as (keyword' & -> & _).
    unfold as_negative.
    destruct (String.eqb (kw_impact keyword') "positive") eqn:Ei.
    + left. apply String.eqb_eq, Ei.
    + right. reflexivity.
Qed.

Lemma clamp_quot_rise (k : Z) :
  clamp (Z.quot k 2) <= clamp (Z.quot (k + 16) 2) <= clamp (Z.quot k 2) + 8 /\
  (0 < clamp (Z.quot k 2) -> clamp (Z.quot (k + 16) 2) < 100 ->
   clamp (Z.quot (k + 16) 2) = clamp (Z.quot k 2) + 8).
Proof.
  unfold clamp.
  destruct (quot2_spec k) as (r & E & Hr1 & Hr2).
  destruct (quot2_spec (k + 16)) as (r' & E' & Hr1' & Hr2').
  lia.
Qed.

(** X4.  With the weights the extractor produces, one more indicator never
    lowers the score, raises it by at most 8, and by exactly 8 when the score
    before is above 0 and the score after is below 100. *)
Theorem score_additional_indicator (red_flags : list RedFlag)
    (positive_indicators : list PositiveIndicator) (keywords : list Keyword)
    (indicator : PositiveIndicator) :
  Forall (fun keyword => exists n, tenths_of keyword n) keywords ->
  small (length red_flags) -> small (S (length positive_indicators)) ->
  small (length keywords) ->
  exists s s',
    _calculate_score red_flags positive_indicators keywords = Some s /\
    _calculate_score red_flags (positive_indicators ++ [indicator]) keywords
      = Some s' /\
    s <= s' <= s + 8 /\
    (0 < s -> s' < 100 -> s' = s + 8).
Proof.
  intros Hw Hr Hp Hk.
  destruct (Forall_exists_Forall2 _ _ Hw) as [ns Hns].
  assert (Hp' : small (length positive_indicators)) by (unfold small in *; lia).
  assert (Hp'' : small (length (positive_indicators ++ [indicator]))).
  { rewrite length_app. cbn [length]. unfold small in *. lia. }
  rewrite (_calculate_score_exact _ _ _ ns Hns Hr Hp' Hk).
  rewrite (_calculate_score_exact _ _ _ ns Hns Hr Hp'' Hk).
  eexists _, _. split; [reflexivity |]. split; [reflexivity |].
  unfold doubled. rewrite length_app. cbn [length].
  set (k := 2 * (50 - penalties red_flags + 8 * Z.of_nat (length positive_indicators))
            + keyword_total keywords ns).
  replace (2 * (50 - penalties red_flags
                + 8 * Z.of_nat (length positive_indicators + 1))
           + keyword_total keywords ns)
    with (k + 16) by (subst k; lia).
  apply clamp_quot_rise.
Qed.

(** A second indicator, between the clamps. *)
Lemma score_additional_indicator_witness :
  Forall (fun keyword => exists n, tenths_of keyword n)
    [sample_keyword "negative" 5] /\
  small (length [sample_flag "high"]) /\
  small (S (length [sample_indicator])) /\
  small (length [sample_keyword "negative" 5]) /\
  exists s s',
    _calculate_score [sample_flag "high"] [sample_indicator]
      [sample_keyword "negative" 5] = Some s /\
    _calculate_score [sample_flag "high"] ([sample_indicator] ++ [sample_indicator])
      [sample_keyword "negative" 5] = Some s' /\
    s <= s' <= s + 8 /\
    (0 < s -> s' < 100 -> s' = s + 8).
Proof.
  assert (Hw : Forall (fun keyword => exists n, tenths_of keyword n)
                 [sample_keyword "negative" 5]).
  { constructor; [| constructor]. exists 5. split; [lia | reflexivity]. }
  assert (Hr : small (length [sample_flag "high"])) by (vm_compute; discriminate).
  assert (Hp : small (S (length [sample_indicator]))) by (vm_compute; discriminate).
  assert (Hk : small (length [sample_keyword "negative" 5]))
    by (vm_compute; discriminate).
  split; [exact Hw |]. split; [exact Hr |]. split; [exact Hp |].
  split; [exact Hk |].
  exact (score_additional_indicator [sample_flag "high"] [sample_indicator]
           [sample_keyword "negative" 5] sample_indicator Hw Hr Hp Hk).
Defined.

Lemma keyword_total_Permutation (keywords keywords' : list Keyword) :
  keywords ≡ₚ keywords' ->
  forall ns, Forall2 tenths_of keywords ns ->
  exists ns', Forall2 tenths_of keywords' ns' /\
              keyword_total keywords ns = keyword_total keywords' ns'.
Proof.
  induction 1 as [| x l l' _ IH | x y l | l l' l'' _ IH1 _ IH2]; intros ns Hns.
  - exists ns. split; [exact Hns | reflexivity].
  - inversion Hns as [| ? n ? ns0 Hx Hl]; subst.
    destruct (IH _ Hl) as (ns' & H' & E).
    exists (n :: ns'). split; [constructor; assumption |].
    cbn [keyword_total]. lia.
  - inversion Hns as [| ? n ? ns0 Hy Hl]; subst.
    inversion Hl as [| ? m ? ns1 Hx Hl']; subst.
    exists (m :: n :: ns1).
    split; [constructor; [assumption | constructor; assumption] |].
    cbn [keyword_total]. lia.
  - destruct (IH1 _ Hns) as (ns' & H' & E).
    destruct (IH2 _ H') as (ns'' & H'' & E').
    exists ns''. split; [exact H'' | lia].
Qed.

(** X5.  With the weights the extractor produces, the floating-point sum of the
    keyword contributions does not depend on the order of the keywords. *)
Theorem score_ignores_keyword_order (red_flags : list RedFlag)
    (positive_indicators : list PositiveIndicator)
    (keywords keywords' : list Keyword) :
  keywords ≡ₚ keywords' ->
  Forall (fun keyword => exists n, tenths_of keyword n) keywords ->
  small (length red_flags) -> small (length positive_indicators) ->
  small (length keywords) ->
  _calculate_score red_flags positive_indicators keywords =
  _calculate_score red_flags positive_indicators keywords'.
Proof.
  intros Hperm Hw Hr Hp Hk.
  destruct (Forall_exists_Forall2 _ _ Hw) as [ns Hns].
  destruct (keyword_total_Permutation _ _ Hperm ns Hns) as (ns' & Hns' & E).
  assert (Hk' : small (length keywords')).
  { rewrite <- (Permutation_length Hperm). exact Hk. }
  rewrite (_calculate_score_exact _ _ _ ns Hns Hr Hp Hk).
  rewrite (_calculate_score_exact _ _ _ ns' Hns' Hr Hp Hk').
  unfold doubled. rewrite E. reflexivity.
Qed.

(** Two keywords in either order. *)
Lemma score_ignores_keyword_order_witness :
  [sample_keyword "positive" 7; sample_keyword "negative" 4] ≡ₚ
    [sample_keyword "negative" 4; sample_keyword "positive" 7] /\
  Forall (fun keyword => exists n, tenths_of keyword n)
    [sample_keyword "positive" 7; sample_keyword "negative" 4] /\
  small (length [sample_flag "low"]) /\ small (length [sample_indicator]) /\
  small (length [sample_keyword "positive" 7; sample_keyword "negative" 4]) /\
  _calculate_score [sample_flag "low"] [sample_indicator]
    [sample_keyword "positive" 7; sample_keyword "negative" 4] =
  _calculate_score [sample_flag "low"] [sample_indicator]
    [sample_keyword "negative" 4; sample_keyword "positive" 7].
Proof.
  assert (H0 : [sample_keyword "positive" 7; sample_keyword "negative" 4] ≡ₚ
               [sample_keyword "negative" 4; sample_keyword "positive" 7])
    by apply perm_swap.
  assert (Hw : Forall (fun keyword => exists n, tenths_of keyword n)
                 [sample_keyword "positive" 7; sample_keyword "negative" 4]).
  { constructor; [exists 7; split; [lia | reflexivity] |].
    constructor; [exists 4; split; [lia | reflexivity] | constructor]. }
  assert (Hr : small (length [sample_flag "low"])) by (vm_compute; discriminate).
  assert (Hp : small (length [sample_indicator])) by (vm_compute; discriminate).
  assert (Hk : small (length [sample_keyword "positive" 7;
                              sample_keyword "negative" 4]))
    by (vm_compute; discriminate).
  split; [exact H0 |]. split; [exact Hw |]. split; [exact Hr |].
  split; [exact Hp |]. split; [exact Hk |].
  exact (score_ignores_keyword_order [sample_flag "low"] [sample_indicator]
           _ _ H0 Hw Hr Hp Hk).
Defined.

(** X6.  With the weights the extractor produces, no addition of
    [_calculate_score] rounds: the score is the clamped truncation of the
    exact half-integer [50 - penalties + 8 * indicators + sum of +-n/2]. *)
Theorem score_is_exact (red_flags : list RedFlag)
    (positive_indicators : list PositiveIndicator)
    (keywords : list Keyword) (ns : list Z) :
  Forall2 tenths_of keywords ns ->
  small (length red_flags) -> small (length positive_indicators) ->
  small (length keywords) ->
  _calculate_score red_flags positive_indicators keywords =
  Some (clamp (Z.quot
                 (2 * (50 - penalties red_flags
                       + 8 * Z.of_nat (length positive_indicators))
                  + keyword_total keywords ns) 2)).
Proof.
  intros Hns Hr Hp Hk.
  exact (_calculate_score_exact _ _ _ ns Hns Hr Hp Hk).
Qed.

(** One flag, one indicator and two keywords. *)
Lemma score_is_exact_witness :
  Forall2 tenths_of [sample_keyword "positive" 7; sample_keyword "negative" 4]
    [7; 4] /\
  small (length [sample_flag "low"]) /\ small (length [sample_indicator]) /\
  small (length [sample_keyword "positive" 7; sample_keyword "negative" 4]) /\
  _calculate_score [sample_flag "low"] [sample_indicator]
    [sample_keyword "positive" 7; sample_keyword "negative" 4] =
  Some (clamp (Z.quot
                 (2 * (50 - penalties [sample_flag "low"]
                       + 8 * Z.of_nat (length [sample_indicator]))
                  + keyword_total
                      [sample_keyword "positive" 7; sample_keyword "negative" 4]
                      [7; 4]) 2)).
Proof.
  assert (Hw : Forall2 tenths_of
                 [sample_keyword "positive" 7; sample_keyword "negative" 4] [7; 4]).
  { constructor; [split; [lia | reflexivity] |].
    constructor; [split; [lia | reflexivity] | constructor]. }
  assert (Hr : small (length [sample_flag "low"])) by (vm_compute; discriminate).
  assert (Hp : small (length [sample_indicator])) by (vm_compute; discriminate).
  assert (Hk : small (length [sample_keyword "positive" 7;
                              sample_keyword "negative" 4]))
    by (vm_compute; discriminate).
  split; [exact Hw |]. split; [exact Hr |]. split; [exact Hp |].
  split; [exact Hk |].
  exact (score_is_exact _ _ _ _ Hw Hr Hp Hk).
Defined.

(** * Further properties of the detectors *)

Section Runs.
Context (db : unicode_db) (ignorecase : bool).

Lemma run_length (a : atom) (n : nat) (prev : option N) (s : pystr) :
  (n < length (run db ignorecase a prev s))%nat <->
  exists middle after,
    s = middle ++ after /\ length middle = n /\
    Forall (fun c => atom_matches db ignorecase a c = true) middle.
Proof.
  revert n prev. induction s as [| c s IH]; intros n prev; cbn [run length].
  - split.
    + intros H. exists [], []. assert (n = 0%nat) by lia. subst. auto.
    + intros (middle & after & E & Hl & _).
      symmetry in E. apply app_eq_nil in E. destruct E as [-> _].
      cbn in Hl. lia.
  - destruct (atom_matches db ignorecase a c) eqn:Ec.
    + destruct n as [| n].
      * split; [| lia]. intros _. exists [], (c :: s). auto.
      * split.
        -- intros H. apply PeanoNat.lt_S_n in H. apply IH in H.
           destruct H as (middle & after & -> & Hl & Hall).
           exists (c :: middle), after. cbn [length]. split; [reflexivity |].
           split; [lia | constructor; assumption].
        -- intros (middle & after & E & Hl & Hall).
           destruct middle as [| c' middle]; [discriminate Hl |].
           injection E as <- ->. inversion Hall; subst.
           apply -> PeanoNat.Nat.succ_lt_mono. apply IH.
           exists middle, after. cbn [length] in Hl. split; [reflexivity |].
           split; [lia | assumption].
    + cbn [length]. split.
      * intros H. assert (n = 0%nat) by lia. subst.
        exists [], (c :: s). auto.
      * intros (middle & after & E & Hl & Hall).
        destruct middle as [| c' middle]; [cbn in Hl; lia |].
        injection E as <- ->. inversion Hall; subst. congruence.
Qed.

Lemma rmatch_AtLeast_nonempty (a : atom) (n : nat) (prev : option N) (s : pystr) :
  rmatch db ignorecase (AtLeast n a) prev s <> [] <->
  exists middle after,
    s = middle ++ after /\ length middle = n /\
    Forall (fun c => atom_matches db ignorecase a c = true) middle.
Proof.
  rewrite <- (run_length a n prev s). cbn [rmatch].
  split.
  - intros H. destruct (decide (n < length (run db ignorecase a prev s))%nat)
      as [Hlt | Hge]; [exact Hlt |].
    exfalso. apply H. rewrite drop_ge by lia. reflexivity.
  - intros Hlt E. apply (f_equal length) in E.
    rewrite length_rev, length_drop in E. cbn [length] in E. lia.
Qed.

Lemma search_from_AtLeast (a : atom) (n : nat) (prev : option N) (s : pystr) :
  search_from db ignorecase (AtLeast n a) prev s = true <->
  has_run (atom_matches db ignorecase a) n s.
Proof.
  revert prev. induction s as [| c s IH]; intros prev.
  - cbn [search_from].
    pose proof (rmatch_AtLeast_nonempty a n prev []) as Hm.
    destruct (rmatch db ignorecase (AtLeast n a) prev []) as [| q qs].
    + split; [discriminate |].
      intros (before & middle & after & E & Hl & Hall).
      symmetry in E. apply app_eq_nil in E. destruct E as [-> E].
      exfalso. apply (proj2 Hm); [| reflexivity].
      exists middle, after. auto.
    + split; [| reflexivity]. intros _.
      destruct (proj1 Hm ltac:(discriminate)) as (middle & after & E & Hl & Hall).
      exists [], middle, after. auto.
  - cbn [search_from].
    pose proof (rmatch_AtLeast_nonempty a n prev (c :: s)) as Hm.
    destruct (rmatch db ignorecase (AtLeast n a) prev (c :: s)) as [| q qs].
    + rewrite IH. split.
      * intros (before & middle & after & -> & Hl & Hall).
        exists (c :: before), middle, after. auto.
      * intros (before & middle & after & E & Hl & Hall).
        destruct before as [| c' before].
        -- exfalso. apply (proj2 Hm); [| reflexivity].
           exists middle, after. auto.
        -- injection E as <- ->. exists before, middle, after. auto.
    + split; [| reflexivity]. intros _.
      destruct (proj1 Hm ltac:(discriminate)) as (middle & after & E & Hl & Hall).
      exists [], middle, after. auto.
Qed.
End Runs.

Lemma ascii_ci_range_letters (c : N) :
  u_ci_range ascii_db 65 90 c = ascii_letter c.
Proof.
  cbn [u_ci_range ascii_db]. unfold ascii_letter, ascii_lower, ascii_upper, in_range.
  destruct (65 <=? c)%N eqn:E1, (c <=? 90)%N eqn:E2, (97 <=? c)%N eqn:E3,
    (c <=? 122)%N eqn:E4; cbn [andb orb];
    repeat match goal with
           | H : (_ <=? _)%N = true |- _ => apply N.leb_le in H
           | H : (_ <=? _)%N = false |- _ => apply N.leb_gt in H
           end;
    try lia;
    repeat match goal with
           | |- context [(?x <=? ?y)%N] =>
               let E := fresh in
               destruct (x <=? y)%N eqn:E;
               [apply N.leb_le in E | apply N.leb_gt in E]
           end; cbn [andb orb]; try reflexivity; lia.
Qed.

(** A rule of the red-flag table fires exactly when a flag with its
    description is returned. *)
Lemma description_in_flags (db : unicode_db) (uuid4 : nat -> string)
    (text : pystr) (k : nat) (rule : red_flag_pattern) :
  rule ∈ RED_FLAG_PATTERNS ->
  fp_description rule ∈ map rf_description (fst (_find_red_flags db uuid4 text k)) <->
  re_search db true (fp_pattern rule) text = true.
Proof.
  intros Hrule. rewrite _find_red_flags_spec. cbn [fst].
  rewrite flags_of_description. unfold matching_flag_rules.
  rewrite list_elem_of_fmap. split.
  - intros (rule' & E & Hin). apply list_elem_of_filter in Hin.
    destruct Hin as [Hsearch Hin'].
    assert (rule' = rule); [| subst; exact Hsearch].
    clear Hsearch. unfold RED_FLAG_PATTERNS in Hrule, Hin'.
    repeat (apply elem_of_cons in Hrule; destruct Hrule as [-> | Hrule]);
      try (apply elem_of_nil in Hrule; destruct Hrule);
      repeat (apply elem_of_cons in Hin'; destruct Hin' as [-> | Hin']);
      try (apply elem_of_nil in Hin'; destruct Hin');
      try reflexivity; discriminate E.
  - intros Hsearch. exists rule. split; [reflexivity |].
    apply list_elem_of_filter. split; assumption.
Qed.

(** X7.  The flag "Excessive use of capital letters" is returned exactly when
    the text holds five consecutive characters that [[A-Z]] matches under
    [re.IGNORECASE]; with the ASCII database, five consecutive letters of
    either case. *)
Theorem capital_letters_flag (db : unicode_db) (uuid4 : nat -> string)
    (text : pystr) (k : nat) :
  ("Excessive use of capital letters"%string
     ∈ map rf_description (fst (_find_red_flags db uuid4 text k)) <->
   has_run (u_ci_range db 65 90) 5 text) /\
  ("Excessive use of capital letters"%string
     ∈ map rf_description (fst (_find_red_flags ascii_db uuid4 text k)) <->
   has_run ascii_letter 5 text).
Proof.
  assert (Hrule : {| fp_pattern := AtLeast 5 (Range (chr "A") (chr "Z"));
                     fp_description := "Excessive use of capital letters";
                     fp_severity := "low" |} ∈ RED_FLAG_PATTERNS).
  { unfold RED_FLAG_PATTERNS. do 4 apply list_elem_of_further.
    apply list_elem_of_here. }
  assert (G : forall db',
    "Excessive use of capital letters"%string
      ∈ map rf_description (fst (_find_red_flags db' uuid4 text k)) <->
    has_run (u_ci_range db' 65 90) 5 text).
  { intros db'.
    rewrite (description_in_flags db' uuid4 text k _ Hrule).
    cbn [fp_pattern]. unfold re_search. rewrite search_from_AtLeast.
    reflexivity. }
  split; [apply G |].
  rewrite G. unfold has_run.
  split; intros (before & middle & after & E & Hl & Hall);
    exists before, middle, after; (split; [exact E |]); (split; [exact Hl |]);
    eapply Forall_impl; try exact Hall; intros c Hc; cbn beta in *;
    [rewrite <- ascii_ci_range_letters | rewrite ascii_ci_range_letters]; exact Hc.
Qed.

(** X8.  The flag "Excessive exclamation marks" is returned exactly when the
    text holds two consecutive characters that match [!]. *)
Theorem exclamation_marks_flag (db : unicode_db) (uuid4 : nat -> string)
    (text : pystr) (k : nat) :
  "Excessive exclamation marks"%string
    ∈ map rf_description (fst (_find_red_flags db uuid4 text k)) <->
  has_run (u_ci_eq db 33) 2 text.
Proof.
  assert (Hrule : {| fp_pattern := AtLeast 2 (Chr (chr "!"));
                     fp_description := "Excessive exclamation marks";
                     fp_severity := "low" |} ∈ RED_FLAG_PATTERNS).
  { unfold RED_FLAG_PATTERNS. do 5 apply list_elem_of_further.
    apply list_elem_of_here. }
  rewrite (description_in_flags db uuid4 text k _ Hrule).
  cbn [fp_pattern]. unfold re_search. rewrite search_from_AtLeast.
  reflexivity.
Qed.

Lemma flags_of_ids (uuid4 : nat -> string) (rules : list red_flag_pattern) (k : nat) :
  map rf_id (flags_of uuid4 rules k) =
  map (String.append "rf-") (draws uuid4 k (length rules)).
Proof.
  unfold draws. revert k.
  induction rules as [| rule rules IH]; intros k; cbn [flags_of map length seq].
  - reflexivity.
  - rewrite IH. reflexivity.
Qed.

Lemma indicators_of_ids (uuid4 : nat -> string) (rules : list indicator_pattern)
    (k : nat) :
  map pi_id (indicators_of uuid4 rules k) =
  map (String.append "pi-") (draws uuid4 k (length rules)).
Proof.
  unfold draws. revert k.
  induction rules as [| rule rules IH]; intros k; cbn [indicators_of map length seq].
  - reflexivity.
  - rewrite IH. reflexivity.
Qed.

Lemma draws_app (uuid4 : nat -> string) (k n m : nat) :
  draws uuid4 k (n + m) = draws uuid4 k n ++ draws uuid4 (k + n) m.
Proof. unfold draws. rewrite seq_app, map_app. reflexivity. Qed.

(** X9.  [_find_red_flags] draws one identifier per flag, returns at most 8
    flags, whose descriptions and severities are taken from the table in
    table order, each rule at most once, and whose identifiers are "rf-"
    followed by the first 8 characters of the successive draws. *)
Theorem red_flags_structure (db : unicode_db) (uuid4 : nat -> string)
    (text : pystr) (k : nat) :
  let flags := fst (_find_red_flags db uuid4 text k) in
  snd (_find_red_flags db uuid4 text k) = (k + length flags)%nat /\
  (length flags <= 8)%nat /\
  map (fun flag => (rf_description flag, rf_severity flag)) flags
    `sublist_of`
    map (fun rule => (fp_description rule, fp_severity rule)) RED_FLAG_PATTERNS /\
  map rf_id flags = map (String.append "rf-") (draws uuid4 k (length flags)).
Proof.
  cbn zeta. rewrite _find_red_flags_spec. cbn [fst snd].
  rewrite flags_of_length.
  split; [reflexivity |].
  split; [apply matching_flag_rules_length |].
  split.
  - assert (E : map (fun flag => (rf_description flag, rf_severity flag))
                  (flags_of uuid4 (matching_flag_rules db text) k) =
                map (fun rule => (fp_description rule, fp_severity rule))
                  (matching_flag_rules db text)).
    { generalize (matching_flag_rules db text). intros rules. revert k.
      induction rules as [| rule rules IH]; intros k; cbn [flags_of map].
      - reflexivity.
      - rewrite IH. reflexivity. }
    rewrite E. apply fmap_sublist. apply sublist_filter.
  - apply flags_of_ids.
Qed.

(** X10.  [_find_positive_indicators] draws one identifier per indicator,
    returns at most 6 indicators, whose descriptions and icons are taken
    from the table in table order, each rule at most once, and whose
    identifiers are "pi-" followed by the first 8 characters of the
    successive draws. *)
Theorem positive_indicators_structure (db : unicode_db) (uuid4 : nat -> string)
    (text : pystr) (k : nat) :
  let indicators := fst (_find_positive_indicators db uuid4 text k) in
  snd (_find_positive_indicators db uuid4 text k) = (k + length indicators)%nat /\
  (length indicators <= 6)%nat /\
  map (fun indicator => (pi_description indicator, pi_icon indicator)) indicators
    `sublist_of`
    map (fun rule => (ip_description rule, ip_icon rule))
      POSITIVE_INDICATORS_PATTERNS /\
  map pi_id indicators =
    map (String.append "pi-") (draws uuid4 k (length indicators)).
Proof.
  cbn zeta. rewrite _find_positive_indicators_spec. cbn [fst snd].
  rewrite indicators_of_length.
  split; [reflexivity |].
  split; [apply matching_indicator_rules_length |].
  split.
  - assert (E : map (fun indicator => (pi_description indicator, pi_icon indicator))
                  (indicators_of uuid4 (matching_indicator_rules db text) k) =
                map (fun rule => (ip_description rule, ip_icon rule))
                  (matching_indicator_rules db text)).
    { generalize (matching_indicator_rules db text). intros rules. revert k.
      induction rules as [| rule rules IH]; intros k; cbn [indicators_of map].
      - reflexivity.
      - rewrite IH. reflexivity. }
    rewrite E. apply fmap_sublist. apply sublist_filter.
  - apply indicators_of_ids.
Qed.

Lemma append_inj (p s s' : string) : p +:+ s = p +:+ s' -> s = s'.
Proof.
  induction p as [| c p IH]; cbn [String.append]; intros E.
  - exact E.
  - injection E as E. apply IH, E.
Qed.

(** X11.  An analysis draws one identifier per flag and per indicator; when
    the draws differ in their first 8 characters, all the identifiers of
    the result are distinct. *)
Theorem analysis_identifiers_distinct (db : unicode_db) (uuid4 : nat -> string)
    (text : pystr) (k k' : nat) (result : AnalysisResult) :
  analyze_content db uuid4 text k = Some (result, k') ->
  NoDup (draws uuid4 k (k' - k)) ->
  k' = (k + length (red_flags result) + length (positive_indicators result))%nat /\
  NoDup (map rf_id (red_flags result) ++ map pi_id (positive_indicators result)).
Proof.
  intros Hrun Hdraws.
  destruct (analyze_content_spec db uuid4 text k) as (s & _ & _ & E).
  rewrite E in Hrun. injection Hrun as <- <-.
  cbn [red_flags positive_indicators].
  rewrite flags_of_length, indicators_of_length.
  split; [reflexivity |].
  rewrite flags_of_ids, indicators_of_ids.
  set (a := length (matching_flag_rules db text)) in *.
  set (b := length (matching_indicator_rules db text)) in *.
  replace (k + a + b - k)%nat with (a + b)%nat in Hdraws by lia.
  rewrite draws_app in Hdraws.
  apply NoDup_app in Hdraws. destruct Hdraws as (Ha & _ & Hb).
  apply NoDup_app. split; [| split].
  - apply NoDup_fmap_2; [| exact Ha]. intros x y. apply append_inj.
  - intros x Hx Hy.
    apply list_elem_of_fmap in Hx. destruct Hx as (x' & -> & _).
    apply list_elem_of_fmap in Hy. destruct Hy as (y' & Ey & _).
    discriminate Ey.
  - apply NoDup_fmap_2; [| exact Hb]. intros x y. apply append_inj.
Qed.

(** * Further properties of the keywords *)

(** An analysis with three flags and one indicator. *)
Lemma analysis_identifiers_distinct_witness :
  analyze_content ascii_db sample_uuid4 shocking_study 3 =
    Some (shocking_study_result, 7%nat) /\
  NoDup (draws sample_uuid4 3 (7 - 3)) /\
  7%nat = (3 + length (red_flags shocking_study_result)
           + length (positive_indicators shocking_study_result))%nat /\
  NoDup (map rf_id (red_flags shocking_study_result) ++
         map pi_id (positive_indicators shocking_study_result)).
Proof.
  assert (H1 : analyze_content ascii_db sample_uuid4 shocking_study 3 =
               Some (shocking_study_result, 7%nat)) by (vm_compute; reflexivity).
  assert (H2 : NoDup (draws sample_uuid4 3 (7 - 3)))
    by (apply (bool_decide_unpack _); vm_compute; exact I).
  split; [exact H1 |]. split; [exact H2 |].
  exact (analysis_identifiers_distinct ascii_db sample_uuid4 shocking_study 3 7
           shocking_study_result H1 H2).
Defined.

(** X12.  Every keyword returned is a word of the lowercased text that is
    longer than 3 characters and belongs to the table of its impact, and its
    weight is [min(1.0, 0.3 + 0.1 * n)] for the number [n] of occurrences of
    the word. *)
Theorem keywords_are_justified (db : unicode_db) (text : pystr) (keyword : Keyword) :
  keyword ∈ _extract_keywords db text ->
  let words := re_findall db false WORD_PATTERN (u_lower db text) in
  let freq := occurrences (kw_term keyword) words in
  kw_term keyword ∈ words /\
  (3 < length (kw_term keyword))%nat /\
  1 <= freq /\
  kw_weight keyword = dec (Z.min 10 (3 + freq)) 1 /\
  ((kw_term keyword ∈ POSITIVE_KEYWORDS /\ kw_impact keyword = "positive"%string) \/
   (kw_term keyword ∈ NEGATIVE_KEYWORDS /\ kw_impact keyword = "negative"%string)).
Proof.
  intros Hin words freq.
  destruct (_extract_keywords_elem db text keyword Hin) as (n & Hf & Hw & Htable).
  apply word_frequencies_Some in Hf. destruct Hf as (Hlen & Hword & -> & Hpos).
  split; [exact Hword |]. split; [exact Hlen |]. split; [exact Hpos |].
  split; [| exact Htable].
  rewrite Hw. apply keyword_weight_tenths. exact Hpos.
Qed.

(** The keyword "shocking" of the same text. *)
Lemma keywords_are_justified_witness :
  {| kw_term := codes "shocking"; kw_impact := "negative"; kw_weight := dec 4 1 |}
    ∈ _extract_keywords ascii_db shocking_study /\
  codes "shocking"
    ∈ re_findall ascii_db false WORD_PATTERN (u_lower ascii_db shocking_study) /\
  (3 < length (codes "shocking"))%nat /\
  1 <= occurrences (codes "shocking")
         (re_findall ascii_db false WORD_PATTERN (u_lower ascii_db shocking_study)) /\
  dec 4 1 =
    dec (Z.min 10
           (3 + occurrences (codes "shocking")
                  (re_findall ascii_db false WORD_PATTERN
                     (u_lower ascii_db shocking_study)))) 1 /\
  ((codes "shocking" ∈ POSITIVE_KEYWORDS /\ "negative"%string = "positive"%string) \/
   (codes "shocking" ∈ NEGATIVE_KEYWORDS /\ "negative"%string = "negative"%string)).
Proof.
  assert (H : {| kw_term := codes "shocking"; kw_impact := "negative";
                 kw_weight := dec 4 1 |} ∈ _extract_keywords ascii_db shocking_study).
  { replace (_extract_keywords ascii_db shocking_study)
      with (keywords shocking_study_result) by (vm_compute; reflexivity).
    right. left. }
  split; [exact H |].
  exact (keywords_are_justified ascii_db shocking_study _ H).
Defined.

Lemma tables_NoDup : NoDup (POSITIVE_KEYWORDS ++ NEGATIVE_KEYWORDS).
Proof. apply (bool_decide_unpack _). vm_compute. exact I. Qed.

(** X13.  No term is returned twice by [_extract_keywords]. *)
Theorem keyword_terms_distinct (db : unicode_db) (text : pystr) :
  NoDup (map kw_term (_extract_keywords db text)).
Proof.
  rewrite _extract_keywords_spec. cbn zeta.
  rewrite <- firstn_map, map_app, !keyword_entries_terms.
  eapply sublist_NoDup; [| apply sublist_take].
  unfold present_terms. rewrite <- filter_app.
  apply NoDup_filter, tables_NoDup.
Qed.

(** X14.  The dictionary [word_freq] of a text maps every token longer than
    3 characters to its number of occurrences and has no other key; every
    key is made of the letters a-z and every count is at least 1. *)
Theorem word_frequency_counts (db : unicode_db) (text w : pystr) :
  let words := re_findall db false WORD_PATTERN (u_lower db text) in
  text_frequencies db text !! w =
    (if decide ((3 < length w)%nat /\ w ∈ words)
     then Some (occurrences w words)
     else None) /\
  (forall n, text_frequencies db text !! w = Some n ->
     1 <= n /\ Forall (fun c => lower_letter c = true) w).
Proof.
  cbn zeta. unfold text_frequencies. split.
  - apply word_frequencies_lookup.
  - intros n Hn. apply word_frequencies_Some in Hn.
    destruct Hn as (_ & Hw & _ & Hpos). split; [exact Hpos |].
    pose proof (words_are_lower_letters db (u_lower db text)) as Hall.
    rewrite Forall_forall in Hall. exact (proj2 (Hall _ Hw)).
Qed.

(** X15.  The weight of a keyword is exactly 1.0 from 7 occurrences on, and
    strictly increasing below. *)
Theorem keyword_weight_saturates (freq freq' : Z) :
  (7 <= freq -> keyword_weight freq = float_of_int 1) /\
  (1 <= freq -> freq < freq' -> freq' <= 7 ->
   flt (keyword_weight freq) (keyword_weight freq') = true).
Proof.
  split.
  - intros H. destruct (keyword_weight_tenths freq ltac:(lia)) as [_ ->].
    replace (Z.min 10 (3 + freq)) with 10 by lia. vm_compute. reflexivity.
  - intros H1 H2 H3.
    destruct (keyword_weight_tenths freq ltac:(lia)) as [_ ->].
    destruct (keyword_weight_tenths freq' ltac:(lia)) as [_ ->].
    replace (Z.min 10 (3 + freq)) with (3 + freq) by lia.
    replace (Z.min 10 (3 + freq')) with (3 + freq') by lia.
    assert (C : freq = 1 \/ freq = 2 \/ freq = 3 \/ freq = 4 \/ freq = 5 \/ freq = 6)
      by lia.
    assert (C' : freq' = 2 \/ freq' = 3 \/ freq' = 4 \/ freq' = 5 \/ freq' = 6
                 \/ freq' = 7) by lia.
    destruct C as [-> | [-> | [-> | [-> | [-> | ->]]]]];
      destruct C' as [-> | [-> | [-> | [-> | [-> | ->]]]]];
      try lia; vm_compute; reflexivity.
Qed.

(** * The overview *)

Lemma lower_string_cons (c : ascii) (s : string) :
  lower_string (String c s) =
  String (ascii_of_N (ascii_lower (N_of_ascii c))) (lower_string s).
Proof. reflexivity. Qed.

Lemma lower_string_app (s1 s2 : string) :
  lower_string (s1 +:+ s2) = lower_string s1 +:+ lower_string s2.
Proof.
  induction s1 as [| c s1 IH]; [reflexivity |].
  change (String c s1 +:+ s2) with (String c (s1 +:+ s2)).
  rewrite !lower_string_cons, IH. reflexivity.
Qed.

Lemma is_digit_lower (c : ascii) :
  is_digit c = true -> ascii_of_N (ascii_lower (N_of_ascii c)) = c.
Proof.
  unfold is_digit, ascii_lower, in_range. intros H.
  apply andb_prop in H. destruct H as [H1 H2].
  apply N.leb_le in H1, H2.
  destruct (65 <=? N_of_ascii c)%N eqn:E; [apply N.leb_le in E; lia |].
  cbn [andb]. apply ascii_N_embedding.
Qed.

Lemma lower_string_digits (s : string) :
  all_digits s = true -> lower_string s = s.
Proof.
  induction s as [| c s IH]; [reflexivity |].
  cbn [all_digits]. intros H. apply andb_prop in H. destruct H as [Hc Hs].
  rewrite lower_string_cons, (is_digit_lower c Hc), (IH Hs). reflexivity.
Qed.

Lemma pretty_N_char_digit (x : N) : is_digit (pretty_N_char x) = true.
Proof.
  unfold pretty_N_char.
  repeat match goal with
         | |- context [match ?y with _ => _ end] => destruct y
         end; reflexivity.
Qed.

Lemma pretty_N_go_digits (x : N) (s : string) :
  all_digits s = true -> all_digits (pretty_N_go x s) = true.
Proof.
  revert s. induction (N.lt_wf_0 x) as [x _ IH]. intros s Hs.
  destruct (decide (0 < x)%N) as [Hx | Hx].
  - rewrite pretty_N_go_step by exact Hx.
    apply IH; [apply N.div_lt; [exact Hx | reflexivity] |].
    cbn [all_digits]. rewrite pretty_N_char_digit, Hs. reflexivity.
  - assert (x = 0%N) by lia. subst. rewrite pretty_N_go_0. exact Hs.
Qed.

Lemma pretty_nat_digits (n : nat) : all_digits (pretty n) = true.
Proof.
  unfold pretty, pretty_nat, pretty, pretty_N.
  destruct (decide (N.of_nat n = 0%N)); [reflexivity |].
  apply pretty_N_go_digits. reflexivity.
Qed.

Lemma capitalize_cons (c : ascii) (s : string) :
  capitalize (String c s) =
  String (ascii_of_N (ascii_upper (N_of_ascii c))) (lower_string s).
Proof. reflexivity. Qed.

Lemma append_cons (c : ascii) (s1 s2 : string) :
  String c s1 +:+ s2 = String c (s1 +:+ s2).
Proof. reflexivity. Qed.

Lemma append_assoc (s1 s2 s3 : string) : (s1 +:+ s2) +:+ s3 = s1 +:+ (s2 +:+ s3).
Proof.
  induction s1 as [| c s1 IH]; [reflexivity |].
  change (String c s1 +:+ s2) with (String c (s1 +:+ s2)).
  change (String c (s1 +:+ s2) +:+ s3) with (String c ((s1 +:+ s2) +:+ s3)).
  rewrite IH. reflexivity.
Qed.

Lemma lower_found (n : nat) (rest : string) :
  lower_string ("ound " +:+ pretty n +:+ rest) =
  "ound " +:+ pretty n +:+ lower_string rest.
Proof.
  rewrite !lower_string_app, (lower_string_digits _ (pretty_nat_digits n)).
  reflexivity.
Qed.

Lemma lower_identified (m : nat) (rest : string) :
  lower_string ("dentified " +:+ pretty m +:+ rest) =
  "dentified " +:+ pretty m +:+ lower_string rest.
Proof.
  rewrite !lower_string_app, (lower_string_digits _ (pretty_nat_digits m)).
  reflexivity.
Qed.

Theorem overview_text (score : Z) (red_flags : list RedFlag)
    (positive_indicators : list PositiveIndicator) :
  _generate_overview score red_flags positive_indicators =
  assessment_of score
  +:+ findings_of (length positive_indicators) (length red_flags).
Proof.
  unfold _generate_overview, assessment_of.
  set (a := if 80 <=? score then _ else _). clearbody a.
  destruct positive_indicators as [| indicator indicators];
    destruct red_flags as [| flag flags]; cbn [app length findings_of join].
  - induction a as [| c a IH]; [reflexivity |].
    change (String c a +:+ "") with (String c (a +:+ "")).
    rewrite <- IH. reflexivity.
  - f_equal.
    change ("identified " +:+ pretty (S (length flags)) +:+ " red flag(s)")
      with (String "i" ("dentified " +:+ pretty (S (length flags)) +:+ " red flag(s)")).
    rewrite capitalize_cons, lower_identified.
    rewrite (append_cons _ (_ +:+ _) "."), !append_assoc. reflexivity.
  - f_equal.
    change ("Found " +:+ pretty (S (length indicators)) +:+ " positive indicator(s)")
      with (String "F" ("ound " +:+ pretty (S (length indicators))
                        +:+ " positive indicator(s)")).
    rewrite capitalize_cons, lower_found.
    rewrite (append_cons _ (_ +:+ _) "."), !append_assoc. reflexivity.
  - f_equal.
    change (("Found " +:+ pretty (S (length indicators)) +:+ " positive indicator(s)")
            +:+ " and "
            +:+ "identified " +:+ pretty (S (length flags)) +:+ " red flag(s)")
      with (String "F"
              (("ound " +:+ pretty (S (length indicators)) +:+ " positive indicator(s)")
               +:+ " and "
               +:+ "identified " +:+ pretty (S (length flags)) +:+ " red flag(s)")).
    rewrite capitalize_cons.
    rewrite !append_assoc.
    rewrite lower_found.
    change (" positive indicator(s)" +:+ " and " +:+ "identified "
            +:+ pretty (S (length flags)) +:+ " red flag(s)")
      with (" positive indicator(s) and i" +:+ "dentified "
            +:+ pretty (S (length flags)) +:+ " red flag(s)").
    rewrite lower_string_app, lower_identified.
    rewrite (append_cons _ (_ +:+ _) "."), !append_assoc. reflexivity.
Qed.

Lemma digits_split (d1 d2 r1 r2 : string) :
  all_digits d1 = true -> all_digits d2 = true ->
  starts_without_digit r1 = true -> starts_without_digit r2 = true ->
  d1 +:+ r1 = d2 +:+ r2 -> d1 = d2 /\ r1 = r2.
Proof.
  revert d2. induction d1 as [| c d1 IH]; intros d2 H1 H2 Hr1 Hr2 E.
  - destruct d2 as [| c' d2]; [split; [reflexivity | exact E] |].
    exfalso. change (r1 = String c' (d2 +:+ r2)) in E. subst r1.
    cbn [all_digits] in H2. apply andb_prop in H2. destruct H2 as [Hc _].
    cbn [starts_without_digit] in Hr1. rewrite Hc in Hr1. discriminate Hr1.
  - destruct d2 as [| c' d2].
    + exfalso. change (String c (d1 +:+ r1) = r2) in E. subst r2.
      cbn [all_digits] in H1. apply andb_prop in H1. destruct H1 as [Hc _].
      cbn [starts_without_digit] in Hr2. rewrite Hc in Hr2. discriminate Hr2.
    + change (String c (d1 +:+ r1) = String c' (d2 +:+ r2)) in E.
      injection E as <- E.
      cbn [all_digits] in H1, H2.
      apply andb_prop in H1. destruct H1 as [_ H1].
      apply andb_prop in H2. destruct H2 as [_ H2].
      destruct (IH d2 H1 H2 Hr1 Hr2 E) as [-> ->]. split; reflexivity.
Qed.

Lemma pretty_split (n n' : nat) (r r' : string) :
  starts_without_digit r = true -> starts_without_digit r' = true ->
  pretty n +:+ r = pretty n' +:+ r' -> n = n' /\ r = r'.
Proof.
  intros Hr Hr' E.
  destruct (digits_split _ _ _ _ (pretty_nat_digits n) (pretty_nat_digits n') Hr Hr' E)
    as [En Er].
  split; [| exact Er]. exact (pretty_nat_inj _ _ En).
Qed.

Lemma findings_of_inj (n m n' m' : nat) :
  findings_of n m = findings_of n' m' -> n = n' /\ m = m'.
Proof.
  destruct n as [| n], m as [| m], n' as [| n'], m' as [| m'];
    cbn [findings_of]; intros E;
    try (split; reflexivity);
    try discriminate E;
    try (apply (append_inj " ") in E; discriminate E).
  - (* flags only *)
    apply (append_inj " Identified ") in E.
    apply pretty_split in E; [| reflexivity | reflexivity].
    destruct E as [E _]. split; [reflexivity | exact E].
  - (* indicators only *)
    apply (append_inj " Found ") in E.
    apply pretty_split in E; [| reflexivity | reflexivity].
    destruct E as [E _]. split; [exact E | reflexivity].
  - (* indicators only, against both *)
    exfalso. apply (append_inj " Found ") in E.
    apply pretty_split in E; [| reflexivity | reflexivity].
    destruct E as [_ E].
    apply (append_inj " positive indicator(s)") in E. discriminate E.
  - exfalso. apply (append_inj " Found ") in E.
    apply pretty_split in E; [| reflexivity | reflexivity].
    destruct E as [_ E].
    apply (append_inj " positive indicator(s)") in E. discriminate E.
  - apply (append_inj " Found ") in E.
    apply pretty_split in E; [| reflexivity | reflexivity].
    destruct E as [En E].
    apply (append_inj " positive indicator(s) and identified ") in E.
    apply pretty_split in E; [| reflexivity | reflexivity].
    destruct E as [Em _]. split; assumption.
Qed.

Lemma assessment_prefix (s s' : Z) (f f' : string) :
  assessment_of s +:+ f = assessment_of s' +:+ f' ->
  assessment_of s = assessment_of s' /\ f = f'.
Proof.
  unfold assessment_of.
  destruct (80 <=? s), (60 <=? s), (40 <=? s), (20 <=? s),
    (80 <=? s'), (60 <=? s'), (40 <=? s'), (20 <=? s');
    intros E;
    first [ split; [reflexivity | exact (append_inj _ _ _ E)]
          | exfalso; vm_compute in E; congruence ].
Qed.

(** X17.  Two overviews are equal only if the scores fall in the same band and
    the numbers of flags and of indicators are the same. *)
Theorem overview_determines_band_and_counts (score score' : Z)
    (red_flags red_flags' : list RedFlag)
    (positive_indicators positive_indicators' : list PositiveIndicator) :
  _generate_overview score red_flags positive_indicators =
  _generate_overview score' red_flags' positive_indicators' ->
  (80 <=? score, 60 <=? score, 40 <=? score, 20 <=? score) =
  (80 <=? score', 60 <=? score', 40 <=? score', 20 <=? score') /\
  length red_flags = length red_flags' /\
  length positive_indicators = length positive_indicators'.
Proof.
  rewrite !overview_text. intros E.
  apply assessment_prefix in E. destruct E as [Ea Ef].
  apply findings_of_inj in Ef. destruct Ef as [Ep Er].
  split; [| split; assumption].
  clear -Ea. unfold assessment_of in Ea.
  destruct (Z.leb_spec 80 score), (Z.leb_spec 60 score), (Z.leb_spec 40 score),
    (Z.leb_spec 20 score), (Z.leb_spec 80 score'), (Z.leb_spec 60 score'),
    (Z.leb_spec 40 score'), (Z.leb_spec 20 score');
    try reflexivity; try lia; discriminate Ea.
Qed.

(** Two scores of the same band with one flag each. *)
Lemma overview_determines_band_and_counts_witness :
  _generate_overview 45 [sample_flag "low"] [] =
  _generate_overview 52 [sample_flag "high"] [] /\
  (80 <=? 45, 60 <=? 45, 40 <=? 45, 20 <=? 45) =
  (80 <=? 52, 60 <=? 52, 40 <=? 52, 20 <=? 52) /\
  length [sample_flag "low"] = length [sample_flag "high"] /\
  length (@nil PositiveIndicator) = length (@nil PositiveIndicator).
Proof.
  assert (H : _generate_overview 45 [sample_flag "low"] [] =
              _generate_overview 52 [sample_flag "high"] [])
    by (vm_compute; reflexivity).
  split; [exact H |].
  exact (overview_determines_band_and_counts 45 52 _ _ _ _ H).
Defined.

(** * Letter case *)

Ltac no_conditional t :=
  lazymatch t with
  | context [if _ then _ else _] => fail
  | _ => idtac
  end.

Ltac range_cases :=
  unfold ascii_lower, ascii_upper, ascii_word, in_range;
  repeat first
    [ progress cbn [andb orb negb]
    | match goal with
      | |- context [(?x <=? ?y)%N] =>
          no_conditional x; no_conditional y; destruct (N.leb_spec x y)
      | |- context [(?x =? ?y)%N] =>
          no_conditional x; no_conditional y; destruct (N.eqb_spec x y)
      end ];
  try reflexivity; try lia.

Lemma ascii_lower_idem (c : N) : ascii_lower (ascii_lower c) = ascii_lower c.
Proof. range_cases. Qed.

Lemma ascii_upper_lower (c : N) : ascii_upper (ascii_lower c) = ascii_upper c.
Proof. range_cases. Qed.

Lemma ascii_word_lower (c : N) : ascii_word (ascii_lower c) = ascii_word c.
Proof. range_cases. Qed.

Lemma atom_matches_lower (a : atom) (c : N) :
  atom_matches ascii_db true a (ascii_lower c) = atom_matches ascii_db true a c.
Proof.
  destruct a as [p | lo hi | ps]; cbn [atom_matches chr_matches u_ci_eq u_ci_range ascii_db].
  - rewrite ascii_lower_idem. reflexivity.
  - rewrite ascii_lower_idem, ascii_upper_lower. reflexivity.
  - rewrite ascii_lower_idem. reflexivity.
Qed.

Lemma is_word_lower (o : option N) :
  is_word ascii_db (option_map ascii_lower o) = is_word ascii_db o.
Proof. destruct o as [c |]; [apply ascii_word_lower | reflexivity]. Qed.

Lemma run_lower (a : atom) (prev : option N) (s : pystr) :
  run ascii_db true a (option_map ascii_lower prev) (map ascii_lower s) =
  map lower_position (run ascii_db true a prev s).
Proof.
  revert prev. induction s as [| c s IH]; intros prev; cbn [run map].
  - reflexivity.
  - rewrite atom_matches_lower.
    destruct (atom_matches ascii_db true a c); cbn [map]; [| reflexivity].
    f_equal. exact (IH (Some c)).
Qed.

Lemma rmatch_lower (r : regex) (prev : option N) (s : pystr) :
  rmatch ascii_db true r (option_map ascii_lower prev) (map ascii_lower s) =
  map lower_position (rmatch ascii_db true r prev s).
Proof.
  revert prev s. induction r as [| a | | r1 IH1 r2 IH2 | r1 IH1 r2 IH2 | n a];
    intros prev s; cbn [rmatch].
  - reflexivity.
  - destruct s as [| c s]; cbn [map]; [reflexivity |].
    rewrite atom_matches_lower.
    destruct (atom_matches ascii_db true a c); reflexivity.
  - rewrite is_word_lower.
    assert (E : is_word ascii_db (head (map ascii_lower s)) =
                is_word ascii_db (head s)).
    { destruct s as [| c s]; [reflexivity |]. exact (ascii_word_lower c). }
    rewrite E. destruct (xorb _ _); reflexivity.
  - rewrite IH1.
    generalize (rmatch ascii_db true r1 prev s). intros qs.
    induction qs as [| q qs IH]; cbn [map flat_map]; [reflexivity |].
    rewrite map_app. f_equal; [destruct q as [o t]; exact (IH2 o t) | exact IH].
  - rewrite map_app, IH1, IH2. reflexivity.
  - rewrite run_lower, map_rev, skipn_map. reflexivity.
Qed.

Lemma search_from_lower (r : regex) (prev : option N) (s : pystr) :
  search_from ascii_db true r (option_map ascii_lower prev) (map ascii_lower s) =
  search_from ascii_db true r prev s.
Proof.
  revert prev. induction s as [| c s IH]; intros prev; cbn [search_from map].
  - change (@nil N) with (map ascii_lower []) at 1. rewrite rmatch_lower.
    destruct (rmatch ascii_db true r prev []); reflexivity.
  - change (ascii_lower c :: map ascii_lower s) with (map ascii_lower (c :: s)).
    rewrite rmatch_lower.
    destruct (rmatch ascii_db true r prev (c :: s)); cbn [map]; [| reflexivity].
    exact (IH (Some c)).
Qed.

Lemma re_search_lower (r : regex) (text : pystr) :
  re_search ascii_db true r (map ascii_lower text) = re_search ascii_db true r text.
Proof. exact (search_from_lower r None text). Qed.

Lemma filter_ext_bool {A : Type} (f g : A -> bool) (l : list A) :
  (forall x, f x = g x) ->
  filter (fun x => f x = true) l = filter (fun x => g x = true) l.
Proof.
  intros H. induction l as [| x l IH]; [reflexivity |].
  rewrite !filter_cons, IH.
  destruct (decide (f x = true)) as [Hf | Hf], (decide (g x = true)) as [Hg | Hg];
    try reflexivity; rewrite H in Hf; contradiction.
Qed.

Lemma analyze_content_lower (uuid4 : nat -> string) (text : pystr) (k : nat) :
  analyze_content ascii_db uuid4 (map ascii_lower text) k =
  analyze_content ascii_db uuid4 text k.
Proof.
  unfold analyze_content.
  rewrite !_find_red_flags_spec, !_find_positive_indicators_spec.
  assert (E1 : matching_flag_rules ascii_db (map ascii_lower text) =
               matching_flag_rules ascii_db text).
  { unfold matching_flag_rules. apply filter_ext_bool.
    intros rule. apply re_search_lower. }
  assert (E2 : matching_indicator_rules ascii_db (map ascii_lower text) =
               matching_indicator_rules ascii_db text).
  { unfold matching_indicator_rules. apply filter_ext_bool.
    intros rule. apply re_search_lower. }
  assert (E3 : _extract_keywords ascii_db (map ascii_lower text) =
               _extract_keywords ascii_db text).
  { unfold _extract_keywords. cbn [u_lower ascii_db].
    rewrite map_map.
    rewrite (map_ext (fun c => ascii_lower (ascii_lower c)) ascii_lower
               ascii_lower_idem).
    reflexivity. }
  rewrite E1, E2, E3. reflexivity.
Qed.

(** X18.  With the ASCII database, two texts that differ in letter case only
    have the same analysis: every pattern is searched with [re.IGNORECASE]
    and the keywords are read from the lowercased text. *)
Theorem analysis_ignores_letter_case (uuid4 : nat -> string)
    (text text' : pystr) (k : nat) :
  map ascii_lower text = map ascii_lower text' ->
  analyze_content ascii_db uuid4 text k = analyze_content ascii_db uuid4 text' k.
Proof.
  intros E.
  rewrite <- (analyze_content_lower uuid4 text), <- (analyze_content_lower uuid4 text').
  rewrite E. reflexivity.
Qed.

(** Two spellings of the same text. *)
Lemma analysis_ignores_letter_case_witness :
  map ascii_lower (codes "SHOCKING study") = map ascii_lower (codes "Shocking Study") /\
  analyze_content ascii_db sample_uuid4 (codes "SHOCKING study") 0 =
  analyze_content ascii_db sample_uuid4 (codes "Shocking Study") 0.
Proof.
  assert (H : map ascii_lower (codes "SHOCKING study") =
              map ascii_lower (codes "Shocking Study")) by reflexivity.
  split; [exact H |].
  exact (analysis_ignores_letter_case sample_uuid4 _ _ 0%nat H).
Defined.

(** X16.  The overview of an analysis is the assessment of its score followed
    by a sentence that gives the numbers of indicators and flags of the
    result, capitalized as [str.capitalize] leaves it. *)
Theorem analysis_overview_reports_result (db : unicode_db) (uuid4 : nat -> string)
    (text : pystr) (k : nat) :
  exists result k',
    analyze_content db uuid4 text k = Some (result, k') /\
    overview result =
      assessment_of (score result)
      +:+ findings_of (length (positive_indicators result))
            (length (red_flags result)).
Proof.
  destruct (analyze_content_spec db uuid4 text k) as (s & _ & _ & E).
  eexists _, _. split; [exact E |].
  cbn [overview score positive_indicators red_flags].
  apply overview_text.
Qed.

(** * Device selection *)

(** X19.  [get_device] returns "cuda" or "cpu", and "cuda" exactly when the
    lowercased value of USE_GPU is none of "false", "0", "no" and CUDA is
    available. *)
Theorem get_device_selects_cuda (db : unicode_db) (w : world) :
  (get_device db w = "cuda"%string \/ get_device db w = "cpu"%string) /\
  (get_device db w = "cuda"%string <->
   ((u_lower db (default (codes "false") (environ w !! "USE_GPU"%string))
       ∉ [codes "false"; codes "0"; codes "no"]) /\
    exists name version, torch w = TorchCuda name version)).
Proof.
  unfold get_device, detect_gpu.
  destruct (bool_decide_reflect
              (u_lower db (default (codes "false") (environ w !! "USE_GPU"%string))
                 ∈ [codes "false"; codes "0"; codes "no"])) as [Hin | Hout].
  - split; [right; reflexivity |]. split; [discriminate |].
    intros [Hout _]. contradiction.
  - destruct (torch w) as [| | | name version]; cbn [device cpu_info].
    + split; [right; reflexivity |]. split; [discriminate |].
      intros (_ & name' & version' & E). discriminate E.
    + split; [right; reflexivity |]. split; [discriminate |].
      intros (_ & name' & version' & E). discriminate E.
    + split; [right; reflexivity |]. split; [discriminate |].
      intros (_ & name' & version' & E). discriminate E.
    + split; [left; reflexivity |]. split; [| reflexivity].
      intros _. split; [exact Hout |]. eexists _, _. reflexivity.
Qed.

(** X20.  Once [_get_cached_device] has returned, every later call returns the
    same device, whatever the environment and PyTorch have become, and
    [get_gpu_status] reports that device next to the availability it has
    just detected. *)
Theorem cached_device_is_sticky (db : unicode_db) (w w' : world)
    (_DEVICE : option string) :
  let first := _get_cached_device db w _DEVICE in
  _get_cached_device db w' (snd first) = first /\
  fst (get_gpu_status db w' (snd first)) =
    {| gpu_available := available (detect_gpu w');
       using_device := fst first;
       status_device_name := device_name (detect_gpu w');
       status_cuda_version := cuda_version (detect_gpu w');
       use_gpu_env := default (codes "false") (environ w' !! "USE_GPU"%string) |}.
Proof.
  cbn zeta. unfold get_gpu_status.
  destruct _DEVICE as [cached |]; cbn [_get_cached_device fst snd];
    split; reflexivity.
Qed.

(** X21.  When USE_GPU is not set, [get_device] and a first [get_gpu_status]
    give "cpu", even if the status reports an available GPU. *)
Theorem gpu_is_off_by_default (db : unicode_db) (w : world) (_DEVICE : option string) :
  u_lower db (codes "false") = codes "false" ->
  environ w !! "USE_GPU"%string = None ->
  get_device db w = "cpu"%string /\
  using_device (fst (get_gpu_status db w None)) = "cpu"%string /\
  gpu_available (fst (get_gpu_status db w _DEVICE)) =
    match torch w with TorchCuda _ _ => true | _ => false end.
Proof.
  intros Hlower Henv.
  assert (E : get_device db w = "cpu"%string).
  { unfold get_device. rewrite Henv. cbn [default from_option id].
    rewrite Hlower. reflexivity. }
  split; [exact E |]. split.
  - unfold get_gpu_status. cbn [_get_cached_device using_device fst]. exact E.
  - unfold get_gpu_status.
    destruct (_get_cached_device db w _DEVICE) as [d c].
    cbn [fst gpu_available]. unfold detect_gpu.
    destruct (torch w); reflexivity.
Qed.

(** A machine with CUDA and no USE_GPU. *)
Lemma gpu_is_off_by_default_witness :
  u_lower ascii_db (codes "false") = codes "false" /\
  environ (sample_world None (TorchCuda "NVIDIA A100" (Some "12.1"%string)))
    !! "USE_GPU"%string = None /\
  get_device ascii_db (sample_world None (TorchCuda "NVIDIA A100" (Some "12.1"%string)))
    = "cpu"%string /\
  using_device
    (fst (get_gpu_status ascii_db
            (sample_world None (TorchCuda "NVIDIA A100" (Some "12.1"%string))) None))
    = "cpu"%string /\
  gpu_available
    (fst (get_gpu_status ascii_db
            (sample_world None (TorchCuda "NVIDIA A100" (Some "12.1"%string))) None))
    = match torch (sample_world None (TorchCuda "NVIDIA A100" (Some "12.1"%string)))
      with TorchCuda _ _ => true | _ => false end.
Proof.
  assert (H1 : u_lower ascii_db (codes "false") = codes "false") by reflexivity.
  assert (H2 : environ (sample_world None (TorchCuda "NVIDIA A100" (Some "12.1"%string)))
                 !! "USE_GPU"%string = None) by reflexivity.
  split; [exact H1 |]. split; [exact H2 |].
  exact (gpu_is_off_by_default ascii_db _ None H1 H2).
Defined.

(** * Text utilities *)

(** ** [str.replace] *)

Lemma starts_with_absent (a : N) (old s : pystr) :
  Forall (fun c => c <> a) s -> starts_with (a :: old) s = false.
Proof.
  intros H. destruct s as [| c s]; [reflexivity |].
  inversion H as [| ? ? Hc _]; subst. cbn [starts_with].
  destruct (N.eqb_spec a c) as [-> | _]; [contradiction | reflexivity].
Qed.

Lemma replace_absent (a : N) (old new s : pystr) :
  Forall (fun c => c <> a) s -> replace_from (a :: old) new s 0 = s.
Proof.
  induction s as [| c s IH]; intros H; [reflexivity |].
  cbn [replace_from]. rewrite (starts_with_absent a old (c :: s) H).
  inversion H; subst. rewrite IH by assumption. reflexivity.
Qed.

Lemma replace_cr_no_cr (s : pystr) :
  Forall (fun c => c <> 13%N) (str_replace [13%N] [10%N] s).
Proof.
  unfold str_replace. induction s as [| c s IH]; [constructor |].
  cbn [replace_from starts_with length Nat.sub].
  destruct (N.eqb_spec 13 c) as [<- | Hc]; cbn [andb app].
  - constructor; [discriminate | exact IH].
  - constructor; [congruence | exact IH].
Qed.

Section Visible.
Context (isspace : N -> bool).

Lemma visible_app (s1 s2 : pystr) :
  visible isspace (s1 ++ s2) = visible isspace s1 ++ visible isspace s2.
Proof. apply List.filter_app. Qed.

Lemma visible_space (c : N) (s : pystr) :
  isspace c = true -> visible isspace (c :: s) = visible isspace s.
Proof. intros H. unfold visible. cbn [List.filter]. rewrite H. reflexivity. Qed.

Lemma visible_replicate (c : N) (n : nat) :
  isspace c = true -> visible isspace (replicate n c) = [].
Proof.
  intros H. induction n as [| n IH]; [reflexivity |].
  cbn [replicate]. rewrite visible_space by exact H. exact IH.
Qed.

Lemma visible_replace_crlf (s : pystr) :
  isspace 13 = true -> isspace 10 = true ->
  visible isspace (str_replace [13; 10]%N [10%N] s) = visible isspace s.
Proof.
  intros H13 H10. unfold str_replace.
  assert (G : visible isspace (replace_from [13; 10]%N [10%N] s 0)
              = visible isspace s /\
              visible isspace (replace_from [13; 10]%N [10%N] (tail s) 0)
              = visible isspace (tail s)); [| exact (proj1 G)].
  induction s as [| c s [IH0 IH1]]; [split; reflexivity |].
  split; [| exact IH0].
  cbn [replace_from starts_with length Nat.sub].
  destruct (N.eqb_spec 13 c) as [<- | Hc]; cbn [andb].
  - destruct s as [| d s]; cbn [starts_with]; [reflexivity |].
    destruct (N.eqb_spec 10 d) as [<- | Hd]; cbn [andb app].
    + cbn [tail] in IH1. cbn [replace_from]. rewrite !visible_space by assumption.
      exact IH1.
    + rewrite !(visible_space 13) by assumption. exact IH0.
  - unfold visible in *. cbn [List.filter]. rewrite IH0. reflexivity.
Qed.

Lemma visible_replace_cr (s : pystr) :
  isspace 13 = true -> isspace 10 = true ->
  visible isspace (str_replace [13%N] [10%N] s) = visible isspace s.
Proof.
  intros H13 H10. unfold str_replace. induction s as [| c s IH]; [reflexivity |].
  cbn [replace_from starts_with length Nat.sub].
  destruct (N.eqb_spec 13 c) as [<- | Hc]; cbn [andb app].
  - rewrite !visible_space by assumption. exact IH.
  - unfold visible in *. cbn [List.filter]. rewrite IH. reflexivity.
Qed.

(** ** [str.strip] *)

Lemma lstrip_split (s : pystr) :
  exists spaces, s = spaces ++ lstrip isspace s /\
                 Forall (fun c => isspace c = true) spaces.
Proof.
  induction s as [| c s (spaces & E & H)]; cbn [lstrip].
  - exists []. split; [reflexivity | constructor].
  - destruct (isspace c) eqn:Ec.
    + exists (c :: spaces). split; [cbn [app]; congruence | constructor; assumption].
    + exists []. split; [reflexivity | constructor].
Qed.

Lemma lstrip_head (s : pystr) (c : N) (s' : pystr) :
  lstrip isspace s = c :: s' -> isspace c = false.
Proof.
  induction s as [| d s IH]; cbn [lstrip]; [discriminate |].
  destruct (isspace d) eqn:Ed; [exact IH |].
  intros [= -> ->]. exact Ed.
Qed.

Lemma lstrip_fixed (c : N) (s : pystr) :
  isspace c = false -> lstrip isspace (c :: s) = c :: s.
Proof. intros H. cbn [lstrip]. rewrite H. reflexivity. Qed.

Lemma lstrip_idem (s : pystr) : lstrip isspace (lstrip isspace s) = lstrip isspace s.
Proof.
  destruct (lstrip isspace s) as [| c s'] eqn:E; [reflexivity |].
  apply lstrip_fixed. exact (lstrip_head s c s' E).
Qed.

Lemma strip_split (s : pystr) :
  exists before after,
    s = before ++ strip isspace s ++ after /\
    Forall (fun c => isspace c = true) before /\
    Forall (fun c => isspace c = true) after.
Proof.
  unfold strip, rstrip.
  destruct (lstrip_split s) as (before & E1 & H1).
  destruct (lstrip_split (rev (lstrip isspace s))) as (after & E2 & H2).
  exists before, (rev after). split; [| split].
  - rewrite E1 at 1. f_equal.
    rewrite <- (rev_involutive (lstrip isspace s)) at 1.
    rewrite E2 at 1. rewrite rev_app_distr. reflexivity.
  - exact H1.
  - apply Forall_rev. exact H2.
Qed.

Lemma strip_head (s : pystr) (c : N) (s' : pystr) :
  strip isspace s = c :: s' -> isspace c = false.
Proof.
  unfold strip, rstrip. intros E.
  destruct (lstrip_split (rev (lstrip isspace s))) as (after & E2 & _).
  apply (f_equal (@rev N)) in E2. rewrite rev_involutive, rev_app_distr, E in E2.
  cbn [app] in E2. exact (lstrip_head s c _ E2).
Qed.

Lemma strip_last (s : pystr) (c : N) :
  last (strip isspace s) = Some c -> isspace c = false.
Proof.
  unfold strip, rstrip.
  destruct (lstrip isspace (rev (lstrip isspace s))) as [| d t] eqn:E;
    cbn [rev]; [discriminate |].
  rewrite last_snoc. intros [= ->]. exact (lstrip_head _ _ _ E).
Qed.

Lemma strip_idem (s : pystr) : strip isspace (strip isspace s) = strip isspace s.
Proof.
  destruct (strip isspace s) as [| c t] eqn:E; [reflexivity |].
  pose proof (strip_head s c t E) as Hc.
  unfold strip at 1, rstrip. rewrite (lstrip_fixed c t Hc).
  rewrite <- E. unfold strip, rstrip.
  rewrite rev_involutive, lstrip_idem. reflexivity.
Qed.

Lemma visible_spaces (spaces : pystr) :
  Forall (fun c => isspace c = true) spaces -> visible isspace spaces = [].
Proof.
  induction 1 as [| c spaces Hc _ IH]; [reflexivity |].
  rewrite visible_space by exact Hc. exact IH.
Qed.

Lemma visible_strip (s : pystr) :
  visible isspace (strip isspace s) = visible isspace s.
Proof.
  destruct (strip_split s) as (before & after & E & Hb & Ha).
  rewrite E at 2. rewrite !visible_app, (visible_spaces _ Hb), (visible_spaces _ Ha).
  rewrite app_nil_r. reflexivity.
Qed.
End Visible.

(** ** [re.sub] on the runs of one character *)

Section Collapse.
Context (db : unicode_db) (p : N) (n : nat) (repl : pystr).
Hypothesis n_positive : (1 <= n)%nat.

Lemma run_replicate (m : nat) (prev : option N) (rest : pystr) :
  head rest <> Some p ->
  exists qs o, run db false (Chr p) prev (replicate m p ++ rest) = qs ++ [(o, rest)] /\
               length qs = m.
Proof.
  intros Hrest. revert prev. induction m as [| m IH]; intros prev.
  - exists [], prev. split; [| reflexivity].
    cbn [replicate app]. destruct rest as [| c rest]; [reflexivity |].
    cbn [run atom_matches chr_matches].
    destruct (N.eqb_spec p c) as [-> | _]; [| reflexivity].
    exfalso. apply Hrest. reflexivity.
  - destruct (IH (Some p)) as (qs & o & E & Hl).
    exists ((prev, replicate (S m) p ++ rest) :: qs), o.
    split; [| cbn [length]; lia].
    cbn [replicate app run atom_matches chr_matches].
    rewrite N.eqb_refl, E. reflexivity.
Qed.

Lemma rmatch_replicate_short (m : nat) (prev : option N) (rest : pystr) :
  head rest <> Some p -> (m < n)%nat ->
  rmatch db false (AtLeast n (Chr p)) prev (replicate m p ++ rest) = [].
Proof.
  intros Hrest Hm. cbn [rmatch].
  destruct (run_replicate m prev rest Hrest) as (qs & o & -> & Hl).
  rewrite drop_ge; [reflexivity |].
  unfold position. rewrite length_app. cbn [length]. lia.
Qed.

Lemma rmatch_replicate_long (m : nat) (prev : option N) (rest : pystr) :
  head rest <> Some p -> (n <= m)%nat ->
  exists o qs,
    rmatch db false (AtLeast n (Chr p)) prev (replicate m p ++ rest) = (o, rest) :: qs.
Proof.
  intros Hrest Hm. cbn [rmatch].
  destruct (run_replicate m prev rest Hrest) as (qs & o & -> & Hl).
  exists o, (rev (drop n qs)).
  rewrite drop_app_le by (unfold position; lia).
  rewrite rev_app_distr. reflexivity.
Qed.

Lemma sub_from_skip (k : nat) (prev : option N) (rest : pystr) :
  sub_from db false (AtLeast n (Chr p)) repl prev (replicate k p ++ rest) k =
  sub_from db false (AtLeast n (Chr p)) repl
    (match k with O => prev | S _ => Some p end) rest 0.
Proof.
  revert prev. induction k as [| k IH]; intros prev; [reflexivity |].
  cbn [replicate app sub_from]. rewrite IH. destruct k; reflexivity.
Qed.

Lemma sub_from_run (m : nat) (prev : option N) (rest : pystr) :
  head rest <> Some p ->
  sub_from db false (AtLeast n (Chr p)) repl prev (replicate m p ++ rest) 0 =
  flush p n repl m ++
  sub_from db false (AtLeast n (Chr p)) repl
    (match m with O => prev | S _ => Some p end) rest 0.
Proof.
  intros Hrest. unfold flush.
  destruct (Nat.leb_spec n m) as [Hle | Hlt].
  - destruct m as [| k]; [lia |].
    destruct (rmatch_replicate_long (S k) prev rest Hrest Hle) as (o & qs & E).
    cbn [replicate app] in *. cbn [sub_from]. rewrite E. cbn [snd].
    replace (length (p :: replicate k p ++ rest) - length rest)%nat with (S k)
      by (cbn [length]; rewrite length_app, length_replicate; lia).
    rewrite sub_from_skip. destruct k; reflexivity.
  - revert prev. induction m as [| k IH]; intros prev; [reflexivity |].
    pose proof (rmatch_replicate_short (S k) prev rest Hrest Hlt) as E.
    cbn [replicate app] in *. cbn [sub_from]. rewrite E.
    rewrite (IH ltac:(lia)). destruct k; reflexivity.
Qed.

Lemma sub_from_other (c : N) (prev : option N) (s : pystr) :
  c <> p ->
  sub_from db false (AtLeast n (Chr p)) repl prev (c :: s) 0 =
  c :: sub_from db false (AtLeast n (Chr p)) repl (Some c) s 0.
Proof.
  intros Hc.
  assert (Hrest : head (c :: s) <> Some p) by (cbn; congruence).
  pose proof (rmatch_replicate_short 0 prev (c :: s) Hrest ltac:(lia)) as E.
  cbn [replicate app] in E. cbn [sub_from]. rewrite E. reflexivity.
Qed.

Lemma sub_from_nil (prev : option N) :
  sub_from db false (AtLeast n (Chr p)) repl prev [] 0 = [].
Proof.
  assert (Hrest : head (@nil N) <> Some p) by discriminate.
  pose proof (rmatch_replicate_short 0 prev [] Hrest ltac:(lia)) as E.
  cbn [replicate app] in E. cbn [sub_from]. rewrite E. reflexivity.
Qed.

Lemma leading_run (s : pystr) :
  exists m rest, s = replicate m p ++ rest /\ head rest <> Some p.
Proof.
  induction s as [| c s (m & rest & -> & H)].
  - exists 0%nat, []. split; [reflexivity | discriminate].
  - destruct (N.eq_dec c p) as [-> | Hc].
    + exists (S m), rest. split; [reflexivity | exact H].
    + exists 0%nat, (c :: replicate m p ++ rest).
      split; [reflexivity | cbn; congruence].
Qed.

Lemma collapse_run (m cnt : nat) (rest : pystr) :
  collapse p n repl (replicate m p ++ rest) cnt = collapse p n repl rest (cnt + m).
Proof.
  revert cnt. induction m as [| m IH]; intros cnt; cbn [replicate app collapse].
  - rewrite Nat.add_0_r. reflexivity.
  - rewrite N.eqb_refl, IH. f_equal. lia.
Qed.

Lemma sub_from_collapse (s : pystr) (prev : option N) :
  sub_from db false (AtLeast n (Chr p)) repl prev s 0 = collapse p n repl s 0.
Proof.
  remember (length s) as len eqn:Hlen. revert s prev Hlen.
  induction len as [len IH] using lt_wf_ind. intros s prev Hlen.
  destruct (leading_run s) as (m & rest & -> & Hrest).
  rewrite (sub_from_run m prev rest Hrest), collapse_run. cbn [Nat.add].
  destruct rest as [| c rest].
  - rewrite sub_from_nil. cbn [collapse]. rewrite app_nil_r. reflexivity.
  - assert (Hc : c <> p) by (intros ->; apply Hrest; reflexivity).
    rewrite sub_from_other by exact Hc. cbn [collapse].
    destruct (N.eqb_spec p c) as [-> | _]; [contradiction |].
    f_equal. f_equal.
    apply (IH (length rest)); [| reflexivity].
    subst len. rewrite length_app. cbn [length]. lia.
Qed.
End Collapse.

Lemma re_sub_collapse (db : unicode_db) (p : N) (n : nat) (repl text : pystr) :
  (1 <= n)%nat ->
  re_sub db false (AtLeast n (Chr p)) repl text = collapse p n repl text 0.
Proof. intros Hn. apply sub_from_collapse. exact Hn. Qed.

(** ** Runs *)

Lemma runs_below_mono (p : N) (bound : nat) (s : pystr) (cnt cnt' : nat) :
  (cnt <= cnt')%nat -> runs_below p bound s cnt' = true ->
  runs_below p bound s cnt = true.
Proof.
  revert cnt cnt'. induction s as [| c s IH]; intros cnt cnt' Hle; [reflexivity |].
  cbn [runs_below]. destruct (p =? c)%N; [| auto].
  intros H. apply andb_prop in H. destruct H as [H1 H2].
  apply Nat.ltb_lt in H1.
  apply andb_true_intro. split; [apply Nat.ltb_lt; lia |].
  apply (IH (S cnt) (S cnt')); [lia | exact H2].
Qed.

Lemma runs_below_app_l (p : N) (bound : nat) (s1 s2 : pystr) (cnt : nat) :
  runs_below p bound (s1 ++ s2) cnt = true -> runs_below p bound s1 cnt = true.
Proof.
  revert cnt. induction s1 as [| c s1 IH]; intros cnt; [reflexivity |].
  cbn [app runs_below]. destruct (p =? c)%N; [| apply IH].
  intros H. apply andb_prop in H. destruct H as [H1 H2].
  rewrite H1. cbn [andb]. apply IH, H2.
Qed.

Lemma runs_below_app_r (p : N) (bound : nat) (s1 s2 : pystr) (cnt : nat) :
  runs_below p bound (s1 ++ s2) cnt = true -> runs_below p bound s2 0 = true.
Proof.
  revert cnt. induction s1 as [| c s1 IH]; intros cnt; cbn [app].
  - apply runs_below_mono. lia.
  - cbn [runs_below]. destruct (p =? c)%N; [| apply IH].
    intros H. apply andb_prop in H. destruct H as [_ H]. apply (IH _ H).
Qed.

Lemma runs_below_replicate (p : N) (bound : nat) (m cnt : nat) (s : pystr) :
  (cnt + m < bound)%nat \/ m = 0%nat ->
  runs_below p bound (replicate m p ++ s) cnt = runs_below p bound s (cnt + m).
Proof.
  revert cnt. induction m as [| m IH]; intros cnt H; cbn [replicate app].
  - rewrite Nat.add_0_r. reflexivity.
  - cbn [runs_below]. rewrite N.eqb_refl.
    destruct H as [H | H]; [| discriminate H].
    replace (S cnt <? bound)%nat with true by (symmetry; apply Nat.ltb_lt; lia).
    cbn [andb]. rewrite IH by (left; lia). f_equal. lia.
Qed.

Lemma runs_below_no_run (p : N) (bound : nat) (s : pystr) (cnt : nat) :
  (cnt < bound)%nat ->
  runs_below p bound s cnt = true -> ~ has_run (N.eqb p) bound s.
Proof.
  intros Hcnt H (before & middle & after & -> & Hl & Hall).
  apply runs_below_app_r in H. apply runs_below_app_l in H.
  assert (E : middle = replicate bound p).
  { subst bound. clear -Hall. induction Hall as [| c middle Hc _ IH]; [reflexivity |].
    cbn [length replicate]. apply N.eqb_eq in Hc. subst c. rewrite IH at 1.
    reflexivity. }
  subst middle. clear Hall Hl.
  destruct bound as [| bound]; [lia |].
  rewrite <- (app_nil_r (replicate (S bound) p)) in H.
  cbn [replicate app runs_below] in H. rewrite N.eqb_refl in H.
  apply andb_prop in H. destruct H as [H0 H]. apply Nat.ltb_lt in H0.
  clear Hcnt.
  assert (G : forall m k, runs_below p (S bound) (replicate m p ++ []) k = true ->
                          (m = 0 \/ k + m < S bound)%nat).
  { clear. induction m as [| m IH]; intros k H; [left; reflexivity |].
    right. cbn [replicate app runs_below] in H. rewrite N.eqb_refl in H.
    apply andb_prop in H. destruct H as [H1 H2].
    apply Nat.ltb_lt in H1. destruct (IH _ H2) as [-> | H3]; lia. }
  destruct (G _ _ H) as [-> | H']; lia.
Qed.

(** ** [collapse] *)

Section CollapseRuns.
Context (p : N) (n k : nat).
Hypothesis k_positive : (1 <= k)%nat.
Hypothesis k_below : (k <= n)%nat.

Abbreviation bound := (Nat.max n (S k)).

Lemma flush_replicate (cnt : nat) :
  exists m, flush p n (replicate k p) cnt = replicate m p /\
            (m < bound)%nat /\ (cnt = 0%nat <-> m = 0%nat) /\
            ((cnt < bound)%nat -> m = cnt).
Proof.
  unfold flush. destruct (Nat.leb_spec n cnt) as [H | H].
  - exists k. split; [reflexivity |]. lia.
  - exists cnt. split; [reflexivity |]. lia.
Qed.

Lemma flush_0 : flush p n (replicate k p) 0 = [].
Proof.
  unfold flush. destruct (Nat.leb_spec n 0) as [H | _]; [lia | reflexivity].
Qed.

Lemma collapse_runs_below (s : pystr) (cnt : nat) :
  runs_below p bound (collapse p n (replicate k p) s cnt) 0 = true.
Proof.
  revert cnt. induction s as [| c s IH]; intros cnt; cbn [collapse].
  - destruct (flush_replicate cnt) as (m & -> & Hm & _).
    rewrite <- (app_nil_r (replicate m p)).
    rewrite runs_below_replicate by (left; lia). reflexivity.
  - destruct (N.eqb_spec p c) as [-> | Hc]; [apply IH |].
    destruct (flush_replicate cnt) as (m & -> & Hm & _).
    rewrite runs_below_replicate by (left; lia).
    cbn [runs_below]. destruct (N.eqb_spec p c); [contradiction |]. apply IH.
Qed.

Lemma collapse_fixed (s : pystr) (cnt : nat) :
  (cnt < bound)%nat -> runs_below p bound s cnt = true ->
  collapse p n (replicate k p) s cnt = replicate cnt p ++ s.
Proof.
  revert cnt. induction s as [| c s IH]; intros cnt Hcnt H; cbn [collapse].
  - destruct (flush_replicate cnt) as (m & -> & _ & _ & Hm).
    rewrite (Hm Hcnt), app_nil_r. reflexivity.
  - cbn [runs_below] in H. destruct (N.eqb_spec p c) as [-> | Hc].
    + apply andb_prop in H. destruct H as [H1 H2]. apply Nat.ltb_lt in H1.
      rewrite (IH (S cnt) H1 H2).
      change (replicate (S cnt) c) with (c :: replicate cnt c).
      rewrite (replicate_cons_app cnt c), <- app_assoc. reflexivity.
    + destruct (flush_replicate cnt) as (m & -> & _ & _ & Hm).
      rewrite (Hm Hcnt), (IH 0%nat ltac:(lia) H). reflexivity.
Qed.

Lemma collapse_Forall (P : N -> Prop) (s : pystr) (cnt : nat) :
  P p -> Forall P s -> Forall P (collapse p n (replicate k p) s cnt).
Proof.
  intros Hp Hs. revert cnt.
  induction Hs as [| c s Hc _ IH]; intros cnt; cbn [collapse].
  - destruct (flush_replicate cnt) as (m & -> & _).
    apply Forall_replicate. exact Hp.
  - destruct (p =? c)%N; [apply IH |].
    destruct (flush_replicate cnt) as (m & -> & _).
    apply Forall_app. split; [apply Forall_replicate; exact Hp |].
    constructor; [exact Hc | apply IH].
Qed.

Lemma collapse_other_runs (q : N) (limit : nat) (s : pystr) (cnt j : nat) :
  q <> p ->
  runs_below q limit s (match cnt with O => j | S _ => 0%nat end) = true ->
  runs_below q limit (collapse p n (replicate k p) s cnt) j = true.
Proof.
  intros Hq. revert cnt j.
  assert (Hflush : forall cnt j t, (1 <= cnt)%nat ->
            runs_below q limit (flush p n (replicate k p) cnt ++ t) j =
            runs_below q limit t 0).
  { intros cnt j t Hcnt.
    destruct (flush_replicate cnt) as (m & -> & _ & Hm & _).
    destruct m as [| m]; [lia |]. clear Hm.
    cbn [replicate app runs_below].
    destruct (N.eqb_spec q p) as [-> | _]; [contradiction |].
    induction m as [| m IH]; [reflexivity |].
    cbn [replicate app runs_below].
    destruct (N.eqb_spec q p) as [-> | _]; [contradiction | exact IH]. }
  induction s as [| c s IH]; intros cnt j H; cbn [collapse].
  - destruct cnt as [| cnt].
    + rewrite flush_0. reflexivity.
    + rewrite <- (app_nil_r (flush _ _ _ _)), Hflush by lia. reflexivity.
  - destruct (N.eqb_spec p c) as [<- | Hc].
    + apply IH. cbn [runs_below] in H.
      destruct (N.eqb_spec q p) as [-> | _]; [contradiction |].
      destruct cnt; exact H.
    + destruct cnt as [| cnt].
      * rewrite flush_0. cbn [app]. cbn [runs_below] in H |- *.
        destruct (q =? c)%N.
        -- apply andb_prop in H. destruct H as [H1 H2]. rewrite H1. cbn [andb].
           apply (IH 0%nat). exact H2.
        -- apply (IH 0%nat). exact H.
      * rewrite Hflush by lia. cbn [runs_below] in H |- *.
        destruct (q =? c)%N.
        -- apply andb_prop in H. destruct H as [H1 H2]. rewrite H1. cbn [andb].
           apply (IH 0%nat). exact H2.
        -- apply (IH 0%nat). exact H.
Qed.

Lemma visible_collapse (isspace : N -> bool) (s : pystr) (cnt : nat) :
  isspace p = true ->
  visible isspace (collapse p n (replicate k p) s cnt) = visible isspace s.
Proof.
  intros Hp. revert cnt. induction s as [| c s IH]; intros cnt; cbn [collapse].
  - destruct (flush_replicate cnt) as (m & -> & _).
    apply visible_replicate. exact Hp.
  - destruct (N.eqb_spec p c) as [<- | Hc].
    + rewrite IH, visible_space by exact Hp. reflexivity.
    + destruct (flush_replicate cnt) as (m & -> & _).
      rewrite visible_app, visible_replicate by exact Hp.
      unfold visible. cbn [app List.filter]. fold (visible isspace).
      unfold visible in IH. rewrite IH. reflexivity.
Qed.
End CollapseRuns.

(** ** [preprocess_text] *)

Section Preprocess.
Context (db : unicode_db) (isspace : N -> bool).

Lemma preprocess_text_collapse (text : pystr) :
  preprocess_text db isspace text =
  strip isspace
    (collapse 10 3 (replicate 2 10%N)
       (collapse 32 1 (replicate 1 32%N)
          (str_replace [13%N] [10%N] (str_replace [13; 10]%N [10%N] text)) 0) 0).
Proof.
  unfold preprocess_text. cbn zeta.
  rewrite !re_sub_collapse by lia. reflexivity.
Qed.

Lemma preprocess_text_invariants (text : pystr) :
  Forall (fun c => c <> 13%N) (preprocess_text db isspace text) /\
  runs_below 32 2 (preprocess_text db isspace text) 0 = true /\
  runs_below 10 3 (preprocess_text db isspace text) 0 = true.
Proof.
  rewrite preprocess_text_collapse.
  set (t2 := str_replace [13%N] [10%N] (str_replace [13; 10]%N [10%N] text)).
  set (t3 := collapse 32 1 (replicate 1 32%N) t2 0).
  set (t4 := collapse 10 3 (replicate 2 10%N) t3 0).
  assert (A4 : Forall (fun c => c <> 13%N) t4).
  { apply (collapse_Forall 10 3 2); [lia | lia | discriminate |].
    apply (collapse_Forall 32 1 1); [lia | lia | discriminate |].
    apply replace_cr_no_cr. }
  assert (B4 : runs_below 32 2 t4 0 = true).
  { apply (collapse_other_runs 10 3 2); [lia | lia | discriminate |].
    exact (collapse_runs_below 32 1 1 ltac:(lia) ltac:(lia) t2 0). }
  assert (C4 : runs_below 10 3 t4 0 = true).
  { exact (collapse_runs_below 10 3 2 ltac:(lia) ltac:(lia) t3 0). }
  destruct (strip_split isspace t4) as (before & after & E & _ & _).
  rewrite E in A4, B4, C4.
  apply Forall_app in A4. destruct A4 as [_ A4].
  apply Forall_app in A4. destruct A4 as [A4 _].
  apply runs_below_app_r, runs_below_app_l in B4.
  apply runs_below_app_r, runs_below_app_l in C4.
  auto.
Qed.

(** X22 *)
Theorem preprocess_text_is_clean (text : pystr) :
  let out := preprocess_text db isspace text in
  Forall (fun c => c <> 13%N) out /\
  ~ has_run (N.eqb 32) 2 out /\
  ~ has_run (N.eqb 10) 3 out /\
  (forall c, head out = Some c -> isspace c = false) /\
  (forall c, last out = Some c -> isspace c = false).
Proof.
  cbn zeta. destruct (preprocess_text_invariants text) as (A & B & C).
  split; [exact A |].
  split; [exact (runs_below_no_run 32 2 _ 0 ltac:(lia) B) |].
  split; [exact (runs_below_no_run 10 3 _ 0 ltac:(lia) C) |].
  unfold preprocess_text. cbn zeta. split.
  - intros c Hc.
    destruct (strip isspace _) as [| d t] eqn:E; [discriminate Hc |].
    injection Hc as ->. exact (strip_head isspace _ _ _ E).
  - intros c. apply strip_last.
Qed.

(** X23 *)
Theorem preprocess_text_is_idempotent (text : pystr) :
  preprocess_text db isspace (preprocess_text db isspace text) =
  preprocess_text db isspace text.
Proof.
  destruct (preprocess_text_invariants text) as (A & B & C).
  assert (D : strip isspace (preprocess_text db isspace text)
              = preprocess_text db isspace text).
  { unfold preprocess_text. cbn zeta. apply strip_idem. }
  set (out := preprocess_text db isspace text) in *.
  rewrite (preprocess_text_collapse out).
  unfold str_replace.
  rewrite (replace_absent 13 [10%N] [10%N] out A).
  rewrite (replace_absent 13 [] [10%N] out A).
  rewrite (collapse_fixed 32 1 1 ltac:(lia) ltac:(lia) out 0 ltac:(lia) B).
  change (replicate 0 32%N ++ out) with out.
  rewrite (collapse_fixed 10 3 2 ltac:(lia) ltac:(lia) out 0 ltac:(lia) C).
  exact D.
Qed.

(** X24 *)
Theorem preprocess_text_keeps_visible (text : pystr) :
  isspace 10 = true -> isspace 13 = true -> isspace 32 = true ->
  visible isspace (preprocess_text db isspace text) = visible isspace text.
Proof.
  intros H10 H13 H32. rewrite preprocess_text_collapse.
  rewrite visible_strip.
  rewrite (visible_collapse 10 3 2 ltac:(lia) ltac:(lia)) by exact H10.
  rewrite (visible_collapse 32 1 1 ltac:(lia) ltac:(lia)) by exact H32.
  rewrite visible_replace_cr, visible_replace_crlf by assumption.
  reflexivity.
Qed.

(** ** [extract_sentences] *)

Lemma visible_split_from (prev : option N) (s piece : pystr) (gap : bool) :
  visible isspace (concat (split_from isspace prev s piece gap)) =
  visible isspace piece ++ visible isspace s.
Proof.
  revert prev piece gap. induction s as [| c s IH]; intros prev piece gap.
  - cbn [split_from concat]. rewrite app_nil_r. unfold visible. cbn [List.filter].
    rewrite app_nil_r. reflexivity.
  - cbn [split_from].
    destruct (isspace c) eqn:Ec; cbn [andb].
    + destruct gap; cbn [orb].
      * rewrite IH, (visible_space isspace c s Ec). reflexivity.
      * destruct (after_terminator prev).
        -- cbn [concat]. rewrite visible_app, IH.
           rewrite (visible_space isspace c s Ec). reflexivity.
        -- rewrite IH, visible_app. rewrite <- app_assoc. f_equal.
           change (c :: s) with ([c] ++ s). rewrite visible_app. reflexivity.
    + rewrite IH, visible_app. rewrite <- app_assoc. f_equal.
      change (c :: s) with ([c] ++ s). rewrite visible_app. reflexivity.
Qed.

Lemma visible_stripped_pieces (pieces : list pystr) :
  visible isspace
    (concat (map (strip isspace)
               (filter (fun s => strip isspace s <> []) pieces))) =
  visible isspace (concat pieces).
Proof.
  induction pieces as [| x pieces IH]; [reflexivity |].
  rewrite filter_cons. cbn [concat]. rewrite visible_app.
  destruct (decide (strip isspace x <> [])) as [Hx | Hx].
  - cbn [map concat]. rewrite visible_app, visible_strip, IH. reflexivity.
  - rewrite IH. rewrite <- (visible_strip isspace x).
    destruct (strip isspace x); [reflexivity | exfalso; apply Hx; discriminate].
Qed.

(** X25 *)
Theorem sentences_are_trimmed (text : pystr) :
  Forall (fun sentence =>
            sentence <> [] /\
            (forall c, head sentence = Some c -> isspace c = false) /\
            (forall c, last sentence = Some c -> isspace c = false))
    (extract_sentences isspace text).
Proof.
  unfold extract_sentences. cbn zeta.
  apply Forall_forall. intros sentence Hin.
  apply list_elem_of_fmap in Hin. destruct Hin as (piece & -> & Hin).
  apply list_elem_of_filter in Hin. destruct Hin as [Hne _].
  split; [exact Hne |]. split.
  - intros c Hc.
    destruct (strip isspace piece) as [| d t] eqn:E; [discriminate Hc |].
    injection Hc as ->. exact (strip_head isspace _ _ _ E).
  - intros c. apply strip_last.
Qed.

(** X26 *)
Theorem sentences_keep_visible (text : pystr) :
  visible isspace (concat (extract_sentences isspace text)) = visible isspace text.
Proof.
  unfold extract_sentences. cbn zeta.
  rewrite visible_stripped_pieces, visible_split_from. reflexivity.
Qed.
End Preprocess.

(** A page with Windows line breaks. *)
Lemma preprocess_text_keeps_visible_witness :
  ascii_space 10 = true /\ ascii_space 13 = true /\ ascii_space 32 = true /\
  visible ascii_space (preprocess_text ascii_db ascii_space sample_page) =
  visible ascii_space sample_page.
Proof.
  assert (H10 : ascii_space 10 = true) by reflexivity.
  assert (H13 : ascii_space 13 = true) by reflexivity.
  assert (H32 : ascii_space 32 = true) by reflexivity.
  split; [exact H10 |]. split; [exact H13 |]. split; [exact H32 |].
  exact (preprocess_text_keeps_visible ascii_db ascii_space sample_page H10 H13 H32).
Defined.

(** * Word rules *)

Section WordRules.
Context (db : unicode_db).

Lemma last_read_app (prev : option N) (w1 w2 : pystr) :
  last_read prev (w1 ++ w2) = last_read (last_read prev w1) w2.
Proof.
  unfold last_read. rewrite last_app. destruct (last w2); reflexivity.
Qed.

Lemma last_read_last (before w : pystr) :
  last_read (last before) w = last (before ++ w).
Proof. unfold last_read. rewrite last_app. reflexivity. Qed.

Lemma rmatch_plain (r : regex) (prev : option N) (s : pystr) (q : position) :
  plain r = true ->
  In q (rmatch db true r prev s) <->
  exists w, s = w ++ snd q /\ reads db r w /\ fst q = last_read prev w.
Proof.
  revert prev s q.
  induction r as [| a | | r1 IH1 r2 IH2 | r1 IH1 r2 IH2 | n a];
    intros prev s q Hplain; cbn [plain] in Hplain; try discriminate Hplain;
    cbn [rmatch reads].
  - split.
    + intros [<- | []]. exists []. auto.
    + intros (w & E & -> & Eq). cbn [app] in E. left.
      destruct q as [o t]. cbn [fst snd] in *. subst. reflexivity.
  - split.
    + destruct s as [| c s]; [intros [] |].
      destruct (atom_matches db true a c) eqn:Ec; [| intros []].
      intros [<- | []]. exists [c]. split; [reflexivity |].
      split; [exists c; auto | reflexivity].
    + intros (w & E & (c & -> & Hc) & Eq). cbn [app] in E. subst s.
      rewrite Hc. left. destruct q as [o t]. cbn [fst snd] in *.
      subst. reflexivity.
  - apply andb_prop in Hplain. destruct Hplain as [H1 H2].
    rewrite in_flat_map. split.
    + intros (q1 & Hq1 & Hq).
      apply (IH1 _ _ _ H1) in Hq1. destruct Hq1 as (w1 & E1 & R1 & F1).
      apply (IH2 _ _ _ H2) in Hq. destruct Hq as (w2 & E2 & R2 & F2).
      exists (w1 ++ w2). split; [rewrite <- app_assoc; congruence |].
      split; [exists w1, w2; auto |].
      rewrite last_read_app. congruence.
    + intros (w & E & (w1 & w2 & -> & R1 & R2) & F).
      exists (last_read prev w1, w2 ++ snd q). split.
      * apply (IH1 _ _ _ H1). exists w1. cbn [fst snd].
        rewrite <- app_assoc in E. auto.
      * cbn [fst snd]. apply (IH2 _ _ _ H2). exists w2.
        rewrite last_read_app in F. auto.
  - apply andb_prop in Hplain. destruct Hplain as [H1 H2].
    rewrite in_app_iff, (IH1 _ _ _ H1), (IH2 _ _ _ H2). split.
    + intros [(w & E & R & F) | (w & E & R & F)]; exists w; auto.
    + intros (w & E & [R | R] & F); [left | right]; exists w; auto.
Qed.

Lemma rmatch_Cat_In (ic : bool) (r1 r2 : regex) (prev : option N) (s : pystr)
    (q : position) :
  In q (rmatch db ic (Cat r1 r2) prev s) <->
  exists q1, In q1 (rmatch db ic r1 prev s) /\
             In q (rmatch db ic r2 (fst q1) (snd q1)).
Proof. cbn [rmatch]. apply in_flat_map. Qed.

Lemma rmatch_Boundary_In (ic : bool) (prev : option N) (s : pystr) (q : position) :
  In q (rmatch db ic Boundary prev s) <->
  boundary db prev (head s) = true /\ q = (prev, s).
Proof.
  cbn [rmatch]. fold (boundary db prev (head s)).
  destruct (boundary db prev (head s)).
  - split; [intros [<- | []]; auto | intros [_ ->]; left; reflexivity].
  - split; [intros [] | intros [H _]; discriminate H].
Qed.

Lemma nonempty_In {A : Type} (l : list A) : l <> [] <-> exists x, In x l.
Proof.
  destruct l as [| x l].
  - split; [intros H; contradiction H; reflexivity | intros [x []]].
  - split; [intros _; exists x; left; reflexivity | discriminate].
Qed.

Lemma rmatch_word_group (rs : list regex) (prev : option N) (s : pystr) :
  plain (alt rs) = true ->
  rmatch db true (word_group rs) prev s <> [] <->
  exists w after,
    s = w ++ after /\ reads db (alt rs) w /\
    boundary db prev (head s) = true /\
    boundary db (last_read prev w) (head after) = true.
Proof.
  intros Hplain. unfold word_group. rewrite nonempty_In. split.
  - intros (q & Hq).
    apply rmatch_Cat_In in Hq. destruct Hq as (q1 & Hq1 & Hq).
    apply rmatch_Boundary_In in Hq1. destruct Hq1 as [Hb ->]. cbn [fst snd] in Hq.
    apply rmatch_Cat_In in Hq. destruct Hq as (q2 & Hq2 & Hq).
    apply rmatch_Boundary_In in Hq. destruct Hq as [Hb' ->].
    apply (rmatch_plain _ _ _ _ Hplain) in Hq2. destruct Hq2 as (w & E & R & F).
    exists w, (snd q2). rewrite <- F. auto.
  - intros (w & after & E & R & Hb & Hb').
    exists (last_read prev w, after).
    apply rmatch_Cat_In. exists (prev, s). split.
    + apply rmatch_Boundary_In. auto.
    + cbn [fst snd]. apply rmatch_Cat_In. exists (last_read prev w, after). split.
      * apply (rmatch_plain _ _ _ _ Hplain). exists w. auto.
      * apply rmatch_Boundary_In. auto.
Qed.

Lemma search_from_spec (r : regex) (prev : option N) (s : pystr) :
  search_from db true r prev s = true <->
  exists before after,
    s = before ++ after /\ rmatch db true r (last_read prev before) after <> [].
Proof.
  revert prev. induction s as [| c s IH]; intros prev; cbn [search_from].
  - destruct (rmatch db true r prev []) as [| q qs] eqn:E.
    + split; [discriminate |]. intros (before & after & Es & Hne).
      symmetry in Es. apply app_eq_nil in Es. destruct Es as [-> ->].
      exfalso. apply Hne. exact E.
    + split; [| reflexivity]. intros _. exists [], []. split; [reflexivity |].
      unfold last_read. cbn. rewrite E. discriminate.
  - destruct (rmatch db true r prev (c :: s)) as [| q qs] eqn:E.
    + rewrite IH. split.
      * intros (before & after & -> & Hne). exists (c :: before), after.
        split; [reflexivity |].
        change (c :: before) with ([c] ++ before). rewrite last_read_app. exact Hne.
      * intros (before & after & Es & Hne).
        destruct before as [| c' before].
        -- exfalso. apply Hne. cbn [app] in Es. subst after. exact E.
        -- injection Es as <- ->. exists before, after. split; [reflexivity |].
           change (c :: before) with ([c] ++ before) in Hne.
           rewrite last_read_app in Hne. exact Hne.
    + split; [| reflexivity]. intros _. exists [], (c :: s).
      split; [reflexivity |]. unfold last_read. cbn. rewrite E. discriminate.
Qed.

Lemma word_group_search (rs : list regex) (text : pystr) :
  plain (alt rs) = true ->
  re_search db true (word_group rs) text = true <-> has_word db (alt rs) text.
Proof.
  intros Hplain. unfold re_search, has_word. rewrite search_from_spec. split.
  - intros (before & after & -> & Hne).
    apply (rmatch_word_group rs _ _ Hplain) in Hne.
    destruct Hne as (w & rest & -> & R & Hb & Hb').
    exists before, w, rest. split; [reflexivity |]. split; [exact R |].
    unfold last_read in Hb at 1. cbn [last] in Hb.
    change (match last before with Some c => Some c | None => None end)
      with (last_read None before) in Hb.
    assert (E : last_read None before = last before)
      by (unfold last_read; destruct (last before); reflexivity).
    rewrite E in Hb, Hb'. rewrite last_read_last in Hb'. auto.
  - intros (before & w & after & -> & R & Hb & Hb').
    exists before, (w ++ after). split; [reflexivity |].
    apply (rmatch_word_group rs _ _ Hplain).
    assert (E : last_read None before = last before)
      by (unfold last_read; destruct (last before); reflexivity).
    exists w, after. rewrite E, last_read_last. auto.
Qed.
End WordRules.

Lemma description_in_indicators (db : unicode_db) (uuid4 : nat -> string)
    (text : pystr) (k : nat) (rule : indicator_pattern) :
  rule ∈ POSITIVE_INDICATORS_PATTERNS ->
  ip_description rule
    ∈ map pi_description (fst (_find_positive_indicators db uuid4 text k)) <->
  re_search db true (ip_pattern rule) text = true.
Proof.
  intros Hrule. rewrite _find_positive_indicators_spec. cbn [fst].
  rewrite indicators_of_description. unfold matching_indicator_rules.
  rewrite list_elem_of_fmap. split.
  - intros (rule' & E & Hin). apply list_elem_of_filter in Hin.
    destruct Hin as [Hsearch Hin'].
    assert (rule' = rule); [| subst; exact Hsearch].
    clear Hsearch. unfold POSITIVE_INDICATORS_PATTERNS in Hrule, Hin'.
    repeat (apply elem_of_cons in Hrule; destruct Hrule as [-> | Hrule]);
      try (apply elem_of_nil in Hrule; destruct Hrule);
      repeat (apply elem_of_cons in Hin'; destruct Hin' as [-> | Hin']);
      try (apply elem_of_nil in Hin'; destruct Hin');
      try reflexivity; discriminate E.
  - intros Hsearch. exists rule. split; [reflexivity |].
    apply list_elem_of_filter. split; assumption.
Qed.

Lemma word_group_inj (rs rs' : list regex) :
  word_group rs = word_group rs' -> alt rs = alt rs'.
Proof. unfold word_group. intros [= E]. exact E. Qed.

(** X27.  A rule of either table whose pattern is [\b(...)\b] fires exactly
    when the text holds a piece that one of the alternatives reads, case
    ignored, with a word boundary on each side. *)
Theorem word_rules_semantics (db : unicode_db) (uuid4 : nat -> string)
    (text : pystr) (k : nat) :
  (forall rule rs,
     rule ∈ RED_FLAG_PATTERNS -> fp_pattern rule = word_group rs ->
     fp_description rule ∈ map rf_description (fst (_find_red_flags db uuid4 text k))
     <-> has_word db (alt rs) text) /\
  (forall rule rs,
     rule ∈ POSITIVE_INDICATORS_PATTERNS -> ip_pattern rule = word_group rs ->
     ip_description rule
       ∈ map pi_description (fst (_find_positive_indicators db uuid4 text k))
     <-> has_word db (alt rs) text).
Proof.
  split; intros rule rs Hrule Hpattern.
  - rewrite (description_in_flags db uuid4 text k rule Hrule), Hpattern.
    apply word_group_search.
    unfold RED_FLAG_PATTERNS in Hrule.
    repeat (apply elem_of_cons in Hrule; destruct Hrule as [-> | Hrule]);
      try (apply elem_of_nil in Hrule; destruct Hrule);
      cbn [fp_pattern] in Hpattern; try discriminate Hpattern;
      apply word_group_inj in Hpattern; rewrite <- Hpattern; reflexivity.
  - rewrite (description_in_indicators db uuid4 text k rule Hrule), Hpattern.
    apply word_group_search.
    unfold POSITIVE_INDICATORS_PATTERNS in Hrule.
    repeat (apply elem_of_cons in Hrule; destruct Hrule as [-> | Hrule]);
      try (apply elem_of_nil in Hrule; destruct Hrule);
      cbn [ip_pattern] in Hpattern; try discriminate Hpattern;
      apply word_group_inj in Hpattern; rewrite <- Hpattern; reflexivity.
Qed.

Lemma reads_lit3 (db : unicode_db) (a b c : N) (w : pystr) :
  reads db (Cat (Atom (Chr a)) (Cat (Atom (Chr b)) (Cat (Atom (Chr c)) Eps))) w <->
  exists x y z, w = [x; y; z] /\ u_ci_eq db a x = true /\
                u_ci_eq db b y = true /\ u_ci_eq db c z = true.
Proof.
  cbn [reads atom_matches chr_matches]. split.
  - intros (w1 & w2 & -> & (x & -> & Hx) & w3 & w4 & -> & (y & -> & Hy)
            & w5 & w6 & -> & (z & -> & Hz) & ->).
    exists x, y, z. auto.
  - intros (x & y & z & -> & Hx & Hy & Hz).
    exists [x], [y; z]. split; [reflexivity |]. split; [exists x; auto |].
    exists [y], [z]. split; [reflexivity |]. split; [exists y; auto |].
    exists [z], []. split; [reflexivity |]. split; [exists z; auto | reflexivity].
Qed.

(** X28.  The rule "References expert opinions" fires on "expert", "professor"
    or "doctor" between word boundaries, and on "dr." only when a word
    character follows the full stop. *)
Theorem expert_rule_abbreviation (db : unicode_db) (uuid4 : nat -> string)
    (text : pystr) (k : nat) :
  (forall c, u_ci_eq db 46 c = true -> u_word db c = false) ->
  "References expert opinions"%string
    ∈ map pi_description (fst (_find_positive_indicators db uuid4 text k)) <->
  (has_word db (alt [lit "expert"; lit "professor"; lit "doctor"]) text \/
   exists before d r dot c after,
     text = before ++ [d; r; dot] ++ c :: after /\
     u_ci_eq db 100 d = true /\ u_ci_eq db 114 r = true /\
     u_ci_eq db 46 dot = true /\
     boundary db (last before) (Some d) = true /\ u_word db c = true).
Proof.
  intros Hdot.
  assert (Hrule : {| ip_pattern :=
                       word_group [lit "expert"; lit "professor"; lit "doctor";
                                   lit "dr."];
                     ip_description := "References expert opinions";
                     ip_icon := "expert" |} ∈ POSITIVE_INDICATORS_PATTERNS).
  { unfold POSITIVE_INDICATORS_PATTERNS. do 2 apply list_elem_of_further.
    apply list_elem_of_here. }
  rewrite (description_in_indicators db uuid4 text k _ Hrule). cbn [ip_pattern].
  rewrite word_group_search by reflexivity.
  unfold has_word. split.
  - intros (before & w & after & -> & R & Hb & Hb').
    cbn [alt] in R. cbn [reads] in R. fold (reads db) in R.
    destruct R as [R | [R | [R | R]]].
    + left. exists before, w, after. repeat split; try assumption.
      cbn [alt reads]. left. exact R.
    + left. exists before, w, after. repeat split; try assumption.
      cbn [alt reads]. right. left. exact R.
    + left. exists before, w, after. repeat split; try assumption.
      cbn [alt reads]. right. right. exact R.
    + right.
      apply (reads_lit3 db 100 114 46) in R.
      destruct R as (d & r & dot & -> & Hd & Hr & Hdot').
      rewrite last_app in Hb'. cbn [last] in Hb'.
      unfold boundary in Hb'. cbn [is_word] in Hb'.
      rewrite (Hdot dot Hdot') in Hb'. cbn [xorb] in Hb'.
      destruct after as [| c after]; [discriminate Hb' |].
      exists before, d, r, dot, c, after. cbn [head is_word] in Hb'.
      repeat split; assumption.
  - intros [(before & w & after & -> & R & Hb & Hb') |
            (before & d & r & dot & c & after & -> & Hd & Hr & Hdot' & Hb & Hc)].
    + exists before, w, after. repeat split; try assumption.
      cbn [alt reads] in R |- *. fold (reads db) in R |- *.
      destruct R as [R | [R | R]]; auto.
    + exists before, [d; r; dot], (c :: after).
      split; [reflexivity |]. split; [| split].
      * cbn [alt reads]. fold (reads db). right. right. right.
        apply (reads_lit3 db 100 114 46). exists d, r, dot. auto.
      * exact Hb.
      * rewrite last_app. cbn [last head]. unfold boundary. cbn [is_word].
        rewrite (Hdot dot Hdot'), Hc. reflexivity.
Qed.

(** Twelve occurrences, and two against five. *)
Lemma keyword_weight_saturates_witness :
  7 <= 12 /\ keyword_weight 12 = float_of_int 1 /\
  1 <= 2 /\ 2 < 5 /\ 5 <= 7 /\
  flt (keyword_weight 2) (keyword_weight 5) = true.
Proof.
  assert (H7 : 7 <= 12) by lia.
  assert (H1 : 1 <= 2) by lia.
  assert (H2 : 2 < 5) by lia.
  assert (H3 : 5 <= 7) by lia.
  split; [exact H7 |].
  split; [exact (proj1 (keyword_weight_saturates 12 12) H7) |].
  split; [exact H1 |]. split; [exact H2 |]. split; [exact H3 |].
  exact (proj2 (keyword_weight_saturates 2 5) H1 H2 H3).
Defined.

(** The urgency rule. *)
Lemma word_rules_semantics_witness :
  urgency_rule ∈ RED_FLAG_PATTERNS /\
  fp_pattern urgency_rule
    = word_group [lit "click here"; lit "share now"; lit "act fast"] /\
  ("Uses urgency tactics"%string
     ∈ map rf_description
         (fst (_find_red_flags ascii_db sample_uuid4 (codes "Act fast, click here!") 0))
   <-> has_word ascii_db (alt [lit "click here"; lit "share now"; lit "act fast"])
         (codes "Act fast, click here!")).
Proof.
  assert (H1 : urgency_rule ∈ RED_FLAG_PATTERNS).
  { unfold RED_FLAG_PATTERNS. do 3 apply list_elem_of_further.
    apply list_elem_of_here. }
  assert (H2 : fp_pattern urgency_rule
               = word_group [lit "click here"; lit "share now"; lit "act fast"])
    by reflexivity.
  split; [exact H1 |]. split; [exact H2 |].
  exact (proj1 (word_rules_semantics ascii_db sample_uuid4
                  (codes "Act fast, click here!") 0%nat) urgency_rule _ H1 H2).
Defined.

Lemma ascii_full_stop (c : N) :
  u_ci_eq ascii_db 46 c = true -> u_word ascii_db c = false.
Proof.
  cbn [u_ci_eq u_word ascii_db]. intros H. apply N.eqb_eq in H.
  assert (E : c = 46%N).
  { revert H. unfold ascii_lower, in_range.
    destruct (N.leb_spec 65 46); [lia |]. cbn [andb].
    destruct (N.leb_spec 65 c), (N.leb_spec c 90); cbn [andb]; lia. }
  subst c. reflexivity.
Qed.

(** The ASCII database and a text with "Dr. Smith". *)
Lemma expert_rule_abbreviation_witness :
  (forall c, u_ci_eq ascii_db 46 c = true -> u_word ascii_db c = false) /\
  ("References expert opinions"%string
     ∈ map pi_description
         (fst (_find_positive_indicators ascii_db sample_uuid4
                 (codes "Dr. Smith said so") 0))
   <->
   (has_word ascii_db (alt [lit "expert"; lit "professor"; lit "doctor"])
      (codes "Dr. Smith said so") \/
    exists before d r dot c after,
      codes "Dr. Smith said so" = before ++ [d; r; dot] ++ c :: after /\
      u_ci_eq ascii_db 100 d = true /\ u_ci_eq ascii_db 114 r = true /\
      u_ci_eq ascii_db 46 dot = true /\
      boundary ascii_db (last before) (Some d) = true /\
      u_word ascii_db c = true)).
Proof.
  split; [exact ascii_full_stop |].
  exact (expert_rule_abbreviation ascii_db sample_uuid4
           (codes "Dr. Smith said so") 0%nat ascii_full_stop).
Defined.

(** * The tokenizer *)

Section Tokenizer.
Context (db : unicode_db).
Hypothesis letters_are_words : forall c, lower_letter c = true -> u_word db c = true.

Lemma run_elem (ic : bool) (a : atom) (prev : option N) (s : pystr) (q : position) :
  In q (run db ic a prev s) <->
  exists pre, s = pre ++ snd q /\
              Forall (fun c => atom_matches db ic a c = true) pre /\
              fst q = last_read prev pre.
Proof.
  revert prev. induction s as [| c s IH]; intros prev; cbn [run].
  - split.
    + intros [<- | []]. exists []. auto.
    + intros (pre & E & _ & F). symmetry in E. apply app_eq_nil in E.
      destruct E as [-> E]. left. destruct q as [o t]. cbn [fst snd] in *.
      subst. reflexivity.
  - split.
    + intros [<- | Hq]; [exists []; auto |].
      destruct (atom_matches db ic a c) eqn:Ec; [| destruct Hq].
      apply IH in Hq. destruct Hq as (pre & -> & Hpre & F).
      exists (c :: pre). split; [reflexivity |]. split; [constructor; assumption |].
      rewrite F. change (c :: pre) with ([c] ++ pre). rewrite last_read_app.
      reflexivity.
    + intros (pre & E & Hpre & F). destruct pre as [| c' pre].
      * left. destruct q as [o t]. cbn [fst snd app] in *. subst. reflexivity.
      * right. injection E as <- ->. inversion Hpre as [| ? ? Hc Hpre']; subst.
        rewrite Hc. apply IH. exists pre. split; [reflexivity |].
        split; [exact Hpre' |].
        rewrite F. change (c :: pre) with ([c] ++ pre). rewrite last_read_app.
        reflexivity.
Qed.

Lemma run_tail_elem (ic : bool) (a : atom) (prev : option N) (s : pystr)
    (q : position) :
  In q (drop 1 (run db ic a prev s)) <->
  exists pre, pre <> [] /\ s = pre ++ snd q /\
              Forall (fun c => atom_matches db ic a c = true) pre /\
              fst q = last pre.
Proof.
  rewrite run_unfold. cbn [drop]. destruct s as [| c s].
  - split; [intros [] |]. intros (pre & Hne & E & _).
    symmetry in E. apply app_eq_nil in E. destruct E as [-> _]. contradiction.
  - destruct (atom_matches db ic a c) eqn:Ec.
    + change (drop 0 (run db ic a (Some c) s)) with (run db ic a (Some c) s).
      rewrite run_elem. split.
      * intros (pre & -> & Hpre & F). exists (c :: pre).
        split; [discriminate |]. split; [reflexivity |].
        split; [constructor; assumption |].
        rewrite F. unfold last_read.
        destruct pre as [| d pre]; [reflexivity |].
        rewrite last_cons_cons. destruct (last (d :: pre)) eqn:El; [reflexivity |].
        apply last_None in El. discriminate El.
      * intros (pre & Hne & E & Hpre & F).
        destruct pre as [| c' pre]; [contradiction |].
        injection E as <- ->. inversion Hpre; subst.
        exists pre. split; [reflexivity |]. split; [assumption |].
        rewrite F. unfold last_read.
        destruct pre as [| d pre]; [reflexivity |].
        rewrite last_cons_cons. destruct (last (d :: pre)) eqn:El; [reflexivity |].
        apply last_None in El. discriminate El.
    + split; [intros [] |]. intros (pre & Hne & E & Hpre & _).
      destruct pre as [| c' pre]; [contradiction |].
      injection E as <- ->. inversion Hpre; subst. congruence.
Qed.

Lemma letters_last (pre : pystr) :
  pre <> [] -> Forall (fun c => lower_letter c = true) pre ->
  is_word db (last pre) = true.
Proof.
  intros Hne Hpre. destruct (last pre) as [c |] eqn:El.
  - apply last_Some in El. destruct El as (l' & ->).
    apply Forall_app in Hpre. destruct Hpre as [_ Hc].
    inversion Hc; subst. cbn [is_word]. auto.
  - apply last_None in El. contradiction.
Qed.

Lemma letters_head (pre rest : pystr) :
  pre <> [] -> Forall (fun c => lower_letter c = true) pre ->
  is_word db (head (pre ++ rest)) = true.
Proof.
  intros Hne Hpre. destruct pre as [| c pre]; [contradiction |].
  inversion Hpre; subst. cbn [app head is_word]. auto.
Qed.

Lemma word_match (prev : option N) (s : pystr) (q : position) :
  In q (rmatch db false WORD_PATTERN prev s) <->
  exists pre, pre <> [] /\ s = pre ++ snd q /\
              Forall (fun c => lower_letter c = true) pre /\
              fst q = last pre /\
              is_word db prev = false /\ is_word db (head (snd q)) = false.
Proof.
  unfold WORD_PATTERN. rewrite rmatch_Cat_In. split.
  - intros (q1 & Hq1 & Hq).
    apply rmatch_Boundary_In in Hq1. destruct Hq1 as [Hb ->]. cbn [fst snd] in Hq.
    apply rmatch_Cat_In in Hq. destruct Hq as (q2 & Hq2 & Hq).
    apply rmatch_Boundary_In in Hq. destruct Hq as [Hb' ->].
    cbn [rmatch] in Hq2. rewrite <- in_rev in Hq2.
    apply run_tail_elem in Hq2. destruct Hq2 as (pre & Hne & E & Hpre & F).
    exists pre. split; [exact Hne |]. split; [exact E |].
    split; [exact Hpre |]. split; [exact F |].
    unfold boundary in Hb, Hb'. rewrite E in Hb.
    rewrite (letters_head pre _ Hne Hpre) in Hb.
    rewrite F, (letters_last pre Hne Hpre) in Hb'.
    cbn [fst snd].
    destruct (is_word db prev); [discriminate Hb |].
    destruct (is_word db (head (snd q2))); [discriminate Hb' |]. auto.
  - intros (pre & Hne & E & Hpre & F & Hp & Hn).
    exists (prev, s). split.
    + apply rmatch_Boundary_In. split; [| reflexivity].
      unfold boundary. rewrite E, (letters_head pre _ Hne Hpre), Hp. reflexivity.
    + cbn [fst snd]. apply rmatch_Cat_In. exists q. split.
      * cbn [rmatch]. rewrite <- in_rev. apply run_tail_elem.
        exists pre. auto.
      * apply rmatch_Boundary_In. split.
        -- unfold boundary. rewrite F, (letters_last pre Hne Hpre), Hn. reflexivity.
        -- destruct q; reflexivity.
Qed.

Lemma findall_skip (ic : bool) (r : regex) (prev : option N) (x rest : pystr) :
  x <> [] ->
  findall_from db ic r prev (x ++ rest) (length x) =
  findall_from db ic r (last x) rest 0.
Proof.
  revert prev. induction x as [| c x IH]; intros prev Hne; [contradiction |].
  cbn [app length findall_from]. destruct x as [| d x].
  - reflexivity.
  - rewrite IH by discriminate. rewrite last_cons_cons. reflexivity.
Qed.

Lemma delimited_cons (prev : option N) (c : N) (w s : pystr) :
  delimited db (Some c) w s -> delimited db prev w (c :: s).
Proof.
  intros (before & after & -> & Hne & Hw & Hb & Ha).
  exists (c :: before), after. split; [reflexivity |].
  change (c :: before) with ([c] ++ before). rewrite last_read_app. auto.
Qed.

Lemma delimited_app (prev : option N) (pre w s : pystr) :
  pre <> [] -> delimited db (last pre) w s -> delimited db prev w (pre ++ s).
Proof.
  intros Hne (before & after & -> & Hw & Hl & Hb & Ha).
  exists (pre ++ before), after. split; [rewrite <- app_assoc; reflexivity |].
  rewrite last_read_app.
  assert (E : last_read prev pre = last pre).
  { unfold last_read. destruct (last pre) eqn:El; [reflexivity |].
    apply last_None in El. contradiction. }
  rewrite E. auto.
Qed.

Lemma head_elem (l rest : pystr) (P : N -> Prop) :
  l <> [] -> Forall P l -> exists c, head (l ++ rest) = Some c /\ P c.
Proof.
  intros Hne H. destruct l as [| c l]; [contradiction |].
  inversion H; subst. exists c. auto.
Qed.

Lemma not_word_not_letter (o : option N) (c : N) :
  is_word db o = false -> o = Some c -> lower_letter c = true -> False.
Proof.
  intros Hw -> Hc. cbn [is_word] in Hw. rewrite (letters_are_words c Hc) in Hw.
  discriminate Hw.
Qed.

(** A run of letters closed by a character that is not a word character
    is determined by the text. *)
Lemma letter_run_unique (pre w rest after : pystr) :
  pre ++ rest = w ++ after ->
  Forall (fun c => lower_letter c = true) pre ->
  Forall (fun c => lower_letter c = true) w ->
  is_word db (head rest) = false -> is_word db (head after) = false ->
  pre = w /\ rest = after.
Proof.
  intros E Hpre Hw Hr Ha.
  apply app_eq_app in E. destruct E as (l & [[-> ->] | [-> ->]]).
  - destruct l as [| c l]; [rewrite app_nil_r; auto |].
    exfalso. apply Forall_app in Hpre. destruct Hpre as [_ Hl].
    inversion Hl; subst. cbn [app head] in Ha.
    eapply not_word_not_letter; [exact Ha | reflexivity | assumption].
  - destruct l as [| c l]; [rewrite app_nil_r; auto |].
    exfalso. apply Forall_app in Hw. destruct Hw as [_ Hl].
    inversion Hl; subst. cbn [app head] in Hr.
    eapply not_word_not_letter; [exact Hr | reflexivity | assumption].
Qed.

Lemma findall_words (s : pystr) (prev : option N) (w : pystr) :
  In w (findall_from db false WORD_PATTERN prev s 0) <-> delimited db prev w s.
Proof.
  remember (length s) as len eqn:Hlen. revert s prev Hlen.
  induction len as [len IH] using lt_wf_ind. intros s prev Hlen.
  destruct s as [| c s].
  - cbn [findall_from].
    destruct (rmatch db false WORD_PATTERN prev []) as [| q qs] eqn:E.
    + split; [intros [] |].
      intros (before & after & Es & Hne & _).
      symmetry in Es. apply app_eq_nil in Es. destruct Es as [_ Es].
      apply app_eq_nil in Es. destruct Es as [-> _]. contradiction.
    + exfalso.
      assert (Hq : In q (rmatch db false WORD_PATTERN prev []))
        by (rewrite E; left; reflexivity).
      apply word_match in Hq. destruct Hq as (pre & Hne & Es & _).
      symmetry in Es. apply app_eq_nil in Es. destruct Es as [-> _]. contradiction.
  - cbn [findall_from].
    destruct (rmatch db false WORD_PATTERN prev (c :: s)) as [| q qs] eqn:E.
    + (* no word starts here *)
      rewrite (IH (length s)) by (subst len; cbn [length]; lia || reflexivity).
      split; [apply delimited_cons |].
      intros (before & after & Es & Hne & Hw & Hb & Ha).
      destruct before as [| c' before].
      * exfalso.
        assert (Hq : In (last w, after) (rmatch db false WORD_PATTERN prev (c :: s))).
        { apply word_match. exists w. cbn [fst snd]. cbn [app] in Es.
          unfold last_read in Hb. cbn [last] in Hb.
          repeat split; assumption || reflexivity. }
        rewrite E in Hq. destruct Hq.
      * injection Es as <- ->. exists before, after.
        split; [reflexivity |].
        change (c :: before) with ([c] ++ before) in Hb.
        rewrite last_read_app in Hb. auto.
    + (* a word starts here *)
      assert (Hq : In q (rmatch db false WORD_PATTERN prev (c :: s)))
        by (rewrite E; left; reflexivity).
      apply word_match in Hq.
      destruct Hq as (pre & Hne & Es & Hpre & F & Hp & Hn).
      destruct pre as [| c' pre]; [contradiction |].
      injection Es as <- Es.
      assert (El : (length (c :: s) - length (snd q))%nat = S (length pre)).
      { cbn [length]. rewrite Es, length_app. lia. }
      rewrite El. replace (S (length pre) - 1)%nat with (length pre) by lia.
      assert (Et : take (S (length pre)) (c :: s) = c :: pre).
      { rewrite Es. cbn [take]. f_equal. rewrite take_app_length. reflexivity. }
      rewrite Et.
      assert (Ef : findall_from db false WORD_PATTERN (Some c) s (length pre) =
                   findall_from db false WORD_PATTERN (last (c :: pre)) (snd q) 0).
      { rewrite Es. destruct pre as [| d pre].
        - reflexivity.
        - rewrite findall_skip by discriminate. rewrite last_cons_cons. reflexivity. }
      rewrite Ef. cbn [In].
      rewrite (IH (length (snd q)))
        by (try reflexivity; subst len; cbn [length]; rewrite Es, length_app; lia).
      split.
      * intros [<- | Hd].
        -- exists [], (snd q). split; [cbn [app]; rewrite Es; reflexivity |].
           split; [discriminate |]. split; [exact Hpre |].
           unfold last_read. cbn [last]. auto.
        -- rewrite Es. change (c :: pre ++ snd q) with ((c :: pre) ++ snd q).
           apply delimited_app; [discriminate | exact Hd].
      * intros (before & after & Ew & Hwne & Hw & Hb & Ha).
        rewrite Es in Ew. change (c :: pre ++ snd q) with ((c :: pre) ++ snd q) in Ew.
        destruct before as [| b before].
        -- left. cbn [app] in Ew.
           destruct (letter_run_unique (c :: pre) w (snd q) after Ew Hpre Hw Hn Ha)
             as [<- _].
           reflexivity.
        -- right. apply app_eq_app in Ew.
           destruct Ew as (l & [[E1 E2] | [E1 E2]]).
           ++ (* [before] ends inside the word *)
              exfalso. rewrite E1 in Hpre.
              apply Forall_app in Hpre. destruct Hpre as [Hbefore _].
              assert (Hlast : is_word db (last (b :: before)) = true)
                by (apply letters_last; [discriminate | exact Hbefore]).
              unfold last_read in Hb.
              destruct (last (b :: before)) eqn:Elast;
                [congruence | apply last_None in Elast; discriminate Elast].
           ++ exists l, after. split; [exact E2 |].
              split; [exact Hwne |]. split; [exact Hw |]. split; [| exact Ha].
              rewrite E1 in Hb. rewrite last_read_app in Hb.
              assert (E3 : last_read prev (c :: pre) = last (c :: pre)).
              { unfold last_read. destruct (last (c :: pre)) eqn:Elast;
                  [reflexivity | apply last_None in Elast; discriminate Elast]. }
              rewrite E3 in Hb. exact Hb.
Qed.
End Tokenizer.

(** X29.  When the letters a-z are word characters, the tokens that
    [re.findall] returns for [\b[a-z]+\b] are exactly the nonempty runs of
    letters a-z of the text that stand between two characters that are not
    word characters, or an end of the text. *)
Theorem tokens_are_delimited_words (db : unicode_db) (text w : pystr) :
  (forall c, lower_letter c = true -> u_word db c = true) ->
  w ∈ re_findall db false WORD_PATTERN text <->
  exists before after,
    text = before ++ w ++ after /\ w <> [] /\
    Forall (fun c => lower_letter c = true) w /\
    is_word db (last before) = false /\ is_word db (head after) = false.
Proof.
  intros Hletters. rewrite list_elem_of_In. unfold re_findall.
  rewrite (findall_words db Hletters text None w). unfold delimited.
  split; intros (before & after & E & Hne & Hw & Hb & Ha); exists before, after;
    (split; [exact E |]); (split; [exact Hne |]); (split; [exact Hw |]);
    (split; [| exact Ha]);
    unfold last_read in *; destruct (last before); exact Hb.
Qed.

Lemma ascii_letters_are_words (c : N) :
  lower_letter c = true -> u_word ascii_db c = true.
Proof.
  unfold lower_letter. cbn [u_word ascii_db]. unfold ascii_word. intros ->.
  rewrite !orb_true_r. reflexivity.
Qed.

(** The word "study" before a full stop. *)
Lemma tokens_are_delimited_words_witness :
  (forall c, lower_letter c = true -> u_word ascii_db c = true) /\
  (codes "study" ∈ re_findall ascii_db false WORD_PATTERN (codes "a study.")
   <->
   exists before after,
     codes "a study." = before ++ codes "study" ++ after /\ codes "study" <> [] /\
     Forall (fun c => lower_letter c = true) (codes "study") /\
     is_word ascii_db (last before) = false /\
     is_word ascii_db (head after) = false).
Proof.
  split; [exact ascii_letters_are_words |].
  exact (tokens_are_delimited_words ascii_db (codes "a study.") (codes "study")
           ascii_letters_are_words).
Defined.
